(** * WorldSim: the simulation core (resources, learner, engine)

    A shallow embedding of

    - [app/core/resources.py]   (ResourcePool, RegionState),
    - [app/agents/rl_agent.py]  (DQNAgent, RegionalAgent),
    - [app/simulation/engine.py] (ClimaticEvent, TradeNetwork, WorldSimulation),

    and the properties the specification states about them.

    Numbers.  Python [float]s are embedded as exact rationals ([Q]); the
    development therefore speaks about the arithmetic the program writes
    down, not about binary64 (or, for the state vector, binary32)
    rounding, infinities or NaN.  Python [int]s are [Z].  [int(x)]
    truncates towards zero.  Equalities between rationals are [==].

    Objects.  A dataclass is a record and an assignment to a field builds
    the updated record.  A [dict] is an association list in insertion
    order.  The region objects live in the [regions] dictionary of the
    simulation; a reference to one is its key.

    Effects.  The program draws from three process-wide sources: numpy's
    global generator, the [random] module's global generator and the wall
    clock.  None of the three is code of this repository, so they are
    taken as an interface ([Py.Runtime]) and their states are threaded
    explicitly.  A Python exception is a [Py.Raise] outcome; the state
    reached when it was raised is kept, as the mutated objects are in
    Python. *)

From Stdlib Require Import QArith Qabs Qminmax ZArith Lqa Lia List String Bool DecimalString DecimalNat.
Import ListNotations.
Open Scope string_scope.
Open Scope list_scope.
Open Scope Q_scope.

(* ================================================================== *)
(** ** Python builtins, numpy and the process-wide sources            *)
(* ================================================================== *)

Module Py.

Inductive exn : Type :=
| AttributeError (obj attr : string)
| KeyError
| IndexError
| ValueError
| ZeroDivisionError.

Inductive outcome (A : Type) : Type :=
| Ret (a : A)
| Raise (e : exn).
Arguments Ret {A} a.
Arguments Raise {A} e.

Definition is_ret {A : Type} (o : outcome A) : bool :=
  match o with
  | Ret _ => true
  | Raise _ => false
  end.

(** [a < b] on floats. *)
Definition Qltb (a b : Q) : bool := negb (Qle_bool b a).

(** [min(a, b)]: the first argument unless the second is strictly smaller. *)
Definition py_min (a b : Q) : Q := if Qltb b a then b else a.

(** [max(a, b)]: the first argument unless the second is strictly larger. *)
Definition py_max (a b : Q) : Q := if Qltb a b then b else a.

(** [int(x)]: truncation towards zero. *)
Definition py_int (x : Q) : Z := Z.quot (Qnum x) (Zpos (Qden x)).

(** [np.clip(x, lo, hi)] = [minimum(maximum(x, lo), hi)]. *)
Definition np_clip (x lo hi : Q) : Q :=
  let m := if Qltb x lo then lo else x in
  if Qltb hi m then hi else m.

(** [sum] of a float sequence. *)
Definition np_sum (xs : list Q) : Q := fold_left Qplus xs 0.

(** [np.max]: raises [ValueError] on an empty array. *)
Definition np_max (xs : list Q) : outcome Q :=
  match xs with
  | [] => Raise ValueError
  | x :: rest => Ret (fold_left (fun m y => if Qltb m y then y else m) rest x)
  end.

(** [np.argmax]: the first index holding the maximum. *)
Fixpoint argmax_from (best_i : Z) (best : Q) (i : Z) (xs : list Q) : Z :=
  match xs with
  | [] => best_i
  | y :: rest =>
      if Qltb best y then argmax_from i y (i + 1)%Z rest
      else argmax_from best_i best (i + 1)%Z rest
  end.

Definition np_argmax (xs : list Q) : outcome Z :=
  match xs with
  | [] => Raise ValueError
  | x :: rest => Ret (argmax_from 0%Z x 1%Z rest)
  end.

(** numpy indexing [a[i]] with a Python integer: [-n <= i < n]. *)
Definition np_index (n : nat) (i : Z) : outcome nat :=
  if (0 <=? i)%Z && (i <? Z.of_nat n)%Z then Ret (Z.to_nat i)
  else if (- Z.of_nat n <=? i)%Z && (i <? 0)%Z then Ret (Z.to_nat (Z.of_nat n + i))
  else Raise IndexError.

Fixpoint list_set {A : Type} (xs : list A) (i : nat) (v : A) : list A :=
  match xs, i with
  | [], _ => []
  | _ :: rest, O => v :: rest
  | x :: rest, S j => x :: list_set rest j v
  end.

(** Insertion-ordered dictionaries with string keys. *)
Definition dict (V : Type) : Type := list (string * V).

Fixpoint dict_get {V : Type} (d : dict V) (k : string) : option V :=
  match d with
  | [] => None
  | (k', v) :: rest => if String.eqb k' k then Some v else dict_get rest k
  end.

Fixpoint dict_set {V : Type} (d : dict V) (k : string) (v : V) : dict V :=
  match d with
  | [] => [(k, v)]
  | (k', v') :: rest =>
      if String.eqb k' k then (k', v) :: rest else (k', v') :: dict_set rest k v
  end.

Definition dict_keys {V : Type} (d : dict V) : list string := map fst d.

Definition str_in (s : string) (l : list string) : bool :=
  existsb (String.eqb s) l.

(** [str(i)] for a non-negative integer. *)
Definition str_of_nat (i : nat) : string :=
  NilEmpty.string_of_uint (Nat.to_uint i).

(** The three process-wide sources the program draws from.  [np_*] is
    numpy's global generator ([np.random.*]), [py_*] is the standard
    library's [random] module, [now] is [datetime.now()].  Only
    [np_seed] re-positions a generator, and only numpy's. *)
Record Runtime : Type := {
  NpState : Type;
  PyState : Type;
  Clock : Type;
  np_seed : Z -> NpState;
  np_random : NpState -> Q * NpState;
  np_uniform : Q -> Q -> NpState -> Q * NpState;
  np_randint : Z -> Z -> NpState -> Z * NpState;
  np_randn : Z -> NpState -> list Q * NpState;
  np_choice : list string -> NpState -> string * NpState;
  np_choice_k : list string -> Z -> NpState -> list string * NpState;
  py_randint : Z -> Z -> PyState -> Z * PyState;
  py_sample : forall A : Type, list A -> Z -> PyState -> list A * PyState;
  now : Clock -> Z * Clock
}.

(** The state of the three sources at one point of the execution. *)
Record Globals (rt : Runtime) : Type := {
  np : NpState rt;
  py : PyState rt;
  clk : Clock rt
}.
Arguments np {rt} g.
Arguments py {rt} g.
Arguments clk {rt} g.
Arguments Build_Globals {rt} np py clk.

End Py.
Import Py.

(* ================================================================== *)
(** ** app/core/resources.py                                          *)
(* ================================================================== *)

Module Resources.

Record ResourcePool : Type := {
  water : Q;
  food : Q;
  energy : Q;
  land : Q;
  max_water : Q;
  max_food : Q;
  max_energy : Q;
  max_land : Q
}.

(** [__post_init__]: every stock becomes [min(stock, max_stock)]. *)
Definition __post_init__ (p : ResourcePool) : ResourcePool :=
  {| water := py_min (water p) (max_water p);
     food := py_min (food p) (max_food p);
     energy := py_min (energy p) (max_energy p);
     land := py_min (land p) (max_land p);
     max_water := max_water p; max_food := max_food p;
     max_energy := max_energy p; max_land := max_land p |}.

(** The dataclass constructor with all eight fields given. *)
Definition ResourcePool_init (w f e l mw mf me ml : Q) : ResourcePool :=
  __post_init__
    {| water := w; food := f; energy := e; land := l;
       max_water := mw; max_food := mf; max_energy := me; max_land := ml |}.

(** [ResourcePool(water=w, food=f, energy=e, land=l)]: the caps take
    their defaults. *)
Definition ResourcePool_new (w f e l : Q) : ResourcePool :=
  ResourcePool_init w f e l 2000 2000 2000 1000.

(** The dictionary [get_as_dict] builds: exactly these four keys. *)
Record ResourceDict : Type := {
  d_water : Q;
  d_food : Q;
  d_energy : Q;
  d_land : Q
}.

Definition get_as_dict (p : ResourcePool) : ResourceDict :=
  {| d_water := water p; d_food := food p;
     d_energy := energy p; d_land := land p |}.

Definition deplete (p : ResourcePool) (w f e l : Q) : ResourcePool :=
  {| water := py_max 0 (water p - w);
     food := py_max 0 (food p - f);
     energy := py_max 0 (energy p - e);
     land := py_max 0 (land p - l);
     max_water := max_water p; max_food := max_food p;
     max_energy := max_energy p; max_land := max_land p |}.

Definition replenish (p : ResourcePool) (w f e l : Q) : ResourcePool :=
  {| water := py_min (max_water p) (water p + w);
     food := py_min (max_food p) (food p + f);
     energy := py_min (max_energy p) (energy p + e);
     land := py_min (max_land p) (land p + l);
     max_water := max_water p; max_food := max_food p;
     max_energy := max_energy p; max_land := max_land p |}.

Definition get_total_value (p : ResourcePool) : Q :=
  water p + food p + energy p + land p * 10.

Definition is_critical (p : ResourcePool) : bool :=
  Qltb (water p) 100 || Qltb (food p) 100 || Qltb (energy p) 100.

Record RegionState : Type := {
  region_id : string;
  name : string;
  resources : ResourcePool;
  population : Z;
  development_level : Q;
  growth_rate : Q;
  stability : Q;
  trade_partners : dict Q;
  temperature : Q;
  rainfall : Q;
  disaster_risk : Q
}.

(** The dictionary [get_state_dict] builds. *)
Record StateDict : Type := {
  sd_region_id : string;
  sd_name : string;
  sd_resources : ResourceDict;
  sd_population : Z;
  sd_development_level : Q;
  sd_growth_rate : Q;
  sd_stability : Q;
  sd_trade_partners : dict Q;
  sd_temperature : Q;
  sd_rainfall : Q;
  sd_disaster_risk : Q
}.

Definition get_state_dict (r : RegionState) : StateDict :=
  {| sd_region_id := region_id r;
     sd_name := name r;
     sd_resources := get_as_dict (resources r);
     sd_population := population r;
     sd_development_level := development_level r;
     sd_growth_rate := growth_rate r;
     sd_stability := stability r;
     sd_trade_partners := trade_partners r;
     sd_temperature := temperature r;
     sd_rainfall := rainfall r;
     sd_disaster_risk := disaster_risk r |}.

(** Field updates ([r.resources = ...], [r.population = ...] and so on). *)
Definition set_resources (r : RegionState) (p : ResourcePool) : RegionState :=
  {| region_id := region_id r; name := name r; resources := p;
     population := population r; development_level := development_level r;
     growth_rate := growth_rate r; stability := stability r;
     trade_partners := trade_partners r; temperature := temperature r;
     rainfall := rainfall r; disaster_risk := disaster_risk r |}.

Definition set_population (r : RegionState) (n : Z) : RegionState :=
  {| region_id := region_id r; name := name r; resources := resources r;
     population := n; development_level := development_level r;
     growth_rate := growth_rate r; stability := stability r;
     trade_partners := trade_partners r; temperature := temperature r;
     rainfall := rainfall r; disaster_risk := disaster_risk r |}.

Definition set_growth_rate (r : RegionState) (g : Q) : RegionState :=
  {| region_id := region_id r; name := name r; resources := resources r;
     population := population r; development_level := development_level r;
     growth_rate := g; stability := stability r;
     trade_partners := trade_partners r; temperature := temperature r;
     rainfall := rainfall r; disaster_risk := disaster_risk r |}.

Definition set_development_level (r : RegionState) (d : Q) : RegionState :=
  {| region_id := region_id r; name := name r; resources := resources r;
     population := population r; development_level := d;
     growth_rate := growth_rate r; stability := stability r;
     trade_partners := trade_partners r; temperature := temperature r;
     rainfall := rainfall r; disaster_risk := disaster_risk r |}.

(** The dataclass constructor as [_initialize_world] calls it: the other
    fields take their defaults. *)
Definition RegionState_new (rid nm : string) (p : ResourcePool) (pop : Z)
    (dev temp rain : Q) : RegionState :=
  {| region_id := rid; name := nm; resources := p; population := pop;
     development_level := dev; growth_rate := 0.02; stability := 0.8;
     trade_partners := []; temperature := temp; rainfall := rain;
     disaster_risk := 0.05 |}.

(** Attribute access on a [ResourcePool] by name ([hasattr], [getattr],
    [setattr]) for the dataclass fields. *)
Definition pool_getattr (p : ResourcePool) (attr : string) : option Q :=
  if String.eqb attr "water" then Some (water p)
  else if String.eqb attr "food" then Some (food p)
  else if String.eqb attr "energy" then Some (energy p)
  else if String.eqb attr "land" then Some (land p)
  else if String.eqb attr "max_water" then Some (max_water p)
  else if String.eqb attr "max_food" then Some (max_food p)
  else if String.eqb attr "max_energy" then Some (max_energy p)
  else if String.eqb attr "max_land" then Some (max_land p)
  else None.

Definition pool_setattr (p : ResourcePool) (attr : string) (v : Q) : ResourcePool :=
  {| water := if String.eqb attr "water" then v else water p;
     food := if String.eqb attr "food" then v else food p;
     energy := if String.eqb attr "energy" then v else energy p;
     land := if String.eqb attr "land" then v else land p;
     max_water := if String.eqb attr "max_water" then v else max_water p;
     max_food := if String.eqb attr "max_food" then v else max_food p;
     max_energy := if String.eqb attr "max_energy" then v else max_energy p;
     max_land := if String.eqb attr "max_land" then v else max_land p |}.

End Resources.
Import Resources.

(* ================================================================== *)
(** ** app/agents/rl_agent.py                                         *)
(* ================================================================== *)

Module RlAgent.

(** One entry of the replay memory:
    [(state, action, reward, next_state, done)]. *)
Record Transition : Type := {
  t_state : list Q;
  t_action : Z;
  t_reward : Q;
  t_next_state : list Q;
  t_done : bool
}.

Record DQNAgent : Type := {
  state_size : Z;
  action_size : Z;
  learning_rate : Q;
  gamma : Q;
  epsilon : Q;
  epsilon_decay : Q;
  epsilon_min : Q;
  q_values : list Q;
  memory : list Transition;        (* deque(maxlen=2000) *)
  loss_history : list Q
}.

Definition memory_maxlen : nat := 2000.

Definition set_q_values (a : DQNAgent) (q : list Q) : DQNAgent :=
  {| state_size := state_size a; action_size := action_size a;
     learning_rate := learning_rate a; gamma := gamma a;
     epsilon := epsilon a; epsilon_decay := epsilon_decay a;
     epsilon_min := epsilon_min a; q_values := q;
     memory := memory a; loss_history := loss_history a |}.

Definition set_memory (a : DQNAgent) (m : list Transition) : DQNAgent :=
  {| state_size := state_size a; action_size := action_size a;
     learning_rate := learning_rate a; gamma := gamma a;
     epsilon := epsilon a; epsilon_decay := epsilon_decay a;
     epsilon_min := epsilon_min a; q_values := q_values a;
     memory := m; loss_history := loss_history a |}.

Definition set_loss_history (a : DQNAgent) (h : list Q) : DQNAgent :=
  {| state_size := state_size a; action_size := action_size a;
     learning_rate := learning_rate a; gamma := gamma a;
     epsilon := epsilon a; epsilon_decay := epsilon_decay a;
     epsilon_min := epsilon_min a; q_values := q_values a;
     memory := memory a; loss_history := h |}.

Definition set_epsilon (a : DQNAgent) (e : Q) : DQNAgent :=
  {| state_size := state_size a; action_size := action_size a;
     learning_rate := learning_rate a; gamma := gamma a;
     epsilon := e; epsilon_decay := epsilon_decay a;
     epsilon_min := epsilon_min a; q_values := q_values a;
     memory := memory a; loss_history := loss_history a |}.

(** The last two statements of [replay]:
    [if self.epsilon > self.epsilon_min: self.epsilon *= self.epsilon_decay]. *)
Definition decay_epsilon (a : DQNAgent) : DQNAgent :=
  if Qltb (epsilon_min a) (epsilon a)
  then set_epsilon a (epsilon a * epsilon_decay a)
  else a.

(** [q_values + np.sum(state) * 0.1]: the same bonus on every action. *)
Definition q_estimates (q : list Q) (state : list Q) : list Q :=
  map (fun v => v + np_sum state * 0.1) q.

(** The body of the [for] loop of [replay], over the sampled batch.  The
    agent it returns is the agent as mutated when the loop ended or raised. *)
Fixpoint replay_loop (a : DQNAgent) (batch : list Transition) (total_loss : Q)
  : outcome Q * DQNAgent :=
  match batch with
  | [] => (Ret total_loss, a)
  | t :: rest =>
      let target :=
        if t_done t then Ret (t_reward t)
        else match np_max (q_estimates (q_values a) (t_next_state t)) with
             | Ret next_q => Ret (t_reward t + gamma a * next_q)
             | Raise e => Raise e
             end in
      match target with
      | Raise e => (Raise e, a)
      | Ret target =>
          match np_index (List.length (q_values a)) (t_action t) with
          | Raise e => (Raise e, a)
          | Ret i =>
              let old_q := nth i (q_values a) 0 in
              let a' := set_q_values a
                          (list_set (q_values a) i
                             (old_q + learning_rate a * (target - old_q))) in
              let loss := Qabs (target - old_q) in
              replay_loop a' rest (total_loss + loss)
          end
      end
  end.

Section WithRuntime.

Variable rt : Runtime.

(** [DQNAgent(state_size, action_size, learning_rate)]. *)
Definition DQNAgent_init (ss asz : Z) (lr : Q) (g : Globals rt)
  : DQNAgent * Globals rt :=
  let (noise, np') := np_randn rt asz (np g) in
  ({| state_size := ss; action_size := asz; learning_rate := lr;
      gamma := 0.95; epsilon := 1.0; epsilon_decay := 0.995;
      epsilon_min := 0.01;
      q_values := map (fun x => x * 0.01) noise;
      memory := []; loss_history := [] |},
   Build_Globals np' (py g) (clk g)).

(** [remember]: append to the bounded deque, dropping the oldest entry
    when it is full. *)
Definition remember (a : DQNAgent) (t : Transition) : DQNAgent :=
  if (memory_maxlen <=? List.length (memory a))%nat
  then set_memory a (tl (memory a) ++ [t])
  else set_memory a (memory a ++ [t]).

(** [act]: the exploration test draws from numpy's generator, the random
    action from the [random] module's. *)
Definition act (a : DQNAgent) (state : list Q) (training : bool) (g : Globals rt)
  : outcome Z * Globals rt :=
  let greedy (g : Globals rt) := (np_argmax (q_estimates (q_values a) state), g) in
  if training then
    let (u, np') := np_random rt (np g) in
    let g := Build_Globals np' (py g) (clk g) in
    if Qltb u (epsilon a) then
      if (action_size a - 1 <? 0)%Z then (Raise ValueError, g)
      else
        let (i, py') := py_randint rt 0%Z (action_size a - 1)%Z (py g) in
        (Ret i, Build_Globals (np g) py' (clk g))
    else greedy g
  else greedy g.

(** [replay]. *)
Definition replay (a : DQNAgent) (batch_size : Z) (g : Globals rt)
  : outcome Q * DQNAgent * Globals rt :=
  if (Z.of_nat (List.length (memory a)) <? batch_size)%Z then (Ret 0.0, a, g)
  else if (batch_size <? 0)%Z then (Raise ValueError, a, g)
  else
    let (batch, py') := py_sample rt Transition (memory a) batch_size (py g) in
    let g := Build_Globals (np g) py' (clk g) in
    match replay_loop a batch 0.0 with
    | (Raise e, a) => (Raise e, a, g)
    | (Ret total_loss, a) =>
        if (batch_size =? 0)%Z then (Raise ZeroDivisionError, a, g)
        else
          let avg_loss := total_loss / inject_Z batch_size in
          let a := set_loss_history a (loss_history a ++ [avg_loss]) in
          let a := decay_epsilon a in
          (Ret avg_loss, a, g)
    end.

(** [n] calls of [replay(batch_size)] in a row on the same agent; the
    outcomes are listed first to last. *)
Fixpoint replays (n : nat) (a : DQNAgent) (batch_size : Z) (g : Globals rt)
  : list (outcome Q) * DQNAgent * Globals rt :=
  match n with
  | O => ([], a, g)
  | S k =>
      match replay a batch_size g with
      | (o, a', g') =>
          match replays k a' batch_size g' with
          | (os, a'', g'') => (o :: os, a'', g'')
          end
      end
  end.

End WithRuntime.

(** One entry of [RegionalAgent.ACTIONS]; an absent key is [None]. *)
Record ActionEffects : Type := {
  a_name : string;
  a_water : option Q;
  a_food : option Q;
  a_energy : option Q;
  a_growth : option Q;
  a_pop_growth : option Q;
  a_dev_increase : option Q;
  a_trade_intensity : option Q;
  a_conservation : option Q;
  a_passive : option bool
}.

Definition no_effects (nm : string) : ActionEffects :=
  {| a_name := nm; a_water := None; a_food := None; a_energy := None;
     a_growth := None; a_pop_growth := None; a_dev_increase := None;
     a_trade_intensity := None; a_conservation := None; a_passive := None |}.

Definition ACTIONS (i : Z) : option ActionEffects :=
  match i with
  | 0%Z => Some {| a_name := "Invest in Food";
                   a_water := Some (-50); a_food := Some 100; a_energy := Some (-20);
                   a_growth := None; a_pop_growth := None; a_dev_increase := None;
                   a_trade_intensity := None; a_conservation := None; a_passive := None |}
  | 1%Z => Some {| a_name := "Invest in Energy";
                   a_water := Some (-30); a_food := Some (-20); a_energy := Some 150;
                   a_growth := None; a_pop_growth := None; a_dev_increase := None;
                   a_trade_intensity := None; a_conservation := None; a_passive := None |}
  | 2%Z => Some {| a_name := "Invest in Water";
                   a_water := Some 200; a_food := Some (-50); a_energy := Some (-50);
                   a_growth := None; a_pop_growth := None; a_dev_increase := None;
                   a_trade_intensity := None; a_conservation := None; a_passive := None |}
  | 3%Z => Some {| a_name := "Increase Production";
                   a_water := None; a_food := None; a_energy := Some (-100);
                   a_growth := None; a_pop_growth := Some 0.05; a_dev_increase := None;
                   a_trade_intensity := None; a_conservation := None; a_passive := None |}
  | 4%Z => Some {| a_name := "Trade (Aggressive)";
                   a_water := None; a_food := None; a_energy := Some (-30);
                   a_growth := None; a_pop_growth := None; a_dev_increase := None;
                   a_trade_intensity := Some 0.8; a_conservation := None; a_passive := None |}
  | 5%Z => Some {| a_name := "Trade (Moderate)";
                   a_water := None; a_food := None; a_energy := Some (-15);
                   a_growth := None; a_pop_growth := None; a_dev_increase := None;
                   a_trade_intensity := Some 0.5; a_conservation := None; a_passive := None |}
  | 6%Z => Some {| a_name := "Conserve Resources";
                   a_water := None; a_food := None; a_energy := None;
                   a_growth := Some (-0.02); a_pop_growth := None; a_dev_increase := None;
                   a_trade_intensity := None; a_conservation := Some 0.3; a_passive := None |}
  | 7%Z => Some {| a_name := "Invest in Development";
                   a_water := None; a_food := None; a_energy := Some (-80);
                   a_growth := None; a_pop_growth := None; a_dev_increase := Some 0.05;
                   a_trade_intensity := None; a_conservation := None; a_passive := None |}
  | 8%Z => Some {| a_name := "Do Nothing";
                   a_water := None; a_food := None; a_energy := None;
                   a_growth := None; a_pop_growth := None; a_dev_increase := None;
                   a_trade_intensity := None; a_conservation := None; a_passive := Some true |}
  | _ => None
  end.

Record RegionalAgent : Type := {
  ra_region_id : string;
  dqn : DQNAgent;
  action_history : list Z;
  reward_history : list Q;
  episode_steps : Z
}.

Definition RegionalAgent_init (rid : string) (d : DQNAgent) : RegionalAgent :=
  {| ra_region_id := rid; dqn := d; action_history := [];
     reward_history := []; episode_steps := 0%Z |}.

Definition get_state_vector (s : StateDict) : list Q :=
  let resources := sd_resources s in
  let env_state :=
    [ d_water resources / 2000.0;
      d_food resources / 2000.0;
      d_energy resources / 2000.0;
      d_land resources / 1000.0;
      inject_Z (sd_population s) / 1000.0;
      sd_development_level s;
      sd_stability s;
      sd_temperature s / 50.0;
      sd_rainfall s / 200.0;
      sd_disaster_risk s;
      inject_Z (Z.of_nat (List.length (sd_trade_partners s))) / 10.0;
      sd_growth_rate s * 100 ] in
  map (fun x => np_clip x 0 1) env_state.

Definition calculate_reward (prev_resources curr_resources : ResourceDict)
    (stability : Q) (population : Z) : Q :=
  let resource_health :=
    ((d_water curr_resources / 2000.0) +
     (d_food curr_resources / 2000.0) +
     (d_energy curr_resources / 2000.0)) / 3.0 in
  let stability_reward := stability * 2 in
  let pop_reward := py_min (inject_Z population / 500.0) 1.0 * 0.5 in
  let starvation_penalty := 0 in
  let starvation_penalty :=
    if Qltb (d_food curr_resources) 100 then -5 else starvation_penalty in
  let starvation_penalty :=
    if Qltb (d_energy curr_resources) 100 then starvation_penalty - 3
    else starvation_penalty in
  let total_reward :=
    resource_health * 3 + stability_reward + pop_reward + starvation_penalty in
  np_clip total_reward (-10) 10.

Section WithRuntime.

Variable rt : Runtime.

Definition decide_action (a : RegionalAgent) (region_state : StateDict)
    (training : bool) (g : Globals rt) : outcome (Z * string) * Globals rt :=
  let state_vec := get_state_vector region_state in
  match act rt (dqn a) state_vec training g with
  | (Raise e, g) => (Raise e, g)
  | (Ret action_idx, g) =>
      match ACTIONS action_idx with
      | None => (Raise KeyError, g)
      | Some eff => (Ret (action_idx, a_name eff), g)
      end
  end.

Definition learn (a : RegionalAgent) (state : list Q) (action : Z) (reward : Q)
    (next_state : list Q) (done : bool) (g : Globals rt)
  : outcome Q * RegionalAgent * Globals rt :=
  let d := remember (dqn a)
             {| t_state := state; t_action := action; t_reward := reward;
                t_next_state := next_state; t_done := done |} in
  let rh := reward_history a ++ [reward] in
  let ah := action_history a ++ [action] in
  match replay rt d 32%Z g with
  | (loss, d, g) =>
      (loss,
       {| ra_region_id := ra_region_id a; dqn := d; action_history := ah;
          reward_history := rh; episode_steps := episode_steps a |},
       g)
  end.

End WithRuntime.

End RlAgent.
Import RlAgent.

(* ================================================================== *)
(** ** app/simulation/engine.py                                       *)
(* ================================================================== *)

Module Engine.

(** *** ClimaticEvent *)

(** A value of an [EVENT_TYPES] entry: a number or the description. *)
Inductive ev_value : Type :=
| VNum (x : Q)
| VStr (s : string).

Definition EVENT_TYPES : dict (dict ev_value) :=
  [ ("drought",  [("water", VNum (-500)); ("food", VNum (-300));
                  ("description", VStr "Severe Drought")]);
    ("flood",    [("water", VNum 200); ("food", VNum (-200)); ("land", VNum (-100));
                  ("description", VStr "Flooding")]);
    ("heatwave", [("energy", VNum (-200)); ("food", VNum (-150));
                  ("description", VStr "Heatwave")]);
    ("coldsnap", [("energy", VNum (-400)); ("food", VNum (-100));
                  ("description", VStr "Cold Snap")]);
    ("harvest",  [("food", VNum 300); ("description", VStr "Bountiful Harvest")]);
    ("plague",   [("population_loss", VNum 0.1);
                  ("description", VStr "Plague Outbreak")]) ].

Record ClimaticEvent : Type := {
  event_type : string;
  affected_regions : list string;
  severity : Q;
  timestamp : Z
}.

(** One iteration of the loop of [apply] over [event_data.items()].  The
    only string-valued key of the catalog, ["description"], is neither
    ["population_loss"] nor an attribute of [ResourcePool]: it is skipped. *)
Definition apply_item (ev : ClimaticEvent) (acc : RegionState * dict Q)
    (item : string * ev_value) : RegionState * dict Q :=
  let (region_state, effects) := acc in
  let (resource, v) := item in
  match v with
  | VStr _ => acc
  | VNum change =>
      if String.eqb resource "population_loss" then
        (set_population region_state
           (py_int (inject_Z (population region_state) * (1 - change * severity ev))),
         effects)
      else
        match pool_getattr (resources region_state) resource with
        | None => acc
        | Some current =>
            (set_resources region_state
               (pool_setattr (resources region_state) resource
                  (py_max 0 (current + change * severity ev))),
             dict_set effects resource (change * severity ev))
        end
  end.

(** [ClimaticEvent.apply]: the region as mutated, and the returned
    effects dictionary. *)
Definition apply (ev : ClimaticEvent) (region_state : RegionState)
  : RegionState * dict Q :=
  if negb (str_in (region_id region_state) (affected_regions ev)) then
    (region_state, [])
  else
    let event_data :=
      match dict_get EVENT_TYPES (event_type ev) with
      | Some d => d
      | None => []
      end in
    fold_left (apply_item ev) event_data (region_state, []).

(** *** TradeNetwork *)

Record TradeEvent : Type := {
  te_region_a : string;
  te_region_b : string;
  te_strength : Q;
  te_timestamp : Z
}.

(** [trade_graph] is a directed graph: every node with its successors and
    the weight of the edge to each, in insertion order. *)
Record TradeNetwork : Type := {
  trade_graph : dict (dict Q);
  trade_history : list TradeEvent
}.

Definition TradeNetwork_init : TradeNetwork :=
  {| trade_graph := []; trade_history := [] |}.

Definition graph_add_node (g : dict (dict Q)) (n : string) : dict (dict Q) :=
  match dict_get g n with
  | Some _ => g
  | None => g ++ [(n, [])]
  end.

Definition graph_add_edge (g : dict (dict Q)) (u v : string) (w : Q)
  : dict (dict Q) :=
  let g := graph_add_node (graph_add_node g u) v in
  match dict_get g u with
  | Some succ => dict_set g u (dict_set succ v w)
  | None => g
  end.

Definition add_region (tn : TradeNetwork) (rid : string) : TradeNetwork :=
  {| trade_graph := graph_add_node (trade_graph tn) rid;
     trade_history := trade_history tn |}.

Definition establish_trade (tn : TradeNetwork) (region_a region_b : string)
    (strength : Q) : TradeNetwork :=
  {| trade_graph :=
       graph_add_edge (graph_add_edge (trade_graph tn) region_a region_b strength)
         region_b region_a strength;
     trade_history := trade_history tn |}.

Definition get_trading_partners (tn : TradeNetwork) (rid : string) : dict Q :=
  match dict_get (trade_graph tn) rid with
  | Some succ => fold_left (fun partners nw => dict_set partners (fst nw) (snd nw)) succ []
  | None => []
  end.

(** The two region arguments of [execute_trade] are references to
    objects of the simulation's [regions] dictionary; a reference is the
    key, and an assignment to a field of the referenced object is an
    update of the store at that key. *)
Definition store_update (regions : dict RegionState) (ref : string)
    (f : RegionState -> RegionState) : dict RegionState :=
  match dict_get regions ref with
  | Some r => dict_set regions ref (f r)
  | None => regions
  end.

Definition set_food (v : Q -> Q) (r : RegionState) : RegionState :=
  set_resources r (pool_setattr (resources r) "food" (v (food (resources r)))).

Definition set_energy (v : Q -> Q) (r : RegionState) : RegionState :=
  set_resources r (pool_setattr (resources r) "energy" (v (energy (resources r)))).

(** The four assignments of [execute_trade], in the order of the source. *)
Definition execute_trade_regions (regions : dict RegionState)
    (region_a region_b : string) (trade_strength : Q) : dict RegionState :=
  let trade_amount := trade_strength * 50 in
  let regions := store_update regions region_a (set_food (fun x => x - trade_amount)) in
  let regions := store_update regions region_b (set_energy (fun x => x - trade_amount * 0.8)) in
  let regions := store_update regions region_b (set_energy (fun x => x + trade_amount * 0.9)) in
  store_update regions region_a (set_food (fun x => x + trade_amount * 0.8)).

(** [region_state.region_id] for the object behind a reference.  The
    caller obtains its references with [self.regions[...]], so they
    denote objects of the store; a key the store does not hold has no
    object, and is its own name. *)
Definition deref_region_id (regions : dict RegionState) (ref : string) : string :=
  match dict_get regions ref with
  | Some r => region_id r
  | None => ref
  end.

Section WithRuntime.

Variable rt : Runtime.

(** [execute_trade]: the store and the network as mutated; the returned
    pair of dictionaries is [({}, {})].  The log entry names the two
    regions by the [region_id] of the objects. *)
Definition execute_trade (tn : TradeNetwork) (regions : dict RegionState)
    (region_a region_b : string) (trade_strength : Q) (g : Globals rt)
  : TradeNetwork * dict RegionState * Globals rt :=
  let regions := execute_trade_regions regions region_a region_b trade_strength in
  let (t, clk') := now rt (clk g) in
  let trade_event :=
    {| te_region_a := deref_region_id regions region_a;
       te_region_b := deref_region_id regions region_b;
       te_strength := trade_strength; te_timestamp := t |} in
  ({| trade_graph := trade_graph tn;
      trade_history := trade_history tn ++ [trade_event] |},
   regions,
   Build_Globals (np g) (py g) clk').

End WithRuntime.

(** *** WorldSimulation *)

Record EventEntry : Type := {
  ee_type : string;
  ee_affected_regions : list string;
  ee_severity : Q
}.

Record ActionEntry : Type := {
  ae_region_id : string;
  ae_action : string;
  ae_reward : Q
}.

(** The dictionary [step] builds and returns ([cycle_data]). *)
Record CycleReport : Type := {
  cd_cycle : Z;
  cd_timestamp : Z;
  cd_regions : dict StateDict;
  cd_events : list EventEntry;
  cd_actions : list ActionEntry
}.

Record WorldSimulation : Type := {
  num_regions : Z;
  current_cycle : Z;
  regions : dict RegionState;
  agents : dict RegionalAgent;
  trade_network : TradeNetwork;
  event_history : list ClimaticEvent;
  cycle_history : list CycleReport
}.

Definition with_regions (w : WorldSimulation) (rs : dict RegionState) : WorldSimulation :=
  {| num_regions := num_regions w; current_cycle := current_cycle w;
     regions := rs; agents := agents w; trade_network := trade_network w;
     event_history := event_history w; cycle_history := cycle_history w |}.

Definition with_agents (w : WorldSimulation) (ags : dict RegionalAgent) : WorldSimulation :=
  {| num_regions := num_regions w; current_cycle := current_cycle w;
     regions := regions w; agents := ags; trade_network := trade_network w;
     event_history := event_history w; cycle_history := cycle_history w |}.

Definition with_trade_network (w : WorldSimulation) (tn : TradeNetwork) : WorldSimulation :=
  {| num_regions := num_regions w; current_cycle := current_cycle w;
     regions := regions w; agents := agents w; trade_network := tn;
     event_history := event_history w; cycle_history := cycle_history w |}.

Definition with_event_history (w : WorldSimulation) (h : list ClimaticEvent) : WorldSimulation :=
  {| num_regions := num_regions w; current_cycle := current_cycle w;
     regions := regions w; agents := agents w; trade_network := trade_network w;
     event_history := h; cycle_history := cycle_history w |}.

Definition with_cycle_history (w : WorldSimulation) (h : list CycleReport) : WorldSimulation :=
  {| num_regions := num_regions w; current_cycle := current_cycle w;
     regions := regions w; agents := agents w; trade_network := trade_network w;
     event_history := event_history w; cycle_history := h |}.

Definition with_current_cycle (w : WorldSimulation) (c : Z) : WorldSimulation :=
  {| num_regions := num_regions w; current_cycle := c;
     regions := regions w; agents := agents w; trade_network := trade_network w;
     event_history := event_history w; cycle_history := cycle_history w |}.

(** [_update_basic_resources]. *)
Definition _update_basic_resources (region : RegionState) : RegionState :=
  let water_generation := rainfall region * 5 in
  let region := set_resources region
                  (replenish (resources region) water_generation 0 0 0) in
  let food_production :=
    development_level region * inject_Z (population region) * 2 in
  let region := set_resources region
                  (replenish (resources region) 0 food_production 0 0) in
  let energy_consumption := inject_Z (population region * 5) in
  let region := set_resources region
                  (deplete (resources region) 0 0 energy_consumption 0) in
  if Qltb (inject_Z (population region * 8)) (food (resources region)) then
    set_population region
      (py_int (inject_Z (population region) * (1 + growth_rate region)))
  else if Qltb (food (resources region)) (inject_Z (population region * 3)) then
    set_population region (py_int (inject_Z (population region) * 0.98))
  else region.

(** The block "Apply action effects" of [step]. *)
Definition apply_action_effects (action_effects : ActionEffects)
    (region : RegionState) : RegionState :=
  let region :=
    match a_water action_effects with
    | Some x => set_resources region (deplete (resources region) (- x) 0 0 0)
    | None => region
    end in
  let region :=
    match a_food action_effects with
    | Some x => set_resources region (deplete (resources region) 0 (- x) 0 0)
    | None => region
    end in
  let region :=
    match a_energy action_effects with
    | Some x => set_resources region (deplete (resources region) 0 0 (- x) 0)
    | None => region
    end in
  let region :=
    match a_growth action_effects with
    | Some x => set_growth_rate region (growth_rate region + x)
    | None => region
    end in
  let region :=
    match a_pop_growth action_effects with
    | Some x => set_population region
                  (py_int (inject_Z (population region) * (1 + x)))
    | None => region
    end in
  match a_dev_increase action_effects with
  | Some x => set_development_level region
                (py_min 1.0 (development_level region + x))
  | None => region
  end.

(** [region.is_critical()] in [step]: [RegionState] defines
    [get_state_dict] only ([is_critical] is a method of [ResourcePool]),
    so the attribute lookup raises. *)
Definition RegionState_is_critical (region : RegionState) : outcome bool :=
  Raise (AttributeError "RegionState" "is_critical").

(** *** The simulation monad

    [step] and the constructor run over the simulation instance and the
    three process-wide sources; an exception leaves both as they were
    when it was raised. *)

Section Simulation.

Variable rt : Runtime.

Record Sim : Type := {
  world : WorldSimulation;
  glob : Globals rt
}.

Definition M (A : Type) : Type := Sim -> outcome A * Sim.

Definition ret {A : Type} (a : A) : M A := fun s => (Ret a, s).

Definition raise {A : Type} (e : exn) : M A := fun s => (Raise e, s).

Definition bind {A B : Type} (m : M A) (k : A -> M B) : M B :=
  fun s =>
    match m s with
    | (Ret a, s') => k a s'
    | (Raise e, s') => (Raise e, s')
    end.

Notation "x <- m ;; k" := (bind m (fun x => k))
  (at level 61, m at next level, right associativity).
Notation "' pat <- m ;; k" := (bind m (fun x => match x with pat => k end))
  (at level 61, pat pattern, m at next level, right associativity).
Notation "m ;; k" := (bind m (fun _ => k))
  (at level 61, right associativity).

Definition get_world : M WorldSimulation := fun s => (Ret (world s), s).

Definition modify_world (f : WorldSimulation -> WorldSimulation) : M unit :=
  fun s => (Ret tt, {| world := f (world s); glob := glob s |}).

Definition lift_outcome {A : Type} (o : outcome A) : M A := fun s => (o, s).

Definition with_globals {A : Type} (f : Globals rt -> outcome A * Globals rt) : M A :=
  fun s => let (o, g) := f (glob s) in (o, {| world := world s; glob := g |}).

(** A draw from numpy's global generator. *)
Definition draw_np {A : Type} (f : NpState rt -> A * NpState rt) : M A :=
  with_globals (fun g => let (a, np') := f (np g) in
                         (Ret a, Build_Globals np' (py g) (clk g))).

(** [datetime.now()]. *)
Definition datetime_now : M Z :=
  with_globals (fun g => let (t, clk') := now rt (clk g) in
                         (Ret t, Build_Globals (np g) (py g) clk')).

(** [d[k]] on a dictionary: [KeyError] when the key is absent. *)
Definition lookup {V : Type} (d : dict V) (k : string) : M V :=
  match dict_get d k with
  | Some v => ret v
  | None => raise KeyError
  end.

Fixpoint for_each {A : Type} (xs : list A) (body : A -> M unit) : M unit :=
  match xs with
  | [] => ret tt
  | x :: rest => body x ;; for_each rest body
  end.

Fixpoint fold_M {A B : Type} (xs : list A) (acc : B) (body : B -> A -> M B) : M B :=
  match xs with
  | [] => ret acc
  | x :: rest => acc' <- body acc x ;; fold_M rest acc' body
  end.

(** In-place mutation of the region object stored under [rid]. *)
Definition modify_region (rid : string) (f : RegionState -> RegionState) : M unit :=
  modify_world (fun w => with_regions w (store_update (regions w) rid f)).

(** *** Construction *)

Definition region_names : list string :=
  [ "Northern Plains"; "Forest Kingdom"; "Coastal Republic";
    "Desert Alliance"; "Mountain Federation"; "Valley States" ].

(** The body of the loop of [_initialize_world] for index [i]. *)
Definition _initialize_region (i : nat) : M unit :=
  let region_id := String.append "region_" (str_of_nat i) in
  let region_name :=
    if (i <? List.length region_names)%nat then nth i region_names ""
    else String.append "Region " (str_of_nat i) in
  w0 <- draw_np (np_uniform rt 800 1200) ;;
  f0 <- draw_np (np_uniform rt 800 1200) ;;
  e0 <- draw_np (np_uniform rt 800 1200) ;;
  pop <- draw_np (np_randint rt 80 120) ;;
  dev <- draw_np (np_uniform rt 0.3 0.7) ;;
  temp <- draw_np (np_uniform rt 15 25) ;;
  rain <- draw_np (np_uniform rt 80 150) ;;
  let region := RegionState_new region_id region_name
                  (ResourcePool_new w0 f0 e0 1000) pop dev temp rain in
  modify_world (fun w => with_regions w (dict_set (regions w) region_id region)) ;;
  d <- with_globals (fun g => let (d, g') := DQNAgent_init rt 12 9 0.01 g in (Ret d, g')) ;;
  let agent := RegionalAgent_init region_id d in
  modify_world (fun w => with_agents w (dict_set (agents w) region_id agent)) ;;
  modify_world (fun w => with_trade_network w (add_region (trade_network w) region_id)).

Definition _establish_initial_trades : M unit :=
  w <- get_world ;;
  let regions_list := dict_keys (regions w) in
  let n := List.length regions_list in
  for_each (combine (seq 0 n) regions_list) (fun '(i, region_a) =>
    for_each (seq (i + 1) (Nat.min (i + 3) n - (i + 1))) (fun j =>
      let region_b := nth j regions_list "" in
      u <- draw_np (np_random rt) ;;
      if Qltb 0.3 u then
        strength <- draw_np (np_uniform rt 0.3 0.8) ;;
        modify_world (fun w =>
          with_trade_network w
            (establish_trade (trade_network w) region_a region_b strength))
      else ret tt)).

Definition _initialize_world : M unit :=
  w <- get_world ;;
  for_each (seq 0 (Z.to_nat (num_regions w))) _initialize_region ;;
  _establish_initial_trades.

(** [WorldSimulation(num_regions, seed)].  [np.random.seed] accepts
    seeds in [[0, 2**32 - 1]] and re-positions numpy's generator; the
    [random] module's generator and the clock are left where they are. *)
Definition WorldSimulation_init (n seed : Z) (g : Globals rt)
  : outcome WorldSimulation * Globals rt :=
  if (seed <? 0)%Z || (2 ^ 32 <=? seed)%Z then (Raise ValueError, g)
  else
    let g := Build_Globals (np_seed rt seed) (py g) (clk g) in
    let w := {| num_regions := n; current_cycle := 0%Z; regions := [];
                agents := []; trade_network := TradeNetwork_init;
                event_history := []; cycle_history := [] |} in
    match _initialize_world {| world := w; glob := g |} with
    | (Ret _, s) => (Ret (world s), glob s)
    | (Raise e, s) => (Raise e, glob s)
    end.

(** *** One cycle *)

(** Python's [max] on two integers. *)
Definition py_max_int (a b : Z) : Z := if (a <? b)%Z then b else a.

Definition _generate_climatic_event : M (option ClimaticEvent) :=
  u <- draw_np (np_random rt) ;;
  if Qltb 0.15 u then ret None
  else
    w <- get_world ;;
    let event_types := dict_keys EVENT_TYPES in
    event_type <- draw_np (np_choice rt event_types) ;;
    num_affected <- draw_np (np_randint rt 1 (py_max_int 2 (num_regions w / 2)%Z)) ;;
    let population := dict_keys (regions w) in
    (if (num_affected <? 0)%Z
        || (Z.of_nat (List.length population) <? num_affected)%Z
     then raise ValueError else ret tt) ;;
    affected <- draw_np (np_choice_k rt population num_affected) ;;
    sev <- draw_np (np_uniform rt 0.5 1.5) ;;
    t <- datetime_now ;;
    ret (Some {| event_type := event_type; affected_regions := affected;
                 severity := sev; timestamp := t |}).

(** The body of the loop "Agent decision making and resource allocation"
    of [step] for the region stored under [rid]. *)
Definition agent_turn (cycle_data : CycleReport) (rid : string) : M CycleReport :=
  w <- get_world ;;
  region <- lookup (regions w) rid ;;
  agent <- lookup (agents w) rid ;;
  let state_before := get_as_dict (resources region) in
  '(action_idx, action_name) <-
     with_globals (decide_action rt agent (get_state_dict region) true) ;;
  action_effects <- match ACTIONS action_idx with
                    | Some eff => ret eff
                    | None => raise KeyError
                    end ;;
  modify_region rid (apply_action_effects action_effects) ;;
  w <- get_world ;;
  region <- lookup (regions w) rid ;;
  let state_after := get_as_dict (resources region) in
  let reward := calculate_reward state_before state_after
                  (stability region) (population region) in
  let state_vec := get_state_vector (get_state_dict region) in
  let next_state_vec := get_state_vector (get_state_dict region) in
  done <- lift_outcome (RegionState_is_critical region) ;;
  loss <- (fun s =>
             match learn rt agent state_vec action_idx reward next_state_vec done (glob s) with
             | (o, agent', g') =>
                 (o, {| world := with_agents (world s) (dict_set (agents (world s)) rid agent');
                        glob := g' |})
             end) ;;
  ret {| cd_cycle := cd_cycle cycle_data;
         cd_timestamp := cd_timestamp cycle_data;
         cd_regions := dict_set (cd_regions cycle_data) rid (get_state_dict region);
         cd_events := cd_events cycle_data;
         cd_actions := cd_actions cycle_data ++
                       [{| ae_region_id := rid; ae_action := action_name;
                           ae_reward := reward |}] |}.

(** The loop "Execute trades" of [step]. *)
Definition execute_trades : M unit :=
  w <- get_world ;;
  let pairs := map (fun rid => (rid, get_trading_partners (trade_network w) rid))
                   (dict_keys (regions w)) in
  for_each pairs (fun '(region_a_id, partners) =>
    for_each partners (fun '(region_b_id, strength) =>
      if String.ltb region_a_id region_b_id then
        u <- draw_np (np_random rt) ;;
        if Qltb 0.5 u then
          w <- get_world ;;
          _ <- lookup (regions w) region_a_id ;;
          _ <- lookup (regions w) region_b_id ;;
          (fun s =>
             match execute_trade rt (trade_network (world s)) (regions (world s))
                     region_a_id region_b_id strength (glob s) with
             | (tn, rs, g') =>
                 (Ret tt, {| world := with_regions (with_trade_network (world s) tn) rs;
                             glob := g' |})
             end)
        else ret tt
      else ret tt)).

(** [WorldSimulation.step]. *)
Definition step : M CycleReport :=
  w <- get_world ;;
  t <- datetime_now ;;
  let cycle_data := {| cd_cycle := current_cycle w; cd_timestamp := t;
                       cd_regions := []; cd_events := []; cd_actions := [] |} in
  for_each (dict_keys (regions w)) (fun rid =>
    modify_region rid _update_basic_resources) ;;
  event <- _generate_climatic_event ;;
  cycle_data <-
    match event with
    | Some ev =>
        modify_world (fun w => with_event_history w (event_history w ++ [ev])) ;;
        for_each (dict_keys (regions w)) (fun rid =>
          modify_region rid (fun r => fst (apply ev r))) ;;
        ret {| cd_cycle := cd_cycle cycle_data;
               cd_timestamp := cd_timestamp cycle_data;
               cd_regions := cd_regions cycle_data;
               cd_events := cd_events cycle_data ++
                            [{| ee_type := event_type ev;
                                ee_affected_regions := affected_regions ev;
                                ee_severity := severity ev |}];
               cd_actions := cd_actions cycle_data |}
    | None => ret cycle_data
    end ;;
  cycle_data <- fold_M (dict_keys (regions w)) cycle_data agent_turn ;;
  execute_trades ;;
  modify_world (fun w => with_cycle_history w (cycle_history w ++ [cycle_data])) ;;
  modify_world (fun w => with_current_cycle w (current_cycle w + 1)%Z) ;;
  ret cycle_data.

(** [n] calls of [step] in a row, each exception caught by the caller
    (as the request handler does); the outcomes are listed first to
    last. *)
Fixpoint steps (n : nat) (s : Sim) : list (outcome CycleReport) * Sim :=
  match n with
  | O => ([], s)
  | S k =>
      let (o, s') := step s in
      let (os, s'') := steps k s' in
      (o :: os, s'')
  end.

End Simulation.

Arguments world {rt} s.
Arguments glob {rt} s.
Arguments Build_Sim {rt} world glob.

End Engine.
Import Engine.

(* ================================================================== *)
(** ** The specification's formulas                                   *)
(* ================================================================== *)

(** The reward as the specification words it (section 4.4): the mean of
    water, food and energy each divided by 2000; a starvation penalty of
    -5 if food < 100 and an additional -3 if energy < 100; the weighted
    total clamped to [[-10, 10]]. *)
Definition resource_health_spec (w f e : Q) : Q :=
  (w / 2000 + f / 2000 + e / 2000) / 3.

Definition starvation_penalty_spec (f e : Q) : Q :=
  (if Qltb f 100 then -5 else 0) + (if Qltb e 100 then -3 else 0).

Definition reward_spec (w f e stability : Q) (population : Z) : Q :=
  Qmin (Qmax (resource_health_spec w f e * 3 + stability * 2
              + Qmin (inject_Z population / 500) 1 * 0.5
              + starvation_penalty_spec f e)
             (-10))
       10.

(* ================================================================== *)
(** ** A scripted runtime                                             *)
(* ================================================================== *)

(** A concrete instance of [Runtime] on which the program can be run:
    each generator reads its draws from a tape.  A numpy draw [u] from
    the tape is a point of [[0, 1)] and is scaled to the requested range;
    a [random] draw is an integer reduced into the requested range;
    choices and samples take the leading elements; the clock ticks by
    one at each reading. *)
Module Script.

(** A numpy draw is a point of [[0, 1)]. *)
Definition unit_interval (u : Q) : Q :=
  if Qltb u 0 then 0 else if Qltb u 1 then u else 0.5.

Definition pop_Q (tape : list Q) : Q * list Q :=
  match tape with
  | [] => (0.5, [])
  | u :: rest => (unit_interval u, rest)
  end.

Definition pop_Z (tape : list Z) : Z * list Z :=
  match tape with
  | [] => (0%Z, [])
  | x :: rest => (x, rest)
  end.

(** A tape for a one-region world: seven draws of the constructor, two
    draws for each of 67 cycles without an event (the event test, the
    exploration test), then a cycle with an event (the event test at 0.1,
    the choice of the sixth event type, one affected region, severity
    0.5 + 0.5). *)
Definition conserve_then_plague_tape : list Q :=
  repeat 0.5 7 ++ repeat 0.5 (2 * 67) ++ [0.1; 0.9; 0.0; 0.5].

(** The tape numpy's generator is positioned on by [np.random.seed]. *)
Definition tape_of_seed (seed : Z) : list Q :=
  if (seed =? 7)%Z then conserve_then_plague_tape
  else map (fun k => inject_Z ((seed + Z.of_nat k) mod 7) / 8) (seq 0 4).

Definition runtime : Runtime :=
  {| NpState := list Q;
     PyState := list Z;
     Clock := Z;
     np_seed := tape_of_seed;
     np_random := pop_Q;
     np_uniform := fun lo hi tape =>
       let (u, rest) := pop_Q tape in (lo + u * (hi - lo), rest);
     np_randint := fun lo hi tape =>
       let (u, rest) := pop_Q tape in
       ((lo + py_int (u * inject_Z (hi - lo)))%Z, rest);
     np_randn := fun n tape => (repeat 0 (Z.to_nat n), tape);
     np_choice := fun xs tape =>
       let (u, rest) := pop_Q tape in
       (nth (Z.to_nat (py_int (u * inject_Z (Z.of_nat (List.length xs))))) xs "", rest);
     np_choice_k := fun xs k tape => (firstn (Z.to_nat k) xs, tape);
     py_randint := fun lo hi tape =>
       let (x, rest) := pop_Z tape in ((lo + x mod (hi - lo + 1))%Z, rest);
     py_sample := fun A xs k tape => (firstn (Z.to_nat k) xs, tape);
     now := fun c => (c, (c + 1)%Z) |}.

(** The sources at process start: numpy's generator on [np_tape], the
    [random] module's on [py_tape], the clock reading [t]. *)
Definition globals (np_tape : list Q) (py_tape : list Z) (t : Z) : Globals runtime :=
  @Build_Globals runtime np_tape py_tape t.

End Script.

(* ================================================================== *)
(** ** Predicates and concrete scenarios                              *)
(* ================================================================== *)

(** [0 <= stock <= max_stock] for the four stocks. *)
Definition in_range (p : ResourcePool) : bool :=
  Qle_bool 0 (water p) && Qle_bool (water p) (max_water p) &&
  Qle_bool 0 (food p) && Qle_bool (food p) (max_food p) &&
  Qle_bool 0 (energy p) && Qle_bool (energy p) (max_energy p) &&
  Qle_bool 0 (land p) && Qle_bool (land p) (max_land p).

(** What the loop of [replay] leaves alone: everything but the action
    values, whose number it keeps. *)
Definition same_but_q_values (a a' : DQNAgent) : Prop :=
  state_size a' = state_size a /\ action_size a' = action_size a /\
  learning_rate a' = learning_rate a /\ gamma a' = gamma a /\
  epsilon a' = epsilon a /\ epsilon_decay a' = epsilon_decay a /\
  epsilon_min a' = epsilon_min a /\ memory a' = memory a /\
  loss_history a' = loss_history a /\
  List.length (q_values a') = List.length (q_values a).

(** The exploration rate after a [replay] that ran its update: the
    guarded multiplication of the last two statements. *)
Definition decayed (eps_min decay eps : Q) : Q :=
  if Qltb eps_min eps then eps * decay else eps.

(** A computation keeps the cycle counter and the cycle history. *)
Definition keeps_cycle {rt : Runtime} {A : Type} (m : M rt A) : Prop :=
  forall s o s',
    m s = (o, s') ->
    current_cycle (world s') = current_cycle (world s) /\
    cycle_history (world s') = cycle_history (world s).

(** A computation raises from every state, keeping both. *)
Definition raises_keeping_cycle {rt : Runtime} {A : Type} (m : M rt A) : Prop :=
  forall s, exists e s',
    m s = (Raise e, s') /\
    current_cycle (world s') = current_cycle (world s) /\
    cycle_history (world s') = cycle_history (world s).

(** The region with id [rid] has a non-negative population and a growth
    rate of at least [b]; a world in which every region object carrying
    that id has. *)
Definition region_ok (rid : string) (b : Q) (r : RegionState) : Prop :=
  region_id r = rid -> (0 <= population r)%Z /\ b <= growth_rate r.

Definition regions_ok (rid : string) (b : Q) (w : WorldSimulation) : Prop :=
  Forall (fun kv => region_ok rid b (snd kv)) (regions w).

(** The two halves of [regions_ok], on their own. *)
Definition population_nonneg (rid : string) (w : WorldSimulation) : Prop :=
  Forall (fun kv => region_id (snd kv) = rid -> (0 <= population (snd kv))%Z)
         (regions w).

Definition growth_rate_at_least (rid : string) (b : Q) (w : WorldSimulation) : Prop :=
  Forall (fun kv => region_id (snd kv) = rid -> b <= growth_rate (snd kv))
         (regions w).

(** From a world satisfying [P], the computation [m] returns [a] in a
    world satisfying [Q a], or raises in a world satisfying [E]. *)
Definition triple {rt : Runtime} {A : Type} (P : WorldSimulation -> Prop)
    (m : M rt A) (Q : A -> WorldSimulation -> Prop) (E : WorldSimulation -> Prop)
  : Prop :=
  forall s, P (world s) ->
    match m s with
    | (Ret a, s') => Q a (world s')
    | (Raise _, s') => E (world s')
    end.

(** [np.random.uniform(lo, hi)] returns a point between [lo] and [hi]. *)
Definition np_uniform_in_range (rt : Runtime) : Prop :=
  forall lo hi st, lo <= hi -> lo <= fst (np_uniform rt lo hi st) <= hi.

(** A learner that has remembered one terminal transition, replayed with
    [batch_size = 1] on the scripted runtime. *)
Definition one_transition : Transition :=
  {| t_state := repeat 0.5 12; t_action := 0%Z; t_reward := 1;
     t_next_state := repeat 0.5 12; t_done := true |}.

Definition trained_once : DQNAgent :=
  remember (fst (DQNAgent_init Script.runtime 12 9 0.01 (Script.globals [] [] 0)))
           one_transition.

Definition replay_ready (a : DQNAgent) : Prop :=
  memory a = [one_transition] /\ List.length (q_values a) = 9%nat /\
  epsilon_min a = 0.01 /\ epsilon_decay a = 0.995.

(** Concrete regions and events for the cases below. *)
Definition full_region : RegionState :=
  RegionState_new "region_1" "Forest Kingdom"
    (ResourcePool_new 2000 2000 2000 1000) 100 0.5 20 100.

Definition hungry_region : RegionState :=
  RegionState_new "region_0" "Northern Plains"
    (ResourcePool_new 1000 0 1000 1000) 100 0.5 20 100.

Definition flood : ClimaticEvent :=
  {| event_type := "flood"; affected_regions := ["region_1"];
     severity := 1; timestamp := 0 |}.

Definition harvest : ClimaticEvent :=
  {| event_type := "harvest"; affected_regions := ["region_1"];
     severity := 1; timestamp := 0 |}.

Definition two_regions : dict RegionState :=
  [("region_0", hungry_region); ("region_1", full_region)].

Definition region_resources (regions : dict RegionState) (rid : string)
  : option ResourcePool :=
  option_map resources (dict_get regions rid).

(** The simulation [WorldSimulation(num_regions=n, seed=seed)] builds on
    the scripted runtime from the sources [g].  (The [Raise] branch is
    for seeds [np.random.seed] refuses.) *)
Definition construct (n seed : Z) (g : Globals Script.runtime) : Sim Script.runtime :=
  match WorldSimulation_init Script.runtime n seed g with
  | (Ret w, g') => Build_Sim w g'
  | (Raise _, g') =>
      Build_Sim {| num_regions := n; current_cycle := 0%Z; regions := [];
                   agents := []; trade_network := TradeNetwork_init;
                   event_history := []; cycle_history := [] |} g'
  end.

(** [WorldSimulation(num_regions=1, seed=42)] at process start, with the
    [random] module's generator on [py_tape]. *)
Definition one_region_sim (py_tape : list Z) : Sim Script.runtime :=
  construct 1 42 (Script.globals [] py_tape 0).

(** The region of a one-region world. *)
Definition region_0 (s : Sim Script.runtime) : option RegionState :=
  dict_get (regions (world s)) "region_0".

(** [WorldSimulation(num_regions=2, seed=42)] on the scripted runtime.
    The agent of [region_0] draws "Conserve Resources" (6) in each of
    its first 100 turns; the turn of [region_1] is never reached. *)
Definition two_region_sim : Sim Script.runtime :=
  construct 2 42 (Script.globals [] (repeat 6%Z 100) 0).

(** [WorldSimulation(num_regions=1, seed=7)] on the scripted runtime,
    with an agent whose random actions are 15 times "Increase
    Production" (3), 52 times "Conserve Resources" (6), then "Do
    Nothing" (8). *)
Definition conserving_sim : Sim Script.runtime :=
  construct 1 7
    (Script.globals [] (repeat 3%Z 15 ++ repeat 6%Z 52 ++ [8; 8]%Z) 0).

(* ================================================================== *)
(** ** engine.py: the read-only queries; api/routes.py: two endpoints *)
(* ================================================================== *)

Module Queries.

(** The slice [xs[start:]]: a negative [start] counts from the end, and
    the result is clipped to the list. *)
Definition py_slice_from {A : Type} (xs : list A) (start : Z) : list A :=
  let len := Z.of_nat (List.length xs) in
  let i := if (start <? 0)%Z then (start + len)%Z else start in
  let i := if (i <? 0)%Z then 0%Z else if (len <? i)%Z then len else i in
  skipn (Z.to_nat i) xs.

(** [np.mean] of a list of numbers; [None] stands for the NaN numpy
    returns (with a warning, not an exception) on an empty list. *)
Definition np_mean (xs : list Q) : option Q :=
  match xs with
  | [] => None
  | _ => Some (np_sum xs / inject_Z (Z.of_nat (List.length xs)))
  end.

(** [sum(1 for region in regions if region.is_critical())]. *)
Fixpoint count_critical (rs : list RegionState) : outcome Z :=
  match rs with
  | [] => Ret 0%Z
  | r :: rest =>
      match RegionState_is_critical r with
      | Raise e => Raise e
      | Ret b =>
          match count_critical rest with
          | Raise e => Raise e
          | Ret c => Ret ((if b then 1 else 0) + c)%Z
          end
      end
  end.

(** [number_of_edges] of the trade graph. *)
Definition number_of_edges (g : dict (dict Q)) : Z :=
  Z.of_nat (List.length (flat_map (fun us => snd us) g)).

(** One element of [get_world_state()['events']]. *)
Record EventRecord : Type := {
  er_type : string;
  er_affected_regions : list string;
  er_severity : Q;
  er_timestamp : Z
}.

Definition event_record (ev : ClimaticEvent) : EventRecord :=
  {| er_type := event_type ev; er_affected_regions := affected_regions ev;
     er_severity := severity ev; er_timestamp := timestamp ev |}.

Record WorldState : Type := {
  ws_cycle : Z;
  ws_regions : dict StateDict;
  ws_edges : list (string * string * Q);
  ws_events : list EventRecord
}.

(** [WorldSimulation.get_world_state]. *)
Definition get_world_state (w : WorldSimulation) : WorldState :=
  {| ws_cycle := current_cycle w;
     ws_regions := map (fun kv => (fst kv, get_state_dict (snd kv))) (regions w);
     ws_edges := flat_map (fun us => map (fun vw => (fst us, fst vw, snd vw)) (snd us))
                          (trade_graph (trade_network w));
     ws_events := map event_record (py_slice_from (event_history w) (-10)) |}.

Record Statistics : Type := {
  st_cycle : Z;
  st_total_population : Z;
  st_avg_stability : option Q;
  st_avg_development : option Q;
  st_collapsed_regions : Z;
  st_active_regions : Z;
  st_trade_connections : Z;
  st_avg_learning_steps : option Q
}.

(** [WorldSimulation.get_statistics]. *)
Definition get_statistics (w : WorldSimulation) : outcome Statistics :=
  let rs := map snd (regions w) in
  let total_population := fold_left Z.add (map population rs) 0%Z in
  let avg_stability := np_mean (map stability rs) in
  let avg_dev := np_mean (map development_level rs) in
  match count_critical rs with
  | Raise e => Raise e
  | Ret collapsed =>
      let avg_learning :=
        np_mean (map (fun ka => inject_Z (Z.of_nat (List.length (reward_history (snd ka)))))
                     (agents w)) in
      Ret {| st_cycle := current_cycle w;
             st_total_population := total_population;
             st_avg_stability := avg_stability;
             st_avg_development := avg_dev;
             st_collapsed_regions := collapsed;
             st_active_regions := (num_regions w - collapsed)%Z;
             st_trade_connections := number_of_edges (trade_graph (trade_network w));
             st_avg_learning_steps := avg_learning |}
  end.

(** The answer of an endpoint: a body, an [HTTPException] raised by the
    handler, or the answer with status 422 that FastAPI gives, without
    calling the handler, to a request whose query parameter fails its
    declared constraint. *)
Inductive response (A : Type) : Type :=
| Ok (body : A)
| HTTPException (status_code : Z) (detail : string)
| RequestValidationError.
Arguments Ok {A} body.
Arguments HTTPException {A} status_code detail.
Arguments RequestValidationError {A}.

Definition status_code_of {A : Type} (r : response A) : Z :=
  match r with
  | Ok _ => 200
  | HTTPException status_code _ => status_code
  | RequestValidationError => 422
  end.

(** [limit: int = Query(default, le=bound)] for a request that carries
    the integer [given] as [limit], or no [limit] at all: the value the
    handler receives, or [None] when the request is refused. *)
Definition Query (default le : Z) (given : option Z) : option Z :=
  match given with
  | None => Some default
  | Some v => if (le <? v)%Z then None else Some v
  end.

(** [GET /simulation/history]: the last [limit] cycle reports and the
    number of all of them.  [simulation] is the module's global. *)
Definition get_cycle_history (simulation : option WorldSimulation) (limit : option Z)
  : response (list CycleReport * Z) :=
  match Query 50 500 limit with
  | None => RequestValidationError
  | Some limit =>
      match simulation with
      | None => HTTPException 500 "Simulation not initialized"
      | Some sim =>
          Ok (py_slice_from (cycle_history sim) (- limit),
              Z.of_nat (List.length (cycle_history sim)))
      end
  end.

(** [GET /events]: the count and the records of the last [limit] events. *)
Definition get_events (simulation : option WorldSimulation) (limit : option Z)
  : response (Z * list EventRecord) :=
  match Query 50 1000 limit with
  | None => RequestValidationError
  | Some limit =>
      match simulation with
      | None => HTTPException 500 "Simulation not initialized"
      | Some sim =>
          let events := py_slice_from (event_history sim) (- limit) in
          Ok (Z.of_nat (List.length events), map event_record events)
      end
  end.

End Queries.
Import Queries.

(* ================================================================== *)
(** ** Further predicates                                             *)
(* ================================================================== *)

(** One call on a ledger: [deplete(...)] or [replenish(...)] with the
    four amounts. *)
Inductive ledger_op : Type :=
| Deplete (w f e l : Q)
| Replenish (w f e l : Q).

Definition amounts_nonneg (op : ledger_op) : Prop :=
  match op with
  | Deplete w f e l | Replenish w f e l => 0 <= w /\ 0 <= f /\ 0 <= e /\ 0 <= l
  end.

Definition run_op (p : ResourcePool) (op : ledger_op) : ResourcePool :=
  match op with
  | Deplete w f e l => deplete p w f e l
  | Replenish w f e l => replenish p w f e l
  end.

(** A sequence of calls, first to last. *)
Definition run_ops (p : ResourcePool) (ops : list ledger_op) : ResourcePool :=
  fold_left run_op ops p.

(** No stock is negative. *)
Definition stocks_nonneg (p : ResourcePool) : Prop :=
  0 <= water p /\ 0 <= food p /\ 0 <= energy p /\ 0 <= land p.

(** [remember] called on each transition of [ts], first to last. *)
Definition remember_all (a : DQNAgent) (ts : list Transition) : DQNAgent :=
  fold_left remember ts a.

(** Two region records that differ at most in the ledger's stocks and in
    the population: identity, caps, development, growth rate, stability,
    trade partners and environment are the same. *)
Definition same_but_stocks_and_population (r r' : RegionState) : Prop :=
  region_id r' = region_id r /\ name r' = name r /\
  max_water (resources r') = max_water (resources r) /\
  max_food (resources r') = max_food (resources r) /\
  max_energy (resources r') = max_energy (resources r) /\
  max_land (resources r') = max_land (resources r) /\
  development_level r' = development_level r /\
  growth_rate r' = growth_rate r /\ stability r' = stability r /\
  trade_partners r' = trade_partners r /\ temperature r' = temperature r /\
  rainfall r' = rainfall r /\ disaster_risk r' = disaster_risk r.

(** The successors of a node of the trade graph with their weights
    (none for a node the graph does not have). *)
Definition successors (g : dict (dict Q)) (u : string) : dict Q :=
  match dict_get g u with
  | Some succ => succ
  | None => []
  end.

(** No node lists a successor twice (networkx keeps the successors of a
    node in a dictionary). *)
Definition successors_wf (g : dict (dict Q)) : Prop :=
  forall u, NoDup (dict_keys (successors g u)).

(** Every region of the world satisfies [Pr]. *)
Definition all_regions (Pr : RegionState -> Prop) (w : WorldSimulation) : Prop :=
  Forall (fun kv => Pr (snd kv)) (regions w).

(** A world with the given region keys, agents, trade network and region
    count, all of whose regions satisfy [Pr]. *)
Definition step_frame (Pr : RegionState -> Prop) (ks : list string)
    (ags : dict RegionalAgent) (tn : TradeNetwork) (n : Z)
    (w : WorldSimulation) : Prop :=
  dict_keys (regions w) = ks /\ agents w = ags /\ trade_network w = tn /\
  num_regions w = n /\ all_regions Pr w.

(** A property of regions that the three mutations of a cycle keep. *)
Definition kept_by_a_cycle (Pr : RegionState -> Prop) : Prop :=
  (forall r, Pr r -> Pr (_update_basic_resources r)) /\
  (forall ev r, Pr r -> Pr (fst (apply ev r))) /\
  (forall eff r, Pr r -> Pr (apply_action_effects eff r)).

(** The fields of a region that no part of a cycle assigns. *)
Definition static_fields (r : RegionState)
  : string * string * Q * dict Q * Q * Q * Q * (Q * Q * Q * Q) :=
  (region_id r, name r, stability r, trade_partners r, temperature r,
   rainfall r, disaster_risk r,
   (max_water (resources r), max_food (resources r),
    max_energy (resources r), max_land (resources r))).

(** The key of the [i]-th region, [f"region_{i}"]. *)
Definition region_key (i : nat) : string :=
  String.append "region_" (str_of_nat i).

(** A region as the constructor leaves it, stored under [key]: its id is
    the key, the fields the constructor does not pass have their
    defaults, the caps are the default caps, land is 1000 and no stock
    exceeds its cap. *)
Definition fresh_region (key : string) (r : RegionState) : Prop :=
  region_id r = key /\
  growth_rate r = 0.02 /\ stability r = 0.8 /\ trade_partners r = [] /\
  disaster_risk r = 0.05 /\
  max_water (resources r) = 2000 /\ max_food (resources r) = 2000 /\
  max_energy (resources r) = 2000 /\ max_land (resources r) = 1000 /\
  water (resources r) <= 2000 /\ food (resources r) <= 2000 /\
  energy (resources r) <= 2000 /\ land (resources r) = 1000.

(** An agent as the constructor leaves it, stored under [key]. *)
Definition fresh_agent (key : string) (a : RegionalAgent) : Prop :=
  ra_region_id a = key /\ action_history a = [] /\ reward_history a = [] /\
  state_size (dqn a) = 12%Z /\ action_size (dqn a) = 9%Z /\
  learning_rate (dqn a) = 0.01 /\ gamma (dqn a) = 0.95 /\
  epsilon (dqn a) = 1.0 /\ epsilon_decay (dqn a) = 0.995 /\
  epsilon_min (dqn a) = 0.01 /\ memory (dqn a) = [] /\ loss_history (dqn a) = [].

(** A world under construction with [nr] regions and [na] agents built. *)
Definition built (n : Z) (nr na : nat) (w : WorldSimulation) : Prop :=
  num_regions w = n /\ current_cycle w = 0%Z /\
  event_history w = [] /\ cycle_history w = [] /\
  trade_history (trade_network w) = [] /\
  successors_wf (trade_graph (trade_network w)) /\
  dict_keys (regions w) = map region_key (seq 0 nr) /\
  dict_keys (agents w) = map region_key (seq 0 na) /\
  Forall (fun kv => fresh_region (fst kv) (snd kv)) (regions w) /\
  Forall (fun kv => fresh_agent (fst kv) (snd kv)) (agents w).

(** A computation that reads and advances numpy's generator only: the
    [random] module's generator and the clock are neither read nor
    moved. *)
Definition np_only {rt : Runtime} {A : Type} (m : M rt A) : Prop :=
  forall (w : WorldSimulation) (x : NpState rt) (p p' : PyState rt)
         (c c' : Clock rt),
    exists o w' x',
      m (Build_Sim w (Build_Globals x p c))
        = (o, Build_Sim w' (Build_Globals x' p c)) /\
      m (Build_Sim w (Build_Globals x p' c'))
        = (o, Build_Sim w' (Build_Globals x' p' c')).

(** The last [k] elements of a list (all of it when it is shorter). *)
Definition lastn {A : Type} (k : nat) (xs : list A) : list A :=
  skipn (List.length xs - k) xs.

(* ================================================================== *)
(** ** Properties                                                     *)
(* ================================================================== *)

(** *** Comparisons and clamps *)

Lemma Qltb_lt (a b : Q) : Qltb a b = true <-> a < b.
Proof.
  unfold Qltb. rewrite negb_true_iff. split; intro H.
  - apply Qnot_le_lt. intro Hle. apply Qle_bool_iff in Hle. congruence.
  - destruct (Qle_bool b a) eqn:E; [|reflexivity].
    apply Qle_bool_iff in E. exfalso. apply (Qlt_not_le _ _ H E).
Qed.

Lemma Qltb_ge (a b : Q) : Qltb a b = false <-> b <= a.
Proof.
  split; intro H.
  - apply Qnot_lt_le. intro Hlt. apply Qltb_lt in Hlt. congruence.
  - destruct (Qltb a b) eqn:E; [|reflexivity].
    apply Qltb_lt in E. exfalso. apply (Qlt_not_le _ _ E H).
Qed.

Ltac case_Qltb :=
  match goal with
  | |- context [Qltb ?a ?b] =>
      let E := fresh "E" in
      destruct (Qltb a b) eqn:E;
      [apply Qltb_lt in E | apply Qltb_ge in E]
  | H : context [Qltb ?a ?b] |- _ =>
      let E := fresh "E" in
      destruct (Qltb a b) eqn:E;
      [apply Qltb_lt in E | apply Qltb_ge in E]
  end.

(** Division by a literal becomes multiplication by the inverse literal,
    which linear arithmetic understands. *)
Ltac q_div :=
  unfold Qdiv in *;
  repeat match goal with
         | |- context [Qinv ?c] =>
             let v := eval vm_compute in (Qinv c) in change (Qinv c) with v
         | H : context [Qinv ?c] |- _ =>
             let v := eval vm_compute in (Qinv c) in change (Qinv c) with v in H
         end.

Lemma py_min_le_l (a b : Q) : py_min a b <= a.
Proof. unfold py_min. case_Qltb; lra. Qed.

Lemma py_min_le_r (a b : Q) : py_min a b <= b.
Proof. unfold py_min. case_Qltb; lra. Qed.

Lemma py_min_Qmin (a b : Q) : py_min a b == Qmin a b.
Proof.
  destruct (Q.min_spec a b) as [[H1 H2]|[H1 H2]];
    unfold py_min; case_Qltb; lra.
Qed.

Lemma py_min_keeps_small (a b : Q) : a <= b -> py_min a b = a.
Proof.
  intro H. unfold py_min. case_Qltb; [lra | reflexivity].
Qed.

Lemma py_max_ge_l (a b : Q) : a <= py_max a b.
Proof. unfold py_max. case_Qltb; lra. Qed.

Lemma py_max_ge_r (a b : Q) : b <= py_max a b.
Proof. unfold py_max. case_Qltb; lra. Qed.

Lemma np_clip_range (x lo hi : Q) : lo <= hi -> lo <= np_clip x lo hi <= hi.
Proof.
  intro H. unfold np_clip. repeat case_Qltb; lra.
Qed.

Lemma np_clip_Qmin_Qmax (x lo hi : Q) : np_clip x lo hi == Qmin (Qmax x lo) hi.
Proof.
  destruct (Q.max_spec x lo) as [[H1 H2]|[H1 H2]];
    destruct (Q.min_spec (Qmax x lo) hi) as [[H3 H4]|[H3 H4]];
    unfold np_clip; repeat case_Qltb; lra.
Qed.


(** *** Dictionaries and the region store *)

Lemma dict_get_set_same {V : Type} (d : dict V) (k : string) (v : V) :
  dict_get (dict_set d k v) k = Some v.
Proof.
  induction d as [|[k' v'] d IH]; cbn.
  - now rewrite String.eqb_refl.
  - destruct (String.eqb k' k) eqn:E; cbn; rewrite E; auto.
Qed.

Lemma dict_get_set_other {V : Type} (d : dict V) (k k' : string) (v : V) :
  k <> k' -> dict_get (dict_set d k v) k' = dict_get d k'.
Proof.
  intro Hne. induction d as [|[k0 v0] d IH]; cbn.
  - destruct (String.eqb k k') eqn:E; [apply String.eqb_eq in E; contradiction | reflexivity].
  - destruct (String.eqb k0 k) eqn:E; cbn.
    + apply String.eqb_eq in E. subst k0.
      destruct (String.eqb k k') eqn:E'; [apply String.eqb_eq in E'; contradiction | reflexivity].
    + destruct (String.eqb k0 k'); auto.
Qed.

Lemma dict_keys_set_present {V : Type} (d : dict V) (k : string) (v v0 : V) :
  dict_get d k = Some v0 -> dict_keys (dict_set d k v) = dict_keys d.
Proof.
  unfold dict_keys. induction d as [|[k' v'] d IH]; cbn; [discriminate|].
  destruct (String.eqb k' k) eqn:E; cbn; intro H; [reflexivity|].
  f_equal. auto.
Qed.

Lemma dict_get_store_update (d : dict RegionState) (k k' : string)
    (f : RegionState -> RegionState) :
  dict_get (store_update d k f) k' =
  if String.eqb k k' then option_map f (dict_get d k') else dict_get d k'.
Proof.
  unfold store_update. destruct (String.eqb k k') eqn:E.
  - apply String.eqb_eq in E. subst k'.
    destruct (dict_get d k) eqn:G; cbn; [apply dict_get_set_same | now rewrite G].
  - apply String.eqb_neq in E.
    destruct (dict_get d k) eqn:G; [now apply dict_get_set_other | reflexivity].
Qed.

Lemma dict_keys_store_update (d : dict RegionState) (k : string)
    (f : RegionState -> RegionState) :
  dict_keys (store_update d k f) = dict_keys d.
Proof.
  unfold store_update. destruct (dict_get d k) eqn:G; [|reflexivity].
  eapply dict_keys_set_present; eauto.
Qed.

Lemma store_update_Forall (P P' : RegionState -> Prop) (d : dict RegionState)
    (k : string) (f : RegionState -> RegionState) :
  Forall (fun kv => P (snd kv)) d ->
  (forall r, P r -> P' r) ->
  (forall r, P r -> P' (f r)) ->
  Forall (fun kv => P' (snd kv)) (store_update d k f).
Proof.
  intros Hd Hw Hf. unfold store_update.
  destruct (dict_get d k) as [r|] eqn:G.
  - revert r G. induction Hd as [|[k0 r0] d H0 Hd IH]; intros r G; cbn in *.
    + discriminate.
    + destruct (String.eqb k0 k).
      * injection G as <-. constructor; [cbn; auto|].
        eapply Forall_impl; [|exact Hd]. cbn. auto.
      * constructor; [cbn; auto|]. eapply IH. exact G.
  - eapply Forall_impl; [|exact Hd]. cbn. auto.
Qed.

Lemma str_in_false (s : string) (l : list string) :
  ~ In s l -> str_in s l = false.
Proof.
  intro H. unfold str_in. destruct (existsb (String.eqb s) l) eqn:E; [|reflexivity].
  apply existsb_exists in E. destruct E as (x & Hx & Heq).
  apply String.eqb_eq in Heq. subst x. contradiction.
Qed.


(** *** Resource ledger *)

(** C10. [ResourcePool(water, food, energy, land)] clamps each stock from
    above to its cap (2000 for water, food and energy, 1000 for land) and
    applies no lower clamp: a stock at or below its cap, and so every
    negative stock, is stored as given. *)
Theorem ResourcePool_new_clamps_above_only (w f e l : Q) :
  let p := ResourcePool_new w f e l in
  (water p == Qmin w 2000 /\ food p == Qmin f 2000 /\
   energy p == Qmin e 2000 /\ land p == Qmin l 1000) /\
  (water p <= 2000 /\ food p <= 2000 /\ energy p <= 2000 /\ land p <= 1000) /\
  ((w < 0 -> water p = w /\ water p < 0) /\
   (f < 0 -> food p = f /\ food p < 0) /\
   (e < 0 -> energy p = e /\ energy p < 0) /\
   (l < 0 -> land p = l /\ land p < 0)).
Proof.
  cbn zeta. unfold ResourcePool_new, ResourcePool_init, __post_init__. cbn [water food energy land max_water max_food max_energy max_land].
  repeat split;
    try apply py_min_Qmin; try apply py_min_le_r;
    try (rewrite py_min_keeps_small by lra; reflexivity);
    try (rewrite py_min_keeps_small by lra; assumption).
Qed.

(** A pool built from negative stocks keeps them (C10 at a concrete pool). *)
Lemma ResourcePool_new_negative_witness :
  water (ResourcePool_new (-5) 2500 (-1) 1500) = -5 /\
  water (ResourcePool_new (-5) 2500 (-1) 1500) < 0.
Proof.
  apply (proj1 (proj2 (proj2 (ResourcePool_new_clamps_above_only (-5) 2500 (-1) 1500)))).
  reflexivity.
Defined.

Lemma in_range_iff (p : ResourcePool) :
  in_range p = true <->
  (0 <= water p <= max_water p) /\ (0 <= food p <= max_food p) /\
  (0 <= energy p <= max_energy p) /\ (0 <= land p <= max_land p).
Proof.
  unfold in_range. rewrite !andb_true_iff, !Qle_bool_iff. tauto.
Qed.

(** [deplete] with non-negative amounts keeps every stock in range. *)
Lemma deplete_in_range (p : ResourcePool) (w f e l : Q) :
  in_range p = true -> 0 <= w -> 0 <= f -> 0 <= e -> 0 <= l ->
  in_range (deplete p w f e l) = true.
Proof.
  rewrite !in_range_iff. intros H Hw Hf He Hl. unfold deplete, py_max. cbn.
  repeat case_Qltb; lra.
Qed.

(** [replenish] with non-negative amounts keeps every stock in range. *)
Lemma replenish_in_range (p : ResourcePool) (w f e l : Q) :
  in_range p = true -> 0 <= w -> 0 <= f -> 0 <= e -> 0 <= l ->
  in_range (replenish p w f e l) = true.
Proof.
  rewrite !in_range_iff. intros H Hw Hf He Hl. unfold replenish, py_min. cbn.
  repeat case_Qltb; lra.
Qed.

Lemma one_region_sim_constructed (py_tape : list Z) :
  WorldSimulation_init Script.runtime 1 42 (Script.globals [] py_tape 0)
  = (Ret (world (one_region_sim py_tape)), glob (one_region_sim py_tape)).
Proof. reflexivity. Qed.

(** C1 at its failing inputs.  Each of the three operations below starts
    from ledgers in range and leaves a stock outside [[0, cap]]:
    - the action effects of "Invest in Water" (action 2) go through
      [deplete] with a negated amount, which clamps at 0 only: water
      2000 becomes 2200;
    - a flood (water +200) and a harvest (food +300) are applied with
      [max(0, ...)] only: 2000 becomes 2200 and 2300;
    - [execute_trade] assigns without any clamp: food 0 becomes -5 for
      region A, energy 2000 becomes 2002.5 for region B;
    and two calls of [step] on a newly built one-region world whose agent
    picks action 2 leave its water at 2200 with a cap of 2000 (each call
    applies the action effects and then raises, see C8). *)
Theorem stocks_leave_their_range :
  (in_range (resources full_region) = true /\
   in_range (resources hungry_region) = true) /\
  (exists eff, ACTIONS 2 = Some eff /\
     in_range (resources (apply_action_effects eff full_region)) = false /\
     water (resources (apply_action_effects eff full_region)) == 2200) /\
  (in_range (resources (fst (apply flood full_region))) = false /\
   water (resources (fst (apply flood full_region))) == 2200 /\
   in_range (resources (fst (apply harvest full_region))) = false /\
   food (resources (fst (apply harvest full_region))) == 2300) /\
  (let regions' := execute_trade_regions two_regions "region_0" "region_1" 0.5 in
   option_map in_range (region_resources regions' "region_0") = Some false /\
   option_map in_range (region_resources regions' "region_1") = Some false /\
   option_map (fun p => Qeq_bool (food p) (-5)) (region_resources regions' "region_0")
     = Some true /\
   option_map (fun p => Qeq_bool (energy p) 2002.5) (region_resources regions' "region_1")
     = Some true) /\
  (let s := one_region_sim [2; 2]%Z in
   let s' := snd (steps Script.runtime 2 s) in
   option_map in_range (region_resources (regions (world s)) "region_0") = Some true /\
   option_map in_range (region_resources (regions (world s')) "region_0") = Some false /\
   option_map (fun p => Qeq_bool (water p) 2200) (region_resources (regions (world s')) "region_0")
     = Some true).
Proof.
  split; [split; reflexivity|].
  split; [eexists; split; [reflexivity|]; split; reflexivity|].
  split; [repeat split|].
  split; [repeat split|].
  cbn zeta. repeat split; vm_compute; reflexivity.
Qed.


(** *** Climatic events: frame *)

(** C9. Applying a climatic event to a region whose id is not among the
    event's affected regions returns the region object untouched (ledger,
    population and every other field) and an empty effects dictionary. *)
Theorem apply_unaffected_region_noop (ev : ClimaticEvent) (r : RegionState) :
  ~ In (region_id r) (affected_regions ev) ->
  apply ev r = (r, []).
Proof.
  intro H. unfold apply. rewrite (str_in_false _ _ H). reflexivity.
Qed.

(** C9 for a flood that affects another region. *)
Lemma apply_unaffected_witness :
  apply flood hungry_region = (hungry_region, []).
Proof.
  apply apply_unaffected_region_noop.
  cbn. intros [H|[]]. discriminate H.
Defined.


(** *** Learner: replay on a short buffer *)

(** C7. With fewer than [batch_size] transitions in the buffer,
    [replay(batch_size)] returns loss 0.0 and leaves the agent (ε, the
    action values, the loss history, the buffer) and the random sources
    as they were. *)
Theorem replay_short_buffer_noop (rt : Runtime) (a : DQNAgent) (batch_size : Z)
    (g : Globals rt) :
  (Z.of_nat (List.length (memory a)) < batch_size)%Z ->
  replay rt a batch_size g = (Ret 0.0, a, g).
Proof.
  intro H. unfold replay.
  apply Z.ltb_lt in H. rewrite H. reflexivity.
Qed.

(** C7 on a new learner: empty buffer, [batch_size = 32]. *)
Lemma replay_empty_buffer_witness :
  let a := fst (DQNAgent_init Script.runtime 12 9 0.01 (Script.globals [] [] 0)) in
  replay Script.runtime a 32 (Script.globals [] [] 0)
  = (Ret 0.0, a, Script.globals [] [] 0).
Proof.
  cbn zeta. apply replay_short_buffer_noop. vm_compute. reflexivity.
Defined.


(** *** Learner: the exploration rate *)

Lemma list_set_length {A : Type} (xs : list A) (i : nat) (v : A) :
  List.length (list_set xs i v) = List.length xs.
Proof.
  revert i. induction xs as [|x xs IH]; intros [|i]; cbn; auto.
Qed.

Lemma replay_loop_frame (batch : list Transition) :
  forall a acc o a',
    replay_loop a batch acc = (o, a') -> same_but_q_values a a'.
Proof.
  induction batch as [|t batch IH]; intros a acc o a' H; cbn in H.
  - injection H as _ <-. unfold same_but_q_values. tauto.
  - destruct (if t_done t then _ else _) as [target|e] in H.
    2:{ injection H as _ <-. unfold same_but_q_values. tauto. }
    destruct (np_index _ _) as [i|e] in H.
    2:{ injection H as _ <-. unfold same_but_q_values. tauto. }
    apply IH in H. unfold same_but_q_values in *. cbn in H.
    rewrite list_set_length in H. tauto.
Qed.

Lemma epsilon_decay_epsilon (a : DQNAgent) :
  epsilon (decay_epsilon a) = decayed (epsilon_min a) (epsilon_decay a) (epsilon a) /\
  epsilon_min (decay_epsilon a) = epsilon_min a /\
  epsilon_decay (decay_epsilon a) = epsilon_decay a /\
  memory (decay_epsilon a) = memory a /\
  q_values (decay_epsilon a) = q_values a.
Proof.
  unfold decay_epsilon, decayed. destruct (Qltb (epsilon_min a) (epsilon a)); cbn; tauto.
Qed.

(** Every call of [replay] either leaves ε as it is (short buffer, or an
    exception) or applies the guarded decay once. *)
Lemma replay_epsilon (rt : Runtime) (a : DQNAgent) (bs : Z) (g : Globals rt) :
  forall o a' g',
    replay rt a bs g = (o, a', g') ->
    epsilon_min a' = epsilon_min a /\ epsilon_decay a' = epsilon_decay a /\
    memory a' = memory a /\
    List.length (q_values a') = List.length (q_values a) /\
    (epsilon a' = epsilon a \/
     epsilon a' = decayed (epsilon_min a) (epsilon_decay a) (epsilon a)).
Proof.
  intros o a' g' H. unfold replay in H.
  destruct (Z.of_nat (List.length (memory a)) <? bs)%Z.
  { injection H as _ <- _. tauto. }
  destruct (bs <? 0)%Z.
  { injection H as _ <- _. tauto. }
  destruct (py_sample rt Transition (memory a) bs (py g)) as [batch py'].
  destruct (replay_loop a batch 0.0) as [[total|e] a1] eqn:L;
    apply replay_loop_frame in L; unfold same_but_q_values in L.
  - destruct (bs =? 0)%Z.
    + injection H as _ <- _. intuition congruence.
    + injection H as _ <- _.
      match goal with
      | |- context [decay_epsilon ?x] =>
          pose proof (epsilon_decay_epsilon x) as D; cbn in D
      end.
      destruct D as (D1 & D2 & D3 & D4 & D5).
      rewrite D1, D2, D3, D4, D5.
      destruct L as (_ & _ & _ & _ & L5 & L6 & L7 & L8 & _ & L10).
      rewrite L5, L6, L7. cbn. intuition congruence.
  - injection H as _ <- _. intuition congruence.
Qed.

(** ε never grows across a call of [replay] (for a non-negative ε and a
    decay factor in [[0, 1]]), and stays at or above
    [epsilon_min * epsilon_decay] once it is at or above it. *)
Lemma replay_epsilon_bounds (rt : Runtime) (a : DQNAgent) (bs : Z) (g : Globals rt) :
  forall o a' g',
    replay rt a bs g = (o, a', g') ->
    0 <= epsilon_decay a <= 1 ->
    0 <= epsilon_min a ->
    epsilon_min a * epsilon_decay a <= epsilon a ->
    epsilon a' <= epsilon a /\
    epsilon_min a' * epsilon_decay a' <= epsilon a'.
Proof.
  intros o a' g' H Hd Hm He.
  apply replay_epsilon in H. destruct H as (H1 & H2 & _ & _ & H5).
  rewrite H1, H2. unfold decayed in H5.
  assert (0 <= epsilon a) by nra.
  destruct H5 as [-> | ->]; [lra|].
  case_Qltb; split; try lra; nra.
Qed.

Lemma replay_ready_step (a : DQNAgent) (g : Globals Script.runtime) :
  replay_ready a ->
  exists loss a',
    replay Script.runtime a 1 g = (Ret loss, a', g) /\
    replay_ready a' /\
    epsilon a' = decayed 0.01 0.995 (epsilon a).
Proof.
  intros (Hm & Hq & Hmin & Hdec).
  unfold replay. rewrite Hm.
  change (Z.of_nat (List.length [one_transition]) <? 1)%Z with false.
  change (1 <? 0)%Z with false. change (1 =? 0)%Z with false.
  cbn iota.
  change (py_sample Script.runtime Transition [one_transition] 1 (py g))
    with ([one_transition], py g).
  cbn iota. destruct g as [gn gp gc]. cbn [np py clk].
  destruct (replay_loop a [one_transition] 0.0) as [[total|e] a1] eqn:L.
  - pose proof (replay_loop_frame _ _ _ _ _ L) as F. unfold same_but_q_values in F.
    destruct F as (_ & _ & _ & _ & F5 & F6 & F7 & F8 & _ & F10).
    match goal with
    | |- context [decay_epsilon ?x] =>
        pose proof (epsilon_decay_epsilon x) as D; cbn in D
    end.
    destruct D as (D1 & D2 & D3 & D4 & D5).
    eexists; eexists. split; [reflexivity|].
    unfold replay_ready. rewrite D1, D2, D3, D4, D5.
    cbn. rewrite F5, F6, F7, F8, F10, Hm, Hq, Hmin, Hdec. auto.
  - exfalso. cbn in L. rewrite Hq in L. cbn in L. discriminate.
Qed.

Lemma replays_ready (n : nat) :
  forall (a : DQNAgent) (g : Globals Script.runtime),
    replay_ready a ->
    forallb is_ret (fst (fst (replays Script.runtime n a 1 g))) = true /\
    replay_ready (snd (fst (replays Script.runtime n a 1 g))) /\
    epsilon (snd (fst (replays Script.runtime n a 1 g))) =
      Nat.iter n (decayed 0.01 0.995) (epsilon a).
Proof.
  induction n as [|n IH]; intros a g Ha.
  - cbn. auto.
  - destruct (replay_ready_step a g Ha) as (loss & a1 & Hr & Ha1 & He).
    cbn [replays]. rewrite Hr.
    specialize (IH a1 g Ha1).
    destruct (replays Script.runtime n a1 1 g) as [[os a2] g2].
    cbn [fst snd forallb is_ret andb] in *.
    destruct IH as (I1 & I2 & I3). repeat split; auto; try apply I2.
    rewrite I3, He. symmetry. apply Nat.iter_succ_r.
Qed.

(** C3 at its failing input.  A new learner starts at ε = 1.0; after 919
    calls of [replay] that each ran their update, ε is below
    [epsilon_min]: the guard [epsilon > epsilon_min] lets the last
    multiplication by 0.995 carry ε under the floor. *)
Theorem epsilon_undershoots_epsilon_min :
  epsilon trained_once = 1.0 /\
  forallb is_ret
    (fst (fst (replays Script.runtime 919 trained_once 1 (Script.globals [] [] 0)))) = true /\
  epsilon_min
    (snd (fst (replays Script.runtime 919 trained_once 1 (Script.globals [] [] 0)))) = 0.01 /\
  epsilon
    (snd (fst (replays Script.runtime 919 trained_once 1 (Script.globals [] [] 0)))) < 0.01.
Proof.
  assert (H0 : replay_ready trained_once) by (repeat split).
  destruct (replays_ready 919 trained_once (Script.globals [] [] 0) H0) as (H1 & H2 & H3).
  split; [reflexivity|]. split; [exact H1|]. split; [apply H2|].
  rewrite H3. vm_compute. reflexivity.
Qed.


(** *** Regional agent: reward *)

(** C5. [calculate_reward] is the specified formula clamped to
    [[-10, 10]], and its value always lies in that interval. *)
Theorem calculate_reward_formula_and_range
    (prev curr : ResourceDict) (stability : Q) (population : Z) :
  calculate_reward prev curr stability population ==
    reward_spec (d_water curr) (d_food curr) (d_energy curr) stability population /\
  -10 <= calculate_reward prev curr stability population <= 10.
Proof.
  split.
  - unfold calculate_reward, reward_spec, starvation_penalty_spec, resource_health_spec.
    rewrite np_clip_Qmin_Qmax.
    apply Q.min_compat; [|reflexivity].
    apply Q.max_compat; [|reflexivity].
    pose proof (py_min_Qmin (inject_Z population / 500.0) 1.0) as Hmin.
    destruct (Q.min_spec (inject_Z population / 500.0) 1.0) as [[H1 H2]|[H1 H2]];
      destruct (Q.min_spec (inject_Z population / 500) 1) as [[H3 H4]|[H3 H4]];
      repeat case_Qltb; q_div; lra.
  - unfold calculate_reward. apply np_clip_range. lra.
Qed.


(** *** Trade network: the exchange *)

(** C6. [execute_trade] with [trade_amount = strength * 50] lowers the
    food of region A by [trade_amount] and raises it by
    [trade_amount * 0.8] (net [-0.2 * trade_amount]), lowers the energy
    of region B by [trade_amount * 0.8] and raises it by
    [trade_amount * 0.9] (net [+0.1 * trade_amount]); at strength 0.5 the
    food of A changes by -5 and the energy of B by +2.5.  The two
    references may name the same region. *)
Theorem execute_trade_net_transfer (rt : Runtime) (tn : TradeNetwork)
    (regions : dict RegionState) (a b : string) (strength : Q)
    (g : Globals rt) (ra rb : RegionState) :
  dict_get regions a = Some ra ->
  dict_get regions b = Some rb ->
  let trade_amount := strength * 50 in
  let regions' := snd (fst (execute_trade rt tn regions a b strength g)) in
  exists ra' rb',
    dict_get regions' a = Some ra' /\
    dict_get regions' b = Some rb' /\
    food (resources ra') == food (resources ra) - trade_amount + trade_amount * 0.8 /\
    food (resources ra') == food (resources ra) - 0.2 * trade_amount /\
    energy (resources rb') == energy (resources rb) - trade_amount * 0.8 + trade_amount * 0.9 /\
    energy (resources rb') == energy (resources rb) + 0.1 * trade_amount /\
    (strength == 0.5 ->
     food (resources ra') == food (resources ra) - 5 /\
     energy (resources rb') == energy (resources rb) + 2.5).
Proof.
  intros Ha Hb trade_amount regions'.
  assert (Hr : regions' = execute_trade_regions regions a b strength).
  { subst regions'. unfold execute_trade. destruct (now rt (clk g)). reflexivity. }
  rewrite Hr. unfold execute_trade_regions.
  rewrite !dict_get_store_update, !String.eqb_refl.
  destruct (String.eqb a b) eqn:Eab.
  - apply String.eqb_eq in Eab. subst b. rewrite !String.eqb_refl.
    rewrite Ha in Hb. injection Hb as <-. rewrite Ha. cbn [option_map].
    eexists; eexists. split; [reflexivity|]. split; [reflexivity|].
    cbn. subst trade_amount. repeat split; intros; lra.
  - assert (Eba : String.eqb b a = false).
    { rewrite String.eqb_sym. exact Eab. }
    rewrite Eba, Ha, Hb. cbn [option_map].
    eexists; eexists. split; [reflexivity|]. split; [reflexivity|].
    cbn. subst trade_amount. repeat split; intros; lra.
Qed.

(** C6 at strength 0.5 between a region without food and a full one. *)
Lemma execute_trade_witness :
  exists ra' rb',
    dict_get (snd (fst (execute_trade Script.runtime TradeNetwork_init two_regions
                          "region_0" "region_1" 0.5 (Script.globals [] [] 0))))
             "region_0" = Some ra' /\
    dict_get (snd (fst (execute_trade Script.runtime TradeNetwork_init two_regions
                          "region_0" "region_1" 0.5 (Script.globals [] [] 0))))
             "region_1" = Some rb' /\
    food (resources ra') == food (resources hungry_region) - 5 /\
    energy (resources rb') == energy (resources full_region) + 2.5.
Proof.
  destruct (execute_trade_net_transfer Script.runtime TradeNetwork_init two_regions
              "region_0" "region_1" 0.5 (Script.globals [] [] 0)
              hungry_region full_region eq_refl eq_refl)
    as (ra' & rb' & Ha & Hb & _ & _ & _ & _ & Hhalf).
  exists ra', rb'. split; [exact Ha|]. split; [exact Hb|].
  apply Hhalf. reflexivity.
Defined.


(** *** World simulation: what one call of [step] leaves behind *)

Section StepFrame.

Variable rt : Runtime.

Lemma keeps_ret {A : Type} (a : A) : keeps_cycle (ret rt a).
Proof. intros s o s' H. injection H as _ <-. auto. Qed.

Lemma keeps_raise {A : Type} (e : exn) : keeps_cycle (@raise rt A e).
Proof. intros s o s' H. injection H as _ <-. auto. Qed.

Lemma keeps_lift_outcome {A : Type} (o : outcome A) : keeps_cycle (lift_outcome rt o).
Proof. intros s o' s' H. injection H as _ <-. auto. Qed.

Lemma keeps_get_world : keeps_cycle (get_world rt).
Proof. intros s o s' H. injection H as _ <-. auto. Qed.

Lemma keeps_bind {A B : Type} (m : M rt A) (k : A -> M rt B) :
  keeps_cycle m -> (forall a, keeps_cycle (k a)) -> keeps_cycle (bind rt m k).
Proof.
  intros Hm Hk s o s' H. unfold bind in H.
  destruct (m s) as [[a|e] s1] eqn:E.
  - apply Hm in E. apply Hk in H. destruct E, H. split; congruence.
  - injection H as _ <-. apply Hm in E. exact E.
Qed.

Lemma keeps_with_globals {A : Type} (f : Globals rt -> outcome A * Globals rt) :
  keeps_cycle (with_globals rt f).
Proof.
  intros s o s' H. unfold with_globals in H.
  destruct (f (glob s)). injection H as _ <-. auto.
Qed.

Lemma keeps_lookup {V : Type} (d : dict V) (k : string) : keeps_cycle (lookup rt d k).
Proof.
  unfold lookup. destruct (dict_get d k); [apply keeps_ret | apply keeps_raise].
Qed.

Lemma keeps_modify_world (f : WorldSimulation -> WorldSimulation) :
  (forall w, current_cycle (f w) = current_cycle w /\
             cycle_history (f w) = cycle_history w) ->
  keeps_cycle (modify_world rt f).
Proof.
  intros Hf s o s' H. injection H as _ <-. cbn. apply Hf.
Qed.

Lemma keeps_modify_region (rid : string) (f : RegionState -> RegionState) :
  keeps_cycle (modify_region rt rid f).
Proof. apply keeps_modify_world. intro w. cbn. auto. Qed.

Lemma keeps_for_each {A : Type} (xs : list A) (body : A -> M rt unit) :
  (forall x, keeps_cycle (body x)) -> keeps_cycle (for_each rt xs body).
Proof.
  intro Hb. induction xs as [|x xs IH]; cbn.
  - apply keeps_ret.
  - apply keeps_bind; auto.
Qed.

Lemma keeps_generate_climatic_event : keeps_cycle (_generate_climatic_event rt).
Proof.
  unfold _generate_climatic_event, draw_np, datetime_now.
  apply keeps_bind; [apply keeps_with_globals|]. intro u.
  destruct (Qltb 0.15 u); [apply keeps_ret|].
  apply keeps_bind; [apply keeps_get_world|]. intro w.
  apply keeps_bind; [apply keeps_with_globals|]. intro ty.
  apply keeps_bind; [apply keeps_with_globals|]. intro k.
  apply keeps_bind.
  { destruct (_ || _); [apply keeps_raise | apply keeps_ret]. }
  intros _.
  apply keeps_bind; [apply keeps_with_globals|]. intro aff.
  apply keeps_bind; [apply keeps_with_globals|]. intro sev.
  apply keeps_bind; [apply keeps_with_globals|]. intro t.
  apply keeps_ret.
Qed.

Lemma raises_bind_l {A B : Type} (m : M rt A) (k : A -> M rt B) :
  raises_keeping_cycle m -> raises_keeping_cycle (bind rt m k).
Proof.
  intros Hm s. destruct (Hm s) as (e & s' & E & H).
  exists e, s'. unfold bind. rewrite E. auto.
Qed.

Lemma raises_bind_r {A B : Type} (m : M rt A) (k : A -> M rt B) :
  keeps_cycle m -> (forall a, raises_keeping_cycle (k a)) ->
  raises_keeping_cycle (bind rt m k).
Proof.
  intros Hm Hk s. unfold bind.
  destruct (m s) as [[a|e] s1] eqn:E; apply Hm in E.
  - destruct (Hk a s1) as (e & s' & E' & H1 & H2).
    exists e, s'. destruct E as [E1 E2]. repeat split; congruence.
  - exists e, s1. auto.
Qed.

(** The turn of any region ends in an exception: at the latest at
    [region.is_critical()]. *)
Lemma agent_turn_raises (cycle_data : CycleReport) (rid : string) :
  raises_keeping_cycle (agent_turn rt cycle_data rid).
Proof.
  unfold agent_turn.
  apply raises_bind_r; [apply keeps_get_world|]. intro w.
  apply raises_bind_r; [apply keeps_lookup|]. intro region.
  apply raises_bind_r; [apply keeps_lookup|]. intro agent.
  apply raises_bind_r; [apply keeps_with_globals|]. intros [action_idx action_name].
  apply raises_bind_r.
  { destruct (ACTIONS action_idx); [apply keeps_ret | apply keeps_raise]. }
  intro action_effects.
  apply raises_bind_r; [apply keeps_modify_region|]. intros _.
  apply raises_bind_r; [apply keeps_get_world|]. intro w'.
  apply raises_bind_r; [apply keeps_lookup|]. intro region'.
  apply raises_bind_l.
  intro s. eexists; eexists. split; [reflexivity|]. auto.
Qed.

(** C8, as the code has it.  On a world with at least one region, a call
    of [step] raises: the cycle counter is not incremented and no report
    is appended to the cycle history. *)
Theorem step_raises_on_populated_world (s : Sim rt) :
  regions (world s) <> [] ->
  exists e s',
    step rt s = (Raise e, s') /\
    current_cycle (world s') = current_cycle (world s) /\
    cycle_history (world s') = cycle_history (world s).
Proof.
  intro Hne. unfold step.
  unfold bind at 1. cbn [get_world].
  destruct (regions (world s)) as [|[rid0 r0] rest] eqn:R; [contradiction|].
  match goal with
  | |- exists e s', ?m s = _ /\ _ => assert (H : raises_keeping_cycle m)
  end.
  { apply raises_bind_r; [apply keeps_with_globals|]. intro t.
    apply raises_bind_r.
    { apply keeps_for_each. intro x. apply keeps_modify_region. }
    intros _.
    apply raises_bind_r; [apply keeps_generate_climatic_event|]. intro event.
    apply raises_bind_r.
    { destruct event as [ev|]; [|apply keeps_ret].
      apply keeps_bind; [apply keeps_modify_world; intro w; cbn; auto|]. intros _.
      apply keeps_bind; [|intros _; apply keeps_ret].
      apply keeps_for_each. intro x. apply keeps_modify_region. }
    intro cycle_data.
    apply raises_bind_l.
    cbn [dict_keys map fst fold_M].
    apply raises_bind_l. apply agent_turn_raises. }
  apply H.
Qed.

End StepFrame.

(** C8 on a concrete world: the first call of [step] on
    [WorldSimulation(num_regions=1, seed=42)] raises and leaves the cycle
    counter and the cycle history as they were. *)
Lemma step_raises_witness :
  exists e s',
    step Script.runtime (one_region_sim [2]%Z) = (Raise e, s') /\
    current_cycle (world s') = current_cycle (world (one_region_sim [2]%Z)) /\
    cycle_history (world s') = cycle_history (world (one_region_sim [2]%Z)).
Proof.
  apply (step_raises_on_populated_world Script.runtime (one_region_sim [2]%Z)).
  vm_compute. discriminate.
Defined.

(** The exception is the failed lookup of [is_critical] on the region
    object; the counter stays at 0 and the history empty, also after
    three calls. *)
Lemma step_on_new_world_AttributeError :
  fst (step Script.runtime (one_region_sim [2]%Z))
    = Raise (AttributeError "RegionState" "is_critical") /\
  current_cycle (world (snd (step Script.runtime (one_region_sim [2]%Z)))) = 0%Z /\
  cycle_history (world (snd (step Script.runtime (one_region_sim [2]%Z)))) = [] /\
  current_cycle (world (snd (steps Script.runtime 3 (one_region_sim [2; 2; 2]%Z)))) = 0%Z /\
  cycle_history (world (snd (steps Script.runtime 3 (one_region_sim [2; 2; 2]%Z)))) = [].
Proof. repeat split; vm_compute; reflexivity. Qed.

(** On a world without regions and in a cycle without an event, [step]
    does complete: one report, counter incremented. *)
Lemma step_on_empty_world_completes :
  let s := construct 0 44 (Script.globals [] [] 0) in
  is_ret (fst (step Script.runtime s)) = true /\
  current_cycle (world (snd (step Script.runtime s))) = (current_cycle (world s) + 1)%Z /\
  List.length (cycle_history (world (snd (step Script.runtime s)))) = 1%nat.
Proof. repeat split. Qed.


(** *** Reproducibility *)

(** C2 at its failing input.  Two instances built with the same seed in
    one process: numpy's generator is re-positioned by the second
    constructor, so the two start as identical worlds; the [random]
    module's generator is not, so the exploring agent of the second
    instance draws the next action of the tape (0, "Invest in Food")
    where the first drew 2 ("Invest in Water"), and the worlds differ
    after one call of [step] each.  On a world without regions, where
    [step] returns a report, the two first reports differ by their
    timestamps. *)
Theorem same_seed_instances_diverge :
  (let first := construct 1 42 (Script.globals [] [2; 0]%Z 0) in
   let first' := snd (step Script.runtime first) in
   let second := construct 1 42 (glob first') in
   let second' := snd (step Script.runtime second) in
   world second = world first /\
   option_map (fun r => Qred (water (resources r))) (region_0 first') = Some 1575 /\
   option_map (fun r => Qred (water (resources r))) (region_0 second') = Some 1325) /\
  (let first := construct 0 44 (Script.globals [] [] 0) in
   let first' := snd (step Script.runtime first) in
   let second := construct 0 44 (glob first') in
   world second = world first /\
   option_map cd_timestamp
     (match fst (step Script.runtime first) with Ret r => Some r | Raise _ => None end)
     = Some 0%Z /\
   option_map cd_timestamp
     (match fst (step Script.runtime second) with Ret r => Some r | Raise _ => None end)
     = Some 1%Z).
Proof.
  split; cbn zeta; repeat split; vm_compute; reflexivity.
Qed.


(** *** Population: one update *)

Lemma py_int_nonneg (x : Q) : 0 <= x -> (0 <= py_int x)%Z.
Proof.
  intro H. unfold py_int. apply Z.quot_pos; [|reflexivity].
  unfold Qle in H. cbn in H. lia.
Qed.

Lemma scaled_population_nonneg (n : Z) (factor : Q) :
  (0 <= n)%Z -> 0 <= factor -> (0 <= py_int (inject_Z n * factor))%Z.
Proof.
  intros Hn Hf. apply py_int_nonneg.
  apply Qmult_le_0_compat; [|exact Hf].
  unfold Qle. cbn. lia.
Qed.

(** Natural dynamics keep a population non-negative when the growth rate
    is at least -1. *)
Lemma update_basic_resources_population (r : RegionState) :
  (0 <= population r)%Z -> -1 <= growth_rate r ->
  (0 <= population (_update_basic_resources r))%Z.
Proof.
  intros Hp Hg. unfold _update_basic_resources. cbn.
  repeat match goal with
         | |- context [if ?c then _ else _] => destruct c
         end; cbn; try assumption;
    apply scaled_population_nonneg; try assumption; lra.
Qed.

Lemma update_basic_resources_growth_rate (r : RegionState) :
  growth_rate (_update_basic_resources r) = growth_rate r.
Proof.
  unfold _update_basic_resources. cbn.
  repeat match goal with
         | |- context [if ?c then _ else _] => destruct c
         end; reflexivity.
Qed.

(** The entries of the action table: a population change, where there is
    one, is a growth. *)
Lemma ACTIONS_pop_growth (i : Z) (eff : ActionEffects) :
  ACTIONS i = Some eff ->
  match a_pop_growth eff with
  | Some x => 0 <= x
  | None => True
  end.
Proof.
  intro H. unfold ACTIONS in H.
  destruct i as [|p|p]; [| |discriminate].
  - injection H as <-. exact I.
  - do 4 (try (destruct p as [p|p|]; try discriminate));
      injection H as <-; cbn; try exact I; lra.
Qed.

(** The entries of the action table lower the growth rate by at most
    0.02. *)
Lemma ACTIONS_growth (i : Z) (eff : ActionEffects) :
  ACTIONS i = Some eff ->
  match a_growth eff with
  | Some x => -0.02 <= x
  | None => True
  end.
Proof.
  intro H. unfold ACTIONS in H.
  destruct i as [|p|p]; [| |discriminate].
  - injection H as <-. exact I.
  - do 4 (try (destruct p as [p|p|]; try discriminate));
      injection H as <-; cbn; try exact I; lra.
Qed.

Lemma apply_action_effects_population (eff : ActionEffects) (r : RegionState) :
  (0 <= population r)%Z ->
  match a_pop_growth eff with Some x => -1 <= x | None => True end ->
  (0 <= population (apply_action_effects eff r))%Z.
Proof.
  intros Hp Hx. unfold apply_action_effects.
  destruct (a_water eff), (a_food eff), (a_energy eff), (a_growth eff),
    (a_pop_growth eff), (a_dev_increase eff); cbn; try assumption;
    apply scaled_population_nonneg; try assumption; lra.
Qed.

Lemma apply_action_effects_growth_rate (eff : ActionEffects) (r : RegionState) :
  growth_rate (apply_action_effects eff r) =
  match a_growth eff with
  | Some x => growth_rate r + x
  | None => growth_rate r
  end.
Proof.
  unfold apply_action_effects.
  destruct (a_water eff), (a_food eff), (a_energy eff), (a_growth eff),
    (a_pop_growth eff), (a_dev_increase eff); reflexivity.
Qed.

Lemma fold_apply_item_population (ev : ClimaticEvent) (items : dict ev_value) :
  forall acc,
    (0 <= population (fst acc))%Z ->
    (forall k change, In (k, VNum change) items ->
       String.eqb k "population_loss" = true -> change * severity ev <= 1) ->
    (0 <= population (fst (fold_left (apply_item ev) items acc)))%Z.
Proof.
  induction items as [|[k v] items IH]; intros acc Hp Hc; cbn; [exact Hp|].
  apply IH.
  - destruct acc as [r eff]. unfold apply_item.
    destruct v as [change|s]; [|exact Hp].
    destruct (String.eqb k "population_loss") eqn:E.
    + cbn. apply scaled_population_nonneg; [exact Hp|].
      assert (change * severity ev <= 1) by (apply (Hc k); [left; reflexivity | exact E]).
      lra.
    + destruct (pool_getattr (resources r) k); exact Hp.
  - intros k' c Hin. apply Hc. right. exact Hin.
Qed.

Lemma fold_apply_item_growth_rate (ev : ClimaticEvent) (items : dict ev_value) :
  forall acc,
    growth_rate (fst (fold_left (apply_item ev) items acc)) = growth_rate (fst acc).
Proof.
  induction items as [|[k v] items IH]; intro acc; cbn; [reflexivity|].
  rewrite IH. destruct acc as [r eff]. unfold apply_item.
  destruct v as [change|s]; [|reflexivity].
  destruct (String.eqb k "population_loss"); [reflexivity|].
  destruct (pool_getattr (resources r) k); reflexivity.
Qed.

(** The only population loss of the catalog is the plague's 0.1. *)
Lemma EVENT_TYPES_population_loss (ty : string) (items : dict ev_value) :
  dict_get EVENT_TYPES ty = Some items ->
  forall k change, In (k, VNum change) items ->
    String.eqb k "population_loss" = true -> change = 0.1.
Proof.
  unfold EVENT_TYPES. cbn [dict_get].
  repeat match goal with
         | |- context [if ?c then _ else _] => destruct c
         end; intro H; try discriminate; injection H as <-;
    intros k change Hin Hk; cbn in Hin;
    repeat match goal with
           | H : _ \/ _ |- _ => destruct H
           | H : False |- _ => contradiction
           | H : (_, _) = (_, _) |- _ => injection H as <- <-
           | H : (_, VStr _) = (_, VNum _) |- _ => discriminate H
           end; try reflexivity; try discriminate.
Qed.

(** An event keeps a population non-negative when its severity is in
    [[0, 10]]. *)
Lemma apply_population (ev : ClimaticEvent) (r : RegionState) :
  (0 <= population r)%Z -> 0 <= severity ev <= 10 ->
  (0 <= population (fst (apply ev r)))%Z.
Proof.
  intros Hp Hs. unfold apply.
  destruct (negb _); [exact Hp|].
  destruct (dict_get EVENT_TYPES (event_type ev)) as [items|] eqn:E; [|exact Hp].
  apply fold_apply_item_population; [exact Hp|].
  intros k change Hin Hk.
  rewrite (EVENT_TYPES_population_loss _ _ E k change Hin Hk). lra.
Qed.


(** *** Population: the invariant of a cycle *)

Lemma region_ok_weaken (rid : string) (b b' : Q) (r : RegionState) :
  b' <= b -> region_ok rid b r -> region_ok rid b' r.
Proof. intros Hb H Hid. destruct (H Hid) as [Hp Hg]. split; [exact Hp | lra]. Qed.

Lemma regions_ok_weaken (rid : string) (b b' : Q) (w : WorldSimulation) :
  b' <= b -> regions_ok rid b w -> regions_ok rid b' w.
Proof.
  intros Hb H. unfold regions_ok in *.
  eapply Forall_impl; [|exact H]. intros kv. apply region_ok_weaken. exact Hb.
Qed.

(** No mutation of a cycle assigns [region_id]. *)
Lemma update_basic_resources_region_id (r : RegionState) :
  region_id (_update_basic_resources r) = region_id r.
Proof.
  unfold _update_basic_resources. cbn.
  repeat match goal with
         | |- context [if ?c then _ else _] => destruct c
         end; reflexivity.
Qed.

Lemma apply_region_id (ev : ClimaticEvent) (r : RegionState) :
  region_id (fst (apply ev r)) = region_id r.
Proof.
  unfold apply. destruct (negb _); [reflexivity|].
  change (region_id r) with (region_id (fst (r, @nil (string * Q)))).
  generalize (r, @nil (string * Q)).
  induction (match dict_get EVENT_TYPES (event_type ev) with
             | Some d => d
             | None => []
             end) as [|[k v] items IH]; intro acc; cbn [fold_left]; [reflexivity|].
  rewrite IH. destruct acc as [r0 eff]. unfold apply_item.
  destruct v as [change|str]; [|reflexivity].
  destruct (String.eqb k "population_loss"); [reflexivity|].
  destruct (pool_getattr (resources r0) k); reflexivity.
Qed.

Lemma apply_action_effects_region_id (eff : ActionEffects) (r : RegionState) :
  region_id (apply_action_effects eff r) = region_id r.
Proof.
  unfold apply_action_effects.
  destruct (a_water eff), (a_food eff), (a_energy eff), (a_growth eff),
    (a_pop_growth eff), (a_dev_increase eff); reflexivity.
Qed.

Lemma update_basic_resources_ok (rid : string) (b : Q) (r : RegionState) :
  -1 <= b -> region_ok rid b r -> region_ok rid b (_update_basic_resources r).
Proof.
  intros Hb H Hid. rewrite update_basic_resources_region_id in Hid.
  destruct (H Hid) as [Hp Hg]. split.
  - apply update_basic_resources_population; [exact Hp | lra].
  - rewrite update_basic_resources_growth_rate. exact Hg.
Qed.

Lemma apply_ok (rid : string) (b : Q) (ev : ClimaticEvent) (r : RegionState) :
  0 <= severity ev <= 10 -> region_ok rid b r -> region_ok rid b (fst (apply ev r)).
Proof.
  intros Hs H Hid. rewrite apply_region_id in Hid.
  destruct (H Hid) as [Hp Hg]. split.
  - apply apply_population; assumption.
  - unfold apply. destruct (negb _); [exact Hg|].
    rewrite fold_apply_item_growth_rate. exact Hg.
Qed.

Lemma apply_action_effects_ok (rid : string) (b : Q) (i : Z) (eff : ActionEffects)
    (r : RegionState) :
  ACTIONS i = Some eff -> region_ok rid b r ->
  region_ok rid (b - 0.02) (apply_action_effects eff r).
Proof.
  intros Hi Hr Hid. rewrite apply_action_effects_region_id in Hid.
  destruct (Hr Hid) as [Hp Hg]. split.
  - apply apply_action_effects_population; [exact Hp|].
    pose proof (ACTIONS_pop_growth i eff Hi) as H.
    destruct (a_pop_growth eff); [lra | exact I].
  - rewrite apply_action_effects_growth_rate.
    pose proof (ACTIONS_growth i eff Hi) as H.
    destruct (a_growth eff); lra.
Qed.

Lemma set_food_ok (rid : string) (b : Q) (v : Q -> Q) (r : RegionState) :
  region_ok rid b r -> region_ok rid b (set_food v r).
Proof. intro H. exact H. Qed.

Lemma set_energy_ok (rid : string) (b : Q) (v : Q -> Q) (r : RegionState) :
  region_ok rid b r -> region_ok rid b (set_energy v r).
Proof. intro H. exact H. Qed.

Lemma execute_trade_regions_ok (rid : string) (b : Q) (d : dict RegionState)
    (ra rb : string) (strength : Q) :
  Forall (fun kv => region_ok rid b (snd kv)) d ->
  Forall (fun kv => region_ok rid b (snd kv)) (execute_trade_regions d ra rb strength).
Proof.
  intro H. unfold execute_trade_regions.
  repeat (apply store_update_Forall with (P := region_ok rid b);
          [| auto | intros; first [apply set_food_ok | apply set_energy_ok]; assumption]).
  exact H.
Qed.

Section Triples.

Variable rt : Runtime.

Lemma triple_conseq_pre {A : Type} (P P' : WorldSimulation -> Prop) (m : M rt A)
    (Q : A -> WorldSimulation -> Prop) (E : WorldSimulation -> Prop) :
  (forall w, P w -> P' w) -> triple P' m Q E -> triple P m Q E.
Proof. intros HP H s Hs. apply H. apply HP. exact Hs. Qed.

Lemma triple_pure {A : Type} (P : WorldSimulation -> Prop) (phi : Prop) (m : M rt A)
    (Q : A -> WorldSimulation -> Prop) (E : WorldSimulation -> Prop) :
  (phi -> triple P m Q E) -> triple (fun w => P w /\ phi) m Q E.
Proof. intros H s [Hs Hphi]. apply H; assumption. Qed.

Lemma triple_ret {A : Type} (P : WorldSimulation -> Prop) (a : A)
    (Q : A -> WorldSimulation -> Prop) (E : WorldSimulation -> Prop) :
  (forall w, P w -> Q a w) -> triple P (ret rt a) Q E.
Proof. intros H s Hs. cbn. apply H. exact Hs. Qed.

Lemma triple_raise {A : Type} (P : WorldSimulation -> Prop) (e : exn)
    (Q : A -> WorldSimulation -> Prop) (E : WorldSimulation -> Prop) :
  (forall w, P w -> E w) -> triple P (@raise rt A e) Q E.
Proof. intros H s Hs. cbn. apply H. exact Hs. Qed.

Lemma triple_bind {A B : Type} (P : WorldSimulation -> Prop) (m : M rt A)
    (R : A -> WorldSimulation -> Prop) (k : A -> M rt B)
    (Q : B -> WorldSimulation -> Prop) (E : WorldSimulation -> Prop) :
  triple P m R E -> (forall a, triple (R a) (k a) Q E) ->
  triple P (bind rt m k) Q E.
Proof.
  intros Hm Hk s Hs. unfold bind. specialize (Hm s Hs).
  destruct (m s) as [[a|e] s1]; [|exact Hm].
  apply Hk. exact Hm.
Qed.

Lemma triple_get_world (P : WorldSimulation -> Prop) (E : WorldSimulation -> Prop) :
  triple P (get_world rt) (fun _ => P) E.
Proof. intros s Hs. cbn. exact Hs. Qed.

Lemma triple_with_globals {A : Type} (P : WorldSimulation -> Prop)
    (f : Globals rt -> outcome A * Globals rt) (E : WorldSimulation -> Prop) :
  (forall w, P w -> E w) ->
  triple P (with_globals rt f) (fun _ w => P w) E.
Proof.
  intros HE s Hs. unfold with_globals.
  destruct (f (glob s)) as [[a|e] g]; cbn; auto.
Qed.

Lemma triple_draw_np {A : Type} (P : WorldSimulation -> Prop)
    (f : NpState rt -> A * NpState rt) (E : WorldSimulation -> Prop) :
  triple P (draw_np rt f) (fun a w => P w /\ exists st, a = fst (f st)) E.
Proof.
  intros s Hs. unfold draw_np, with_globals.
  destruct (f (np (glob s))) as [a np'] eqn:F. cbn.
  split; [exact Hs|]. exists (np (glob s)). now rewrite F.
Qed.

Lemma triple_lookup {V : Type} (P : WorldSimulation -> Prop) (d : dict V)
    (k : string) (E : WorldSimulation -> Prop) :
  (forall w, P w -> E w) ->
  triple P (lookup rt d k) (fun v w => P w /\ dict_get d k = Some v) E.
Proof.
  intros HE s Hs. unfold lookup.
  destruct (dict_get d k); cbn; auto.
Qed.

Lemma triple_modify_world (P : WorldSimulation -> Prop)
    (f : WorldSimulation -> WorldSimulation)
    (Q : unit -> WorldSimulation -> Prop) (E : WorldSimulation -> Prop) :
  (forall w, P w -> Q tt (f w)) -> triple P (modify_world rt f) Q E.
Proof. intros H s Hs. cbn. apply H. exact Hs. Qed.

Lemma triple_for_each {A : Type} (I : WorldSimulation -> Prop) (xs : list A)
    (body : A -> M rt unit) (E : WorldSimulation -> Prop) :
  (forall x, triple I (body x) (fun _ => I) E) ->
  triple I (for_each rt xs body) (fun _ => I) E.
Proof.
  intro Hb. induction xs as [|x xs IH]; cbn [for_each].
  - apply triple_ret. auto.
  - eapply triple_bind; [apply Hb|]. intros ?. exact IH.
Qed.

(** [modify_region] with a function that takes regions satisfying [P] to
    regions satisfying [P']. *)
Lemma triple_modify_region (id : string) (b b' : Q) (rid : string)
    (f : RegionState -> RegionState) (E : WorldSimulation -> Prop) :
  b' <= b ->
  (forall r, region_ok id b r -> region_ok id b' (f r)) ->
  triple (regions_ok id b) (modify_region rt rid f) (fun _ => regions_ok id b') E.
Proof.
  intros Hb Hf. apply triple_modify_world. intros w Hw.
  unfold regions_ok in *. cbn.
  apply store_update_Forall with (P := region_ok id b); auto.
  intros r. apply region_ok_weaken. exact Hb.
Qed.

Section Step.

Hypothesis uniform_in_range : np_uniform_in_range rt.

Variable id : string.

Variable b : Q.

Hypothesis b_above_minus_one : -1 <= b.

Let E : WorldSimulation -> Prop := regions_ok id (b - 0.02).

Lemma ok_E (w : WorldSimulation) : regions_ok id b w -> E w.
Proof. apply regions_ok_weaken. lra. Qed.

Lemma generate_climatic_event_triple :
  triple (regions_ok id b) (_generate_climatic_event rt)
    (fun event w =>
       regions_ok id b w /\
       match event with
       | Some ev => 0 <= severity ev <= 10
       | None => True
       end) E.
Proof.
  unfold _generate_climatic_event, datetime_now.
  eapply triple_bind; [apply triple_draw_np|]. intro u.
  cbv beta; apply triple_pure. intros ?.
  destruct (Qltb 0.15 u); [apply triple_ret; auto|].
  eapply triple_bind; [apply triple_get_world|]. intro w.
  eapply triple_bind; [apply triple_draw_np|]. intro ty.
  cbv beta; apply triple_pure. intros ?.
  eapply triple_bind; [apply triple_draw_np|]. intro k.
  cbv beta; apply triple_pure. intros ?.
  eapply triple_bind with (R := fun _ => regions_ok id b).
  { destruct (_ || _); [apply triple_raise; apply ok_E | apply triple_ret; auto]. }
  intros ?.
  eapply triple_bind; [apply triple_draw_np|]. intro aff.
  cbv beta; apply triple_pure. intros ?.
  eapply triple_bind; [apply triple_draw_np|]. intro sev.
  cbv beta; apply triple_pure. intros [st Hsev].
  eapply triple_bind; [apply triple_with_globals; apply ok_E|]. intro t.
  apply triple_ret. intros w' Hw'. split; [exact Hw'|]. cbn.
  subst sev.
  assert (Hrange : 0.5 <= fst (np_uniform rt 0.5 1.5 st) <= 1.5)
    by (apply uniform_in_range; lra).
  lra.
Qed.

(** The turn of a region never returns; it leaves growth rates at most
    0.02 lower. *)
Lemma agent_turn_triple (cycle_data : CycleReport) (rid : string) :
  triple (regions_ok id b) (agent_turn rt cycle_data rid) (fun _ _ => False) E.
Proof.
  unfold agent_turn.
  eapply triple_bind; [apply triple_get_world|]. intro w.
  eapply triple_bind; [apply triple_lookup; apply ok_E|]. intro region.
  cbv beta; apply triple_pure. intros ?.
  eapply triple_bind; [apply triple_lookup; apply ok_E|]. intro agent.
  cbv beta; apply triple_pure. intros ?.
  eapply triple_bind; [apply triple_with_globals; apply ok_E|].
  intros [action_idx action_name].
  eapply triple_bind
    with (R := fun eff w => regions_ok id b w /\ ACTIONS action_idx = Some eff).
  { destruct (ACTIONS action_idx) as [eff|];
      [apply triple_ret; auto | apply triple_raise; apply ok_E]. }
  intro action_effects. cbv beta; apply triple_pure. intro Heff.
  eapply triple_bind.
  { apply triple_modify_region with (b' := b - 0.02); [lra|].
    intro r. apply (apply_action_effects_ok id b action_idx). exact Heff. }
  intros ?.
  eapply triple_bind; [apply triple_get_world|]. intro w'.
  eapply triple_bind; [apply triple_lookup; auto|]. intro region'.
  cbv beta; apply triple_pure. intros ?.
  eapply triple_bind with (R := fun _ _ => False).
  { intros s Hs. cbn. exact Hs. }
  intros done s [].
Qed.

Lemma agent_turns_triple (keys : list string) (cycle_data : CycleReport) :
  triple (regions_ok id b) (fold_M rt keys cycle_data (agent_turn rt))
    (fun _ => E) E.
Proof.
  destruct keys as [|rid keys]; cbn [fold_M].
  - apply triple_ret. apply ok_E.
  - eapply triple_bind; [apply agent_turn_triple|].
    intros cd s [].
Qed.

Lemma execute_trades_triple :
  triple E (execute_trades rt) (fun _ => E) E.
Proof.
  unfold execute_trades.
  eapply triple_bind; [apply triple_get_world|]. intro w.
  apply triple_for_each. intros [region_a_id partners].
  apply triple_for_each. intros [region_b_id strength].
  destruct (String.ltb region_a_id region_b_id); [|apply triple_ret; auto].
  eapply triple_bind; [apply triple_draw_np|]. intro u.
  cbv beta; apply triple_pure. intros ?.
  destruct (Qltb 0.5 u); [|apply triple_ret; auto].
  eapply triple_bind; [apply triple_get_world|]. intro w'.
  eapply triple_bind; [apply triple_lookup; auto|]. intro ra.
  cbv beta; apply triple_pure. intros ?.
  eapply triple_bind; [apply triple_lookup; auto|]. intro rb.
  cbv beta; apply triple_pure. intros ?.
  intros s Hs. unfold execute_trade.
  destruct (now rt (clk (glob s))) as [t clk']. cbn.
  unfold E, regions_ok in *. cbn.
  apply execute_trade_regions_ok. exact Hs.
Qed.

(** One call of [step], whether it returns or raises. *)
Lemma step_triple :
  triple (regions_ok id b) (step rt) (fun _ => E) E.
Proof.
  unfold step, datetime_now.
  eapply triple_bind; [apply triple_get_world|]. intro w.
  eapply triple_bind; [apply triple_with_globals; apply ok_E|]. intro t.
  eapply triple_bind.
  { apply triple_for_each. intro rid.
    apply triple_modify_region with (b' := b); [lra|].
    intro r. apply update_basic_resources_ok. exact b_above_minus_one. }
  intros ?.
  eapply triple_bind; [apply generate_climatic_event_triple|]. intro event.
  cbv beta; apply triple_pure. intro Hev.
  eapply triple_bind with (R := fun _ => regions_ok id b).
  { destruct event as [ev|]; [|apply triple_ret; auto].
    eapply triple_bind with (R := fun _ => regions_ok id b);
      [apply triple_modify_world; auto|]. intros ?.
    eapply triple_bind; [|intros ?; apply triple_ret; intros w' Hw'; exact Hw'].
    apply triple_for_each. intro rid.
    apply triple_modify_region with (b' := b); [lra|].
    intro r. apply apply_ok. exact Hev. }
  intro cycle_data.
  eapply triple_bind; [apply agent_turns_triple|]. intro cycle_data'.
  eapply triple_bind; [apply execute_trades_triple|]. intros ?.
  eapply triple_bind with (R := fun _ => E); [apply triple_modify_world; auto|]. intros ?.
  eapply triple_bind with (R := fun _ => E); [apply triple_modify_world; auto|]. intros ?.
  apply triple_ret. auto.
Qed.

End Step.

End Triples.


(** *** Population along a sequence of [step] calls *)

Lemma regions_ok_halves (rid : string) (b : Q) (w : WorldSimulation) :
  regions_ok rid b w <-> population_nonneg rid w /\ growth_rate_at_least rid b w.
Proof.
  unfold regions_ok, region_ok, population_nonneg, growth_rate_at_least.
  rewrite !Forall_forall. split.
  - intro H. split; intros kv Hin Hid; apply (H kv Hin Hid).
  - intros [Hp Hg] kv Hin Hid. split; [apply (Hp kv Hin Hid) | apply (Hg kv Hin Hid)].
Qed.

(** One call of [step], returning or raising, keeps the population of a
    region non-negative when the call begins with the region's growth
    rate at or above -1. *)
Lemma step_population_nonneg (rt : Runtime) (rid : string) (s : Sim rt) :
  np_uniform_in_range rt ->
  population_nonneg rid (world s) ->
  growth_rate_at_least rid (-1) (world s) ->
  population_nonneg rid (world (snd (step rt s))).
Proof.
  intros Hrt Hp Hg.
  assert (Hs : regions_ok rid (-1) (world s)) by (apply regions_ok_halves; auto).
  assert (Hb : -1 <= -1) by lra.
  pose proof (step_triple rt Hrt rid (-1) Hb s Hs) as Hstep.
  destruct (step rt s) as [o s']. cbn [snd].
  assert (Hs' : regions_ok rid (-1 - 0.02) (world s')) by (destruct o; exact Hstep).
  apply regions_ok_halves in Hs'. apply Hs'.
Qed.

(** C4, amended.  Take any region and any number [n] of [step] calls,
    returning or raising.  If the region's population is non-negative
    before the first call and the region's growth rate is at least -1
    when each of the [n] calls begins, the region's population is
    non-negative after the last call: natural growth, event losses
    (severity drawn from [[0.5, 1.5]]) and action effects all keep it
    so.  Nothing is asked of the other regions, and nothing bounds [n];
    only a call that begins with the region's own growth rate below -1
    is left out. *)
Theorem population_nonneg_through_steps (rt : Runtime) (n : nat) (rid : string) :
  np_uniform_in_range rt ->
  forall s : Sim rt,
    population_nonneg rid (world s) ->
    (forall k, (k < n)%nat ->
       growth_rate_at_least rid (-1) (world (snd (steps rt k s)))) ->
    population_nonneg rid (world (snd (steps rt n s))).
Proof.
  intro Hrt. induction n as [|n IH]; intros s Hp Hpath.
  - exact Hp.
  - assert (Hg : growth_rate_at_least rid (-1) (world s))
      by (apply (Hpath 0%nat); lia).
    pose proof (step_population_nonneg rt rid s Hrt Hp Hg) as Hp'.
    assert (Hpath' : forall k, (k < n)%nat ->
              growth_rate_at_least rid (-1) (world (snd (steps rt k (snd (step rt s)))))).
    { intros k Hk. specialize (Hpath (S k) ltac:(lia)).
      cbn [steps] in Hpath.
      destruct (step rt s) as [o s']. cbn [snd].
      destruct (steps rt k s') as [os s'']. exact Hpath. }
    specialize (IH (snd (step rt s)) Hp' Hpath').
    cbn [steps]. destruct (step rt s) as [o s']. cbn [snd] in IH.
    destruct (steps rt n s') as [os s'']. exact IH.
Qed.

Lemma unit_interval_range (u : Q) :
  0 <= Script.unit_interval u /\ Script.unit_interval u < 1.
Proof.
  unfold Script.unit_interval. repeat case_Qltb; lra.
Qed.

(** The scripted runtime draws [uniform(lo, hi)] inside [[lo, hi]]. *)
Lemma script_uniform_in_range : np_uniform_in_range Script.runtime.
Proof.
  intros lo hi st Hle. cbn. unfold Script.pop_Q.
  destruct st as [|u rest]; cbn [fst].
  - nra.
  - pose proof (unit_interval_range u) as [H0 H1]. nra.
Qed.

Lemma forall_below (n : nat) (P : nat -> Prop) :
  Forall P (seq 0 n) -> forall k, (k < n)%nat -> P k.
Proof.
  intros H k Hk. rewrite Forall_forall in H. apply H.
  apply in_seq. lia.
Qed.

(** C4, amended, on a world of two regions: [region_0] conserves in every
    cycle and its growth rate falls without bound, [region_1] keeps its
    growth rate of 0.02, and its population is non-negative after 100
    cycles. *)
Lemma population_nonneg_region_1_through_100_cycles :
  population_nonneg "region_1"
    (world (snd (steps Script.runtime 100 two_region_sim))).
Proof.
  apply (population_nonneg_through_steps Script.runtime 100 "region_1"
           script_uniform_in_range two_region_sim).
  - vm_compute. repeat constructor; intro H; first [discriminate H | discriminate].
  - apply forall_below. cbv [seq].
    repeat (constructor;
            [vm_compute;
             repeat constructor; intro H; first [discriminate H | discriminate]|]).
    constructor.
Defined.

(** C4, as stated, fails.  The world is built by the constructor with a
    population of 100.  Fifteen production actions raise it to 256,
    where [food <= population * 8] freezes it; fifty-two conservation
    actions take the growth rate from 0.02 to -1.02; a plague in cycle
    68 lowers the population to 230, so that [food > population * 8]
    holds again; cycle 69 then sets the population to
    [int(230 * (1 - 1.02)) = -4]. *)
Lemma population_negative_after_69_cycles :
  option_map population (region_0 conserving_sim) = Some 100%Z /\
  option_map population (region_0 (snd (steps Script.runtime 67 conserving_sim)))
    = Some 256%Z /\
  option_map (fun r => Qred (growth_rate r))
    (region_0 (snd (steps Script.runtime 67 conserving_sim))) = Some (-51 # 50) /\
  option_map population (region_0 (snd (steps Script.runtime 68 conserving_sim)))
    = Some 230%Z /\
  option_map population (region_0 (snd (steps Script.runtime 69 conserving_sim)))
    = Some (-4)%Z.
Proof. repeat split; vm_compute; reflexivity. Qed.

(** *** Resource ledger: sequences of calls *)

(** X1. Every sequence of [deplete] and [replenish] calls with
    non-negative amounts keeps a ledger that is in range in range. *)
Theorem run_ops_in_range (p : ResourcePool) (ops : list ledger_op) :
  in_range p = true ->
  Forall amounts_nonneg ops ->
  in_range (run_ops p ops) = true.
Proof.
  intros Hp Hops. unfold run_ops. revert p Hp.
  induction Hops as [|op ops Hop Hops IH]; intros p Hp; cbn [fold_left].
  - exact Hp.
  - apply IH. destruct op as [w f e l|w f e l]; cbn in Hop |- *;
      destruct Hop as (Hw & Hf & He & Hl);
      [apply deplete_in_range | apply replenish_in_range]; assumption.
Qed.

Lemma run_ops_in_range_witness :
  in_range (run_ops (ResourcePool_new 1000 1000 1000 1000)
              [Deplete 1500 0 20 0; Replenish 700 1500 0 0; Deplete 0 0 0 5]) = true.
Proof.
  apply run_ops_in_range.
  - reflexivity.
  - repeat constructor; cbn; discriminate.
Defined.

(** X2. [deplete] leaves no stock negative and [replenish] leaves no
    stock above its cap, whatever the ledger and the amounts (of either
    sign) were. *)
Theorem deplete_floor_replenish_cap (p : ResourcePool) (w f e l : Q) :
  stocks_nonneg (deplete p w f e l) /\
  (water (replenish p w f e l) <= max_water p /\
   food (replenish p w f e l) <= max_food p /\
   energy (replenish p w f e l) <= max_energy p /\
   land (replenish p w f e l) <= max_land p).
Proof.
  unfold stocks_nonneg, deplete, replenish. cbn.
  repeat split; first [apply py_max_ge_l | apply py_min_le_l].
Qed.

(** X3. The clamps are one-sided, for each of the four stocks: on a
    ledger without negative stocks, [deplete] with negative amounts adds
    them with no regard to the caps, and on a ledger within its caps
    [replenish] with negative amounts subtracts them with no regard
    to 0. *)
Theorem negative_amounts_bypass_the_clamps (p : ResourcePool) (w f e l : Q) :
  0 <= w -> 0 <= f -> 0 <= e -> 0 <= l ->
  (stocks_nonneg p ->
   water (deplete p (- w) (- f) (- e) (- l)) == water p + w /\
   food (deplete p (- w) (- f) (- e) (- l)) == food p + f /\
   energy (deplete p (- w) (- f) (- e) (- l)) == energy p + e /\
   land (deplete p (- w) (- f) (- e) (- l)) == land p + l) /\
  (water p <= max_water p -> food p <= max_food p ->
   energy p <= max_energy p -> land p <= max_land p ->
   water (replenish p (- w) (- f) (- e) (- l)) == water p - w /\
   food (replenish p (- w) (- f) (- e) (- l)) == food p - f /\
   energy (replenish p (- w) (- f) (- e) (- l)) == energy p - e /\
   land (replenish p (- w) (- f) (- e) (- l)) == land p - l).
Proof.
  intros Hw Hf He Hl. unfold stocks_nonneg, deplete, replenish, py_max, py_min. cbn.
  split.
  - intros (H1 & H2 & H3 & H4). repeat split; case_Qltb; lra.
  - intros H1 H2 H3 H4. repeat split; case_Qltb; lra.
Qed.

Lemma negative_amounts_bypass_witness :
  (let p := deplete (ResourcePool_new 2000 2000 2000 1000) (- 200) (- 100) (- 150) (- 50) in
   water p == 2000 + 200 /\ food p == 2000 + 100 /\
   energy p == 2000 + 150 /\ land p == 1000 + 50) /\
  (let p := replenish (ResourcePool_new 100 50 20 10) (- 200) (- 100) (- 150) (- 50) in
   water p == 100 - 200 /\ food p == 50 - 100 /\
   energy p == 20 - 150 /\ land p == 10 - 50).
Proof.
  split; cbv zeta.
  - apply (negative_amounts_bypass_the_clamps
             (ResourcePool_new 2000 2000 2000 1000) 200 100 150 50);
      try (cbn; discriminate).
    repeat split; cbn; discriminate.
  - apply (negative_amounts_bypass_the_clamps
             (ResourcePool_new 100 50 20 10) 200 100 150 50);
      cbn; discriminate.
Defined.

(** X4. Depletion never cures a critical ledger, and replenishment
    never makes a ledger critical when the caps are at least 100
    (amounts non-negative). *)
Theorem criticality_is_monotone (p : ResourcePool) (w f e l : Q) :
  0 <= w -> 0 <= f -> 0 <= e -> 0 <= l ->
  (is_critical p = true -> is_critical (deplete p w f e l) = true) /\
  (100 <= max_water p -> 100 <= max_food p -> 100 <= max_energy p ->
   is_critical p = false -> is_critical (replenish p w f e l) = false).
Proof.
  intros Hw Hf He Hl. unfold is_critical, deplete, replenish, py_max, py_min. cbn. split.
  - rewrite !orb_true_iff, !Qltb_lt. intros [[H|H]|H].
    + left. left. case_Qltb; lra.
    + left. right. case_Qltb; lra.
    + right. case_Qltb; lra.
  - intros Mw Mf Me. rewrite !orb_false_iff, !Qltb_ge. intros [[H1 H2] H3].
    repeat split; case_Qltb; lra.
Qed.

Lemma criticality_is_monotone_witness :
  is_critical (deplete (ResourcePool_new 50 1000 1000 1000) 10 0 0 0) = true /\
  is_critical (replenish (ResourcePool_new 500 500 500 1000) 10 0 0 0) = false.
Proof.
  destruct (criticality_is_monotone (ResourcePool_new 50 1000 1000 1000) 10 0 0 0)
    as [H1 _]; try (cbn; discriminate).
  destruct (criticality_is_monotone (ResourcePool_new 500 500 500 1000) 10 0 0 0)
    as [_ H2]; try (cbn; discriminate).
  split; [apply H1; reflexivity | apply H2; try reflexivity; cbn; discriminate].
Defined.

(** *** Learner: the replay buffer *)

Lemma lastn_all {A : Type} (k : nat) (xs : list A) :
  (List.length xs <= k)%nat -> lastn k xs = xs.
Proof.
  intro H. unfold lastn. replace (List.length xs - k)%nat with 0%nat by lia.
  reflexivity.
Qed.

Lemma lastn_length {A : Type} (k : nat) (xs : list A) :
  List.length (lastn k xs) = Nat.min k (List.length xs).
Proof. unfold lastn. rewrite length_skipn. lia. Qed.

Lemma lastn_app_lastn {A : Type} (k : nat) (xs ys : list A) :
  lastn k (lastn k xs ++ ys) = lastn k (xs ++ ys).
Proof.
  destruct (Nat.le_gt_cases (List.length xs) k) as [H|H].
  - now rewrite (lastn_all k xs H).
  - unfold lastn at 1 3. rewrite !length_app, lastn_length.
    replace (Nat.min k (List.length xs)) with k by lia.
    unfold lastn.
    rewrite (skipn_app (List.length xs + List.length ys - k)).
    rewrite (skipn_app (k + List.length ys - k)).
    rewrite length_skipn, skipn_skipn.
    replace (k + List.length ys - k + (List.length xs - k))%nat
      with (List.length xs + List.length ys - k)%nat by lia.
    f_equal. f_equal. lia.
Qed.

Lemma remember_memory (a : DQNAgent) (t : Transition) :
  (List.length (memory a) <= memory_maxlen)%nat ->
  memory (remember a t) = lastn memory_maxlen (memory a ++ [t]).
Proof.
  intro H. unfold remember.
  assert (Hk : (1 <= memory_maxlen)%nat) by (unfold memory_maxlen; lia).
  generalize dependent memory_maxlen. intros k H Hk.
  destruct (Nat.leb_spec k (List.length (memory a))) as [L|L]; cbn [memory set_memory].
  - unfold lastn. rewrite length_app. cbn [List.length].
    replace (List.length (memory a) + 1 - k)%nat with 1%nat by lia.
    destruct (memory a) as [|m0 ms]; [cbn in L; lia|]. reflexivity.
  - rewrite lastn_all; [reflexivity|]. rewrite length_app. cbn. lia.
Qed.

(** X5. The replay buffer is a FIFO of capacity 2000: after any sequence
    of [remember] calls the buffer holds the last 2000 of the
    transitions it held before followed by the remembered ones, in
    order; in particular it never holds more than 2000. *)
Theorem remember_all_keeps_last_2000 (a : DQNAgent) (ts : list Transition) :
  (List.length (memory a) <= 2000)%nat ->
  memory (remember_all a ts) = lastn 2000 (memory a ++ ts) /\
  (List.length (memory (remember_all a ts)) <= 2000)%nat.
Proof.
  change 2000%nat with memory_maxlen. intro H.
  assert (E : memory (remember_all a ts) = lastn memory_maxlen (memory a ++ ts)).
  { unfold remember_all. revert a H. induction ts as [|t ts IH]; intros a H.
    - cbn [fold_left]. rewrite app_nil_r. symmetry. now apply lastn_all.
    - cbn [fold_left]. rewrite IH.
      + rewrite (remember_memory a t H), lastn_app_lastn, <- app_assoc. reflexivity.
      + rewrite (remember_memory a t H), lastn_length. lia. }
  split; [exact E|]. rewrite E, lastn_length. lia.
Qed.

Lemma remember_all_witness :
  memory (remember_all trained_once [one_transition; one_transition])
  = lastn 2000 (memory trained_once ++ [one_transition; one_transition]) /\
  (List.length (memory (remember_all trained_once [one_transition; one_transition]))
   <= 2000)%nat.
Proof.
  apply remember_all_keeps_last_2000.
  change (List.length (memory trained_once)) with 1%nat. lia.
Defined.

(** *** Learner: the greedy choice *)

(** [argmax_from] scans the rest of a list whose scanned prefix [pre]
    has its maximum [best] at index [best_i]. *)
Lemma argmax_from_spec (xs : list Q) :
  forall (pre : list Q) (best_i : Z) (best : Q),
    (0 <= best_i < Z.of_nat (List.length pre))%Z ->
    nth (Z.to_nat best_i) pre 0 = best ->
    Forall (fun v => v <= best) pre ->
    let r := argmax_from best_i best (Z.of_nat (List.length pre)) xs in
    (0 <= r < Z.of_nat (List.length (pre ++ xs)))%Z /\
    Forall (fun v => v <= nth (Z.to_nat r) (pre ++ xs) 0) (pre ++ xs).
Proof.
  induction xs as [|y xs IH]; intros pre best_i best Hi Hn Hall; cbn zeta.
  - cbn [argmax_from]. rewrite app_nil_r. split; [exact Hi|]. now rewrite Hn.
  - cbn [argmax_from].
    replace (Z.of_nat (List.length pre) + 1)%Z
      with (Z.of_nat (List.length (pre ++ [y])))
      by (rewrite length_app; cbn [List.length]; lia).
    replace (pre ++ y :: xs) with ((pre ++ [y]) ++ xs)
      by (rewrite <- app_assoc; reflexivity).
    destruct (Qltb best y) eqn:E.
    + apply Qltb_lt in E. apply IH.
      * rewrite length_app. cbn [List.length]. lia.
      * rewrite Nat2Z.id, app_nth2 by lia. now rewrite Nat.sub_diag.
      * apply Forall_app. split.
        -- eapply Forall_impl; [|exact Hall]. cbn. intros v Hv. lra.
        -- constructor; [lra | constructor].
    + apply Qltb_ge in E. apply IH.
      * rewrite length_app. cbn [List.length]. lia.
      * rewrite app_nth1 by lia. exact Hn.
      * apply Forall_app. split; [exact Hall|]. constructor; [exact E | constructor].
Qed.

(** X6. Whenever [act] does not explore (outside training, or in
    training when the exploration draw is not below ε) and there is at
    least one action value, it returns a valid index into the action
    values and leaves the [random] module's generator and the clock
    alone; outside training it reads numpy's generator neither. *)
Theorem act_without_exploration (rt : Runtime) (a : DQNAgent) (state : list Q)
    (training : bool) (g : Globals rt) :
  q_values a <> [] ->
  (training = true -> Qltb (fst (np_random rt (np g))) (epsilon a) = false) ->
  exists i,
    fst (act rt a state training g) = Ret i /\
    (0 <= i < Z.of_nat (List.length (q_values a)))%Z /\
    py (snd (act rt a state training g)) = py g /\
    clk (snd (act rt a state training g)) = clk g /\
    (training = false -> snd (act rt a state training g) = g).
Proof.
  intros Hq Hu.
  assert (G : exists i,
             np_argmax (q_estimates (q_values a) state) = Ret i /\
             (0 <= i < Z.of_nat (List.length (q_values a)))%Z).
  { unfold q_estimates. destruct (q_values a) as [|x rest]; [contradiction|].
    cbn [map np_argmax]. eexists. split; [reflexivity|].
    match goal with
    | |- context [argmax_from 0%Z ?x' 1%Z ?rest'] =>
        pose proof (argmax_from_spec rest' [x'] 0%Z x') as S
    end.
    cbn zeta in S. destruct S as [S _].
    - cbn. lia.
    - reflexivity.
    - constructor; [lra | constructor].
    - cbn [List.length app] in S. rewrite length_map in S.
      cbn [List.length]. exact S. }
  destruct G as (i & Gi & Hi). exists i.
  unfold act. destruct training.
  - specialize (Hu eq_refl).
    destruct (np_random rt (np g)) as [u np'] eqn:R. cbn [fst] in Hu.
    rewrite Hu, Gi. cbn [fst snd py clk].
    split; [reflexivity|]. split; [exact Hi|].
    split; [reflexivity|]. split; [reflexivity|]. intro H. discriminate H.
  - rewrite Gi. cbn [fst snd].
    split; [reflexivity|]. split; [exact Hi|].
    split; [reflexivity|]. split; reflexivity.
Qed.

Lemma act_without_exploration_witness :
  exists i,
    fst (act Script.runtime trained_once (repeat 0.5 12) false (Script.globals [] [] 0))
    = Ret i /\
    (0 <= i < Z.of_nat (List.length (q_values trained_once)))%Z /\
    py (snd (act Script.runtime trained_once (repeat 0.5 12) false
               (Script.globals [] [] 0))) = py (Script.globals [] [] 0) /\
    clk (snd (act Script.runtime trained_once (repeat 0.5 12) false
                (Script.globals [] [] 0))) = clk (Script.globals [] [] 0) /\
    (false = false ->
     snd (act Script.runtime trained_once (repeat 0.5 12) false (Script.globals [] [] 0))
     = Script.globals [] [] 0).
Proof.
  apply act_without_exploration.
  - vm_compute. discriminate.
  - discriminate.
Defined.

(** *** Learner: what [replay] keeps, returns and refuses *)

Lemma replay_loop_total (batch : list Transition) :
  forall a acc total a',
    replay_loop a batch acc = (Ret total, a') -> acc <= total.
Proof.
  induction batch as [|t batch IH]; intros a acc total a' H; cbn [replay_loop] in H.
  - injection H as <- _. lra.
  - destruct (if t_done t then _ else _) as [target|e] in H; [|discriminate].
    destruct (np_index _ _) as [i|e] in H; [|discriminate].
    apply IH in H.
    match type of H with
    | acc + Qabs ?x <= _ => pose proof (Qabs_nonneg x)
    end.
    lra.
Qed.

(** X7. A call of [replay] that returns, returns a loss that is not
    negative; and whatever its outcome, the call leaves the buffer, the
    learning rate, the discount, [epsilon_min], [epsilon_decay] and the
    number of action values as they were and adds at most one entry to
    the loss history. *)
Theorem replay_frame (rt : Runtime) (a : DQNAgent) (batch_size : Z)
    (g : Globals rt) :
  let '(o, a', _) := replay rt a batch_size g in
  (forall loss, o = Ret loss -> 0 <= loss) /\
  memory a' = memory a /\
  learning_rate a' = learning_rate a /\ gamma a' = gamma a /\
  epsilon_min a' = epsilon_min a /\ epsilon_decay a' = epsilon_decay a /\
  List.length (q_values a') = List.length (q_values a) /\
  (loss_history a' = loss_history a \/
   exists loss, o = Ret loss /\ loss_history a' = loss_history a ++ [loss]).
Proof.
  unfold replay.
  destruct (Z.of_nat (List.length (memory a)) <? batch_size)%Z.
  { repeat split; auto. intros loss H. injection H as <-. lra. }
  destruct (batch_size <? 0)%Z eqn:Hneg.
  { repeat split; auto. intros loss H. discriminate. }
  destruct (py_sample rt Transition (memory a) batch_size (py g)) as [batch py'].
  destruct (replay_loop a batch 0.0) as [[total|e] a1] eqn:L.
  - pose proof (replay_loop_total _ _ _ _ _ L) as Htot.
    apply replay_loop_frame in L. unfold same_but_q_values in L.
    destruct L as (_ & _ & L3 & L4 & L5 & L6 & L7 & L8 & L9 & L10).
    destruct (batch_size =? 0)%Z eqn:Hz.
    + repeat split; auto. intros loss H. discriminate.
    + match goal with
      | |- context [decay_epsilon ?x] =>
          pose proof (epsilon_decay_epsilon x) as D;
          assert (D' : learning_rate (decay_epsilon x) = learning_rate x /\
                       gamma (decay_epsilon x) = gamma x /\
                       loss_history (decay_epsilon x) = loss_history x)
            by (unfold decay_epsilon; destruct (Qltb _ _); cbn; auto)
      end.
      cbn in D, D'. destruct D as (_ & D2 & D3 & D4 & D5).
      destruct D' as (D6 & D7 & D8).
      rewrite D2, D3, D4, D5, D6, D7, D8.
      repeat split; auto.
      * intros loss H. injection H as <-.
        apply Z.ltb_ge in Hneg. apply Z.eqb_neq in Hz.
        assert (Hpos : 0 < inject_Z batch_size).
        { change 0 with (inject_Z 0). rewrite <- Zlt_Qlt. lia. }
        apply Qle_shift_div_l; [exact Hpos | lra].
      * right. eexists. split; [reflexivity|]. now rewrite L9.
  - apply replay_loop_frame in L. unfold same_but_q_values in L.
    destruct L as (_ & _ & L3 & L4 & L5 & L6 & L7 & L8 & L9 & L10).
    repeat split; auto. intros loss H. discriminate.
Qed.

(** X8. [replay(batch_size)] with [batch_size <= 0] never returns: a
    negative size raises [ValueError] with the agent untouched, and size
    0 ends in an exception too (the division of the total loss by 0, if
    the update loop did not raise before); ε and the loss history are as
    they were. *)
Theorem replay_nonpositive_batch_raises (rt : Runtime) (a : DQNAgent)
    (batch_size : Z) (g : Globals rt) :
  (batch_size <= 0)%Z ->
  exists e a' g',
    replay rt a batch_size g = (Raise e, a', g') /\
    epsilon a' = epsilon a /\
    loss_history a' = loss_history a /\
    ((batch_size < 0)%Z -> e = ValueError /\ a' = a /\ g' = g).
Proof.
  intro H. unfold replay.
  assert (Hlen : (Z.of_nat (List.length (memory a)) <? batch_size)%Z = false)
    by (apply Z.ltb_ge; lia).
  rewrite Hlen.
  destruct (batch_size <? 0)%Z eqn:Hneg.
  { exists ValueError, a, g. repeat split; reflexivity. }
  apply Z.ltb_ge in Hneg. assert (batch_size = 0%Z) by lia. subst batch_size.
  destruct (py_sample rt Transition (memory a) 0 (py g)) as [batch py'].
  destruct (replay_loop a batch 0.0) as [[total|e] a1] eqn:L;
    apply replay_loop_frame in L; unfold same_but_q_values in L;
    destruct L as (_ & _ & _ & _ & L5 & _ & _ & _ & L9 & _);
    cbn [Z.eqb]; eexists; eexists; eexists;
    (split; [reflexivity|]); repeat split; auto; lia.
Qed.

Lemma replay_nonpositive_batch_witness :
  exists e a' g',
    replay Script.runtime trained_once 0 (Script.globals [] [] 0) = (Raise e, a', g') /\
    epsilon a' = epsilon trained_once /\
    loss_history a' = loss_history trained_once /\
    ((0 < 0)%Z -> e = ValueError /\ a' = trained_once /\ g' = Script.globals [] [] 0).
Proof.
  apply replay_nonpositive_batch_raises. lia.
Defined.

(** X9. Across any number of [replay] calls the exploration rate never
    grows and never falls below [epsilon_min * epsilon_decay] (0.00995
    for a learner built by the constructor), which is the floor the
    guarded multiplication keeps. *)
Theorem replays_epsilon_floor (rt : Runtime) (n : nat) :
  forall (a : DQNAgent) (batch_size : Z) (g : Globals rt),
    0 <= epsilon_decay a <= 1 ->
    0 <= epsilon_min a ->
    epsilon_min a * epsilon_decay a <= epsilon a ->
    let a' := snd (fst (replays rt n a batch_size g)) in
    epsilon_min a * epsilon_decay a <= epsilon a' /\ epsilon a' <= epsilon a.
Proof.
  induction n as [|n IH]; intros a bs g Hd Hm He; cbn zeta.
  - cbn. split; [exact He | lra].
  - cbn [replays].
    destruct (replay rt a bs g) as [[o a1] g1] eqn:R.
    pose proof (replay_epsilon_bounds rt a bs g o a1 g1 R Hd Hm He) as [B1 B2].
    pose proof (replay_epsilon rt a bs g o a1 g1 R) as (P1 & P2 & _).
    assert (Hd1 : 0 <= epsilon_decay a1 <= 1) by (rewrite P2; exact Hd).
    assert (Hm1 : 0 <= epsilon_min a1) by (rewrite P1; exact Hm).
    specialize (IH a1 bs g1 Hd1 Hm1 B2). cbn zeta in IH.
    destruct (replays rt n a1 bs g1) as [[os a2] g2]. cbn [fst snd] in *.
    rewrite P1, P2 in IH. split; [tauto | lra].
Qed.

Lemma replays_epsilon_floor_witness :
  let a' := snd (fst (replays Script.runtime 919 trained_once 1 (Script.globals [] [] 0))) in
  epsilon_min trained_once * epsilon_decay trained_once <= epsilon a' /\
  epsilon a' <= epsilon trained_once.
Proof.
  apply replays_epsilon_floor; vm_compute; try split; discriminate.
Defined.

(** *** Regional agent: state vector and reward *)

(** X10. The state vector has twelve components and every one of them
    lies in [[0, 1]], whatever the region holds. *)
Theorem get_state_vector_shape (s : StateDict) :
  List.length (get_state_vector s) = 12%nat /\
  Forall (fun x => 0 <= x <= 1) (get_state_vector s).
Proof.
  unfold get_state_vector. split; [reflexivity|].
  cbn [map]. repeat constructor; apply np_clip_range; lra.
Qed.

(** The weighted sum [calculate_reward] clamps. *)
Lemma np_clip_inside (x lo hi : Q) : lo <= x <= hi -> np_clip x lo hi = x.
Proof.
  intros [H1 H2]. unfold np_clip.
  destruct (Qltb x lo) eqn:E1; [apply Qltb_lt in E1; lra|].
  destruct (Qltb hi x) eqn:E2; [apply Qltb_lt in E2; lra|]. reflexivity.
Qed.

Lemma np_clip_monotone (x y lo hi : Q) :
  lo <= hi -> x <= y -> np_clip x lo hi <= np_clip y lo hi.
Proof.
  intros Hlh Hxy. unfold np_clip. repeat case_Qltb; lra.
Qed.

(** X11. For a region in its ranges (water, food and energy in
    [[0, 2000]], stability in [[0, 1]], population not negative) the
    reward lies in [[-8, 5.5]]: the clamp to [[-10, 10]] is never what
    decides the value. *)
Theorem calculate_reward_range_of_valid_regions
    (prev curr : ResourceDict) (stability : Q) (population : Z) :
  0 <= d_water curr <= 2000 ->
  0 <= d_food curr <= 2000 ->
  0 <= d_energy curr <= 2000 ->
  0 <= stability <= 1 ->
  (0 <= population)%Z ->
  -8 <= calculate_reward prev curr stability population <= 5.5.
Proof.
  intros Hw Hf He Hs Hp. unfold calculate_reward.
  assert (Hpop : 0 <= inject_Z population)
    by (change 0 with (inject_Z 0); rewrite <- Zle_Qle; exact Hp).
  assert (Hmin : 0 <= py_min (inject_Z population / 500.0) 1.0 <= 1).
  { unfold py_min. case_Qltb; q_div; lra. }
  rewrite np_clip_inside.
  - repeat case_Qltb; q_div; lra.
  - repeat case_Qltb; q_div; lra.
Qed.

Lemma calculate_reward_range_witness :
  -8 <= calculate_reward (get_as_dict (resources full_region))
          (get_as_dict (resources hungry_region)) 0.8 100 <= 5.5.
Proof.
  apply calculate_reward_range_of_valid_regions;
    try (split; vm_compute; discriminate).
  vm_compute. discriminate.
Defined.

(** X12. The reward never decreases when water, food, energy, stability
    or population increase: the starvation penalties only fall away. *)
Theorem calculate_reward_monotone
    (prev prev' curr curr' : ResourceDict) (stability stability' : Q)
    (population population' : Z) :
  d_water curr <= d_water curr' ->
  d_food curr <= d_food curr' ->
  d_energy curr <= d_energy curr' ->
  stability <= stability' ->
  (population <= population')%Z ->
  calculate_reward prev curr stability population
  <= calculate_reward prev' curr' stability' population'.
Proof.
  intros Hw Hf He Hs Hp. unfold calculate_reward.
  apply np_clip_monotone; [lra|].
  assert (Hpop : inject_Z population <= inject_Z population')
    by (rewrite <- Zle_Qle; exact Hp).
  assert (Hmin : py_min (inject_Z population / 500.0) 1.0
                 <= py_min (inject_Z population' / 500.0) 1.0).
  { unfold py_min. repeat case_Qltb; q_div; lra. }
  repeat case_Qltb; q_div; lra.
Qed.

Lemma calculate_reward_monotone_witness :
  calculate_reward (get_as_dict (resources full_region))
    (get_as_dict (resources hungry_region)) 0.5 100
  <= calculate_reward (get_as_dict (resources hungry_region))
       (get_as_dict (resources full_region)) 0.8 120.
Proof.
  apply calculate_reward_monotone; vm_compute; discriminate.
Defined.

(** *** Regional agent: decisions and learning *)

Lemma ACTIONS_domain (i : Z) (eff : ActionEffects) :
  ACTIONS i = Some eff -> (0 <= i <= 8)%Z.
Proof.
  intro H. unfold ACTIONS in H.
  destruct i as [|p|p]; [lia| |discriminate].
  do 4 (try (destruct p as [p|p|]; try discriminate)); lia.
Qed.

(** An action [decide_action] returns is always one of the nine
    entries of the action table, returned with that entry's name; an
    index outside the table (which only the random draw can produce)
    ends in [KeyError] instead. *)
Lemma decide_action_in_catalog (rt : Runtime) (a : RegionalAgent)
    (region_state : StateDict) (training : bool) (g : Globals rt) :
  match fst (decide_action rt a region_state training g) with
  | Ret (action_idx, action_name) =>
      (0 <= action_idx <= 8)%Z /\
      exists eff, ACTIONS action_idx = Some eff /\ a_name eff = action_name
  | Raise e =>
      e = KeyError \/
      fst (act rt (dqn a) (get_state_vector region_state) training g) = Raise e
  end.
Proof.
  unfold decide_action.
  destruct (act rt (dqn a) (get_state_vector region_state) training g)
    as [[action_idx|e] g'].
  - destruct (ACTIONS action_idx) as [eff|] eqn:E; cbn [fst].
    + split; [eapply ACTIONS_domain; exact E|]. exists eff. auto.
    + left. reflexivity.
  - cbn [fst]. right. reflexivity.
Qed.

Lemma remember_length_below_capacity (d : DQNAgent) (t : Transition) :
  (List.length (memory d) < memory_maxlen)%nat ->
  memory (remember d t) = memory d ++ [t].
Proof.
  intro H. unfold remember.
  destruct (Nat.leb_spec memory_maxlen (List.length (memory d))); [lia|].
  reflexivity.
Qed.

Lemma replay_keeps_memory (rt : Runtime) (a : DQNAgent) (batch_size : Z)
    (g : Globals rt) :
  memory (snd (fst (replay rt a batch_size g))) = memory a.
Proof.
  unfold replay.
  destruct (Z.of_nat (List.length (memory a)) <? batch_size)%Z; [reflexivity|].
  destruct (batch_size <? 0)%Z; [reflexivity|].
  destruct (py_sample rt Transition (memory a) batch_size (py g)) as [batch py'].
  destruct (replay_loop a batch 0.0) as [[total|e] a1] eqn:L;
    apply replay_loop_frame in L; unfold same_but_q_values in L;
    destruct L as (_ & _ & _ & _ & _ & _ & _ & L8 & _ & _).
  - destruct (batch_size =? 0)%Z; cbn [fst snd]; [exact L8|].
    unfold decay_epsilon. destruct (Qltb _ _); cbn; exact L8.
  - cbn [fst snd]. exact L8.
Qed.

(** X13. [learn] always records the reward and the action at the end of
    the agent's two histories and keeps the buffer [remember] built,
    whatever [replay] does.  While the buffer held fewer than 31
    transitions before the call, the call trains nothing: it returns
    loss 0.0, the learner is the one [remember] returned, and no random
    source is read. *)
Theorem learn_bookkeeping (rt : Runtime) (a : RegionalAgent) (state : list Q)
    (action : Z) (reward : Q) (next_state : list Q) (done : bool)
    (g : Globals rt) :
  let t := {| t_state := state; t_action := action; t_reward := reward;
              t_next_state := next_state; t_done := done |} in
  let '(o, a', g') := learn rt a state action reward next_state done g in
  reward_history a' = reward_history a ++ [reward] /\
  action_history a' = action_history a ++ [action] /\
  ra_region_id a' = ra_region_id a /\
  memory (dqn a') = memory (remember (dqn a) t) /\
  ((List.length (memory (dqn a)) < 31)%nat ->
   o = Ret 0.0 /\ dqn a' = remember (dqn a) t /\ g' = g).
Proof.
  cbn zeta. unfold learn.
  match goal with
  | |- context [replay rt ?d 32%Z g] => set (d0 := d)
  end.
  pose proof (replay_keeps_memory rt d0 32 g) as Fm.
  destruct (replay rt d0 32 g) as [[o d1] g1] eqn:R.
  cbn [fst snd] in Fm.
  cbn [reward_history action_history ra_region_id dqn].
  split; [reflexivity|]. split; [reflexivity|]. split; [reflexivity|].
  split; [exact Fm|].
  intro Hlen.
  assert (Hm : memory d0 = memory (dqn a) ++ [{| t_state := state; t_action := action;
                 t_reward := reward; t_next_state := next_state; t_done := done |}]).
  { apply remember_length_below_capacity. unfold memory_maxlen. lia. }
  unfold replay in R.
  destruct (Z.ltb_spec (Z.of_nat (List.length (memory d0))) 32) as [_|Hge].
  - injection R as <- <- <-. auto.
  - rewrite Hm, length_app in Hge. cbn [List.length] in Hge. lia.
Qed.

(** *** Climatic events: what an application touches *)

Lemma pool_setattr_stocks_nonneg (p : ResourcePool) (attr : string) (v : Q) :
  stocks_nonneg p -> 0 <= v -> stocks_nonneg (pool_setattr p attr v).
Proof.
  intros (Hw & Hf & He & Hl) Hv. unfold stocks_nonneg, pool_setattr. cbn.
  repeat split;
    match goal with
    | |- context [if ?c then _ else _] => destruct c
    end; assumption.
Qed.

Lemma apply_item_stocks_nonneg (ev : ClimaticEvent) (acc : RegionState * dict Q)
    (item : string * ev_value) :
  stocks_nonneg (resources (fst acc)) ->
  stocks_nonneg (resources (fst (apply_item ev acc item))).
Proof.
  intro H. destruct acc as [r eff], item as [k v]. unfold apply_item.
  destruct v as [change|s]; [|exact H].
  destruct (String.eqb k "population_loss"); [exact H|].
  destruct (pool_getattr (resources r) k); [|exact H].
  cbn. apply pool_setattr_stocks_nonneg; [exact H | apply py_max_ge_l].
Qed.

Lemma apply_items_stocks_nonneg (ev : ClimaticEvent) (items : dict ev_value) :
  forall acc, stocks_nonneg (resources (fst acc)) ->
              stocks_nonneg (resources (fst (fold_left (apply_item ev) items acc))).
Proof.
  induction items as [|it items IH]; intros acc Hacc; cbn [fold_left]; [exact Hacc|].
  apply IH. now apply apply_item_stocks_nonneg.
Qed.

Lemma apply_stocks_nonneg (ev : ClimaticEvent) (r : RegionState) :
  stocks_nonneg (resources r) ->
  stocks_nonneg (resources (fst (apply ev r))).
Proof.
  intro H. unfold apply. destruct (negb _); [exact H|].
  apply apply_items_stocks_nonneg. exact H.
Qed.

(** X14. A climatic event never drives a stock negative: applied to a
    region without negative stocks it leaves a region without negative
    stocks, whatever its kind and its severity (of either sign), and
    so does any sequence of events applied one after the other. *)
Theorem apply_keeps_stocks_nonneg (evs : list ClimaticEvent) (r : RegionState) :
  stocks_nonneg (resources r) ->
  stocks_nonneg (resources (fold_left (fun r ev => fst (apply ev r)) evs r)).
Proof.
  revert r. induction evs as [|ev evs IH]; intros r H; cbn [fold_left]; [exact H|].
  apply IH. now apply apply_stocks_nonneg.
Qed.

Lemma apply_keeps_stocks_nonneg_witness :
  stocks_nonneg (resources (fst (apply flood (fst (apply flood full_region))))).
Proof.
  apply (apply_keeps_stocks_nonneg [flood; flood] full_region).
  repeat split; vm_compute; discriminate.
Defined.

Lemma same_but_stocks_and_population_refl (r : RegionState) :
  same_but_stocks_and_population r r.
Proof. unfold same_but_stocks_and_population. tauto. Qed.

Lemma same_but_stocks_and_population_trans (r1 r2 r3 : RegionState) :
  same_but_stocks_and_population r1 r2 ->
  same_but_stocks_and_population r2 r3 ->
  same_but_stocks_and_population r1 r3.
Proof.
  unfold same_but_stocks_and_population. intros H1 H2.
  repeat match goal with H : _ /\ _ |- _ => destruct H end.
  repeat split; congruence.
Qed.

(** The numeric keys of the event catalog. *)
Lemma EVENT_TYPES_keys (ty : string) (items : dict ev_value) :
  dict_get EVENT_TYPES ty = Some items ->
  Forall (fun item =>
            match snd item with
            | VNum _ => In (fst item) ["water"; "food"; "energy"; "land"; "population_loss"]
            | VStr _ => True
            end) items.
Proof.
  unfold EVENT_TYPES. cbn [dict_get].
  repeat match goal with
         | |- context [if ?c then _ else _] => destruct c
         end; intro H; try discriminate; injection H as <-;
    repeat (first [apply Forall_nil | apply Forall_cons]); cbn; auto 10.
Qed.

Lemma apply_item_frame (ev : ClimaticEvent) (acc : RegionState * dict Q)
    (item : string * ev_value) :
  match snd item with
  | VNum _ => In (fst item) ["water"; "food"; "energy"; "land"; "population_loss"]
  | VStr _ => True
  end ->
  same_but_stocks_and_population (fst acc) (fst (apply_item ev acc item)).
Proof.
  destruct acc as [r eff], item as [k v]. cbn [fst snd]. unfold apply_item.
  destruct v as [change|s]; [|intros _; apply same_but_stocks_and_population_refl].
  intros [<-|[<-|[<-|[<-|[<-|[]]]]]]; cbn;
    unfold same_but_stocks_and_population; cbn; tauto.
Qed.

Lemma apply_same_but_stocks_and_population (ev : ClimaticEvent) (r : RegionState) :
  same_but_stocks_and_population r (fst (apply ev r)).
Proof.
  unfold apply. destruct (negb _); [apply same_but_stocks_and_population_refl|].
  destruct (dict_get EVENT_TYPES (event_type ev)) as [items|] eqn:E;
    [|apply same_but_stocks_and_population_refl].
  pose proof (EVENT_TYPES_keys _ _ E) as K. clear E.
  change r with (fst (r, @nil (string * Q))) at 1.
  generalize (r, @nil (string * Q)). revert K.
  induction items as [|it items IH]; intros K acc; cbn [fold_left].
  - apply same_but_stocks_and_population_refl.
  - inversion K as [|? ? K1 K2]; subst.
    eapply same_but_stocks_and_population_trans;
      [apply (apply_item_frame ev acc it K1) | apply (IH K2)].
Qed.

(** X15. A climatic event changes at most the four stocks and the
    population of a region: identity, caps, development level, growth
    rate, stability, trade partners and environment stay as they were;
    an event of a kind that is not in the catalog changes nothing and
    reports no effect, also for an affected region. *)
Theorem apply_frame (ev : ClimaticEvent) (r : RegionState) :
  same_but_stocks_and_population r (fst (apply ev r)) /\
  (dict_get EVENT_TYPES (event_type ev) = None -> apply ev r = (r, [])).
Proof.
  split.
  - apply apply_same_but_stocks_and_population.
  - intro E. unfold apply. rewrite E. destruct (negb _); reflexivity.
Qed.

(** *** World simulation: natural dynamics and action effects *)

(** X16. Natural dynamics keep a ledger in range: for a region with a
    ledger in range, non-negative rainfall, development level and
    population, [_update_basic_resources] leaves every stock in
    [[0, cap]]; and it changes nothing but stocks and population. *)
Theorem update_basic_resources_in_range (r : RegionState) :
  in_range (resources r) = true ->
  0 <= rainfall r -> 0 <= development_level r -> (0 <= population r)%Z ->
  in_range (resources (_update_basic_resources r)) = true /\
  same_but_stocks_and_population r (_update_basic_resources r).
Proof.
  intros Hr Hrain Hdev Hpop.
  assert (Hp : 0 <= inject_Z (population r))
    by (change 0 with (inject_Z 0); rewrite <- Zle_Qle; exact Hpop).
  assert (Hp5 : 0 <= inject_Z (population r * 5))
    by (change 0 with (inject_Z 0); rewrite <- Zle_Qle; lia).
  assert (R : in_range
                (deplete
                   (replenish (replenish (resources r) (rainfall r * 5) 0 0 0)
                      0 (development_level r * inject_Z (population r) * 2) 0 0)
                   0 0 (inject_Z (population r * 5)) 0) = true).
  { apply deplete_in_range; try lra.
    apply replenish_in_range; try lra.
    - apply replenish_in_range; try lra. exact Hr.
    - assert (0 <= development_level r * inject_Z (population r))
        by (apply Qmult_le_0_compat; assumption).
      lra. }
  unfold _update_basic_resources. cbn.
  repeat match goal with
         | |- context [if ?c then _ else _] => destruct c
         end; cbn; (split; [exact R|]);
    unfold same_but_stocks_and_population; cbn; tauto.
Qed.

Lemma update_basic_resources_in_range_witness :
  in_range (resources (_update_basic_resources full_region)) = true /\
  same_but_stocks_and_population full_region (_update_basic_resources full_region).
Proof.
  apply update_basic_resources_in_range; vm_compute; try reflexivity; discriminate.
Defined.

(** X17. Action effects never drive a stock negative and never raise
    the development level above 1: from a region without negative stocks
    and with a development level of at most 1, the region after the
    effects of any action has both properties, with its caps and its
    stability unchanged. *)
Theorem apply_action_effects_floor (eff : ActionEffects) (r : RegionState) :
  stocks_nonneg (resources r) ->
  development_level r <= 1 ->
  stocks_nonneg (resources (apply_action_effects eff r)) /\
  development_level (apply_action_effects eff r) <= 1 /\
  max_water (resources (apply_action_effects eff r)) = max_water (resources r) /\
  max_food (resources (apply_action_effects eff r)) = max_food (resources r) /\
  max_energy (resources (apply_action_effects eff r)) = max_energy (resources r) /\
  max_land (resources (apply_action_effects eff r)) = max_land (resources r) /\
  stability (apply_action_effects eff r) = stability r.
Proof.
  intros (Hw & Hf & He & Hl) Hd. unfold apply_action_effects, stocks_nonneg.
  destruct (a_water eff), (a_food eff), (a_energy eff), (a_growth eff),
    (a_pop_growth eff), (a_dev_increase eff); cbn;
    repeat split;
    try reflexivity; try assumption; try apply py_max_ge_l;
    try (eapply Qle_trans; [apply py_min_le_l | lra]).
Qed.

Lemma apply_action_effects_floor_witness :
  exists eff,
    ACTIONS 1 = Some eff /\
    stocks_nonneg (resources (apply_action_effects eff hungry_region)) /\
    development_level (apply_action_effects eff hungry_region) <= 1.
Proof.
  eexists. split; [reflexivity|].
  match goal with
  | |- stocks_nonneg (resources (apply_action_effects ?e _)) /\ _ =>
      destruct (apply_action_effects_floor e hungry_region) as (H1 & H2 & _)
  end.
  - repeat split; vm_compute; discriminate.
  - vm_compute. discriminate.
  - split; assumption.
Defined.

(** *** Trade network: relationships *)

Lemma dict_get_app {V : Type} (d1 d2 : dict V) (k : string) :
  dict_get (d1 ++ d2) k =
  match dict_get d1 k with
  | Some v => Some v
  | None => dict_get d2 k
  end.
Proof.
  induction d1 as [|[k' v'] d1 IH]; cbn; [reflexivity|].
  destruct (String.eqb k' k); auto.
Qed.

Lemma dict_get_None_iff {V : Type} (d : dict V) (k : string) :
  dict_get d k = None <-> ~ In k (dict_keys d).
Proof.
  unfold dict_keys. induction d as [|[k' v'] d IH]; cbn; [tauto|].
  destruct (String.eqb k' k) eqn:E.
  - apply String.eqb_eq in E. split; [discriminate | intro H; exfalso; auto].
  - apply String.eqb_neq in E. rewrite IH. tauto.
Qed.

Lemma dict_set_absent {V : Type} (d : dict V) (k : string) (v : V) :
  dict_get d k = None -> dict_set d k v = d ++ [(k, v)].
Proof.
  induction d as [|[k' v'] d IH]; cbn; [reflexivity|].
  destruct (String.eqb k' k); [discriminate|]. intro H. now rewrite IH.
Qed.

Lemma dict_set_NoDup {V : Type} (d : dict V) (k : string) (v : V) :
  NoDup (dict_keys d) -> NoDup (dict_keys (dict_set d k v)).
Proof.
  intro H. destruct (dict_get d k) as [v0|] eqn:G.
  - now rewrite (dict_keys_set_present d k v v0 G).
  - rewrite (dict_set_absent d k v G). unfold dict_keys in *.
    rewrite map_app. cbn. apply NoDup_app; [exact H | repeat constructor; auto |].
    intros x Hx [<-|[]]. apply dict_get_None_iff in G. exact (G Hx).
Qed.

(** Rebuilding a dictionary entry by entry gives the dictionary back. *)
Lemma rebuild_dict (succ : dict Q) :
  forall acc,
    NoDup (dict_keys (acc ++ succ)) ->
    fold_left (fun partners nw => dict_set partners (fst nw) (snd nw)) succ acc
    = acc ++ succ.
Proof.
  induction succ as [|[k v] succ IH]; intros acc H; cbn [fold_left fst snd].
  - now rewrite app_nil_r.
  - assert (G : dict_get acc k = None).
    { apply dict_get_None_iff. intro Hin.
      unfold dict_keys in H. rewrite map_app in H. cbn in H.
      apply NoDup_remove_2 in H. apply H. apply in_or_app. left. exact Hin. }
    rewrite (dict_set_absent acc k v G).
    replace (acc ++ (k, v) :: succ) with ((acc ++ [(k, v)]) ++ succ)
      by (rewrite <- app_assoc; reflexivity).
    apply IH. rewrite <- app_assoc. exact H.
Qed.

Lemma get_trading_partners_successors (tn : TradeNetwork) (rid : string) :
  successors_wf (trade_graph tn) ->
  get_trading_partners tn rid = successors (trade_graph tn) rid.
Proof.
  intro H. specialize (H rid). unfold get_trading_partners, successors in *.
  destruct (dict_get (trade_graph tn) rid) as [succ|]; [|reflexivity].
  apply (rebuild_dict succ []). exact H.
Qed.

Lemma successors_add_node (g : dict (dict Q)) (n m : string) :
  successors (graph_add_node g n) m = successors g m.
Proof.
  unfold successors, graph_add_node.
  destruct (dict_get g n) eqn:G; [reflexivity|].
  rewrite dict_get_app. destruct (dict_get g m) eqn:G'; [reflexivity|].
  cbn. destruct (String.eqb n m); reflexivity.
Qed.

Lemma dict_get_add_node_self (g : dict (dict Q)) (n : string) :
  dict_get (graph_add_node g n) n = Some (successors g n).
Proof.
  unfold successors, graph_add_node.
  destruct (dict_get g n) eqn:G; [exact G|].
  rewrite dict_get_app, G. cbn. now rewrite String.eqb_refl.
Qed.

Lemma dict_get_add_node_present (g : dict (dict Q)) (n m : string) (x : dict Q) :
  dict_get g m = Some x -> dict_get (graph_add_node g n) m = Some x.
Proof.
  intro H. unfold graph_add_node. destruct (dict_get g n); [exact H|].
  now rewrite dict_get_app, H.
Qed.

Lemma successors_add_edge (g : dict (dict Q)) (u v m : string) (w : Q) :
  successors (graph_add_edge g u v w) m =
  if String.eqb u m then dict_set (successors g u) v w else successors g m.
Proof.
  unfold graph_add_edge.
  assert (Hu : dict_get (graph_add_node (graph_add_node g u) v) u
               = Some (successors g u)).
  { apply dict_get_add_node_present. apply dict_get_add_node_self. }
  rewrite Hu. unfold successors at 1.
  destruct (String.eqb u m) eqn:E.
  - apply String.eqb_eq in E. subst m. now rewrite dict_get_set_same.
  - apply String.eqb_neq in E. rewrite dict_get_set_other by exact E.
    change (match dict_get (graph_add_node (graph_add_node g u) v) m with
            | Some succ => succ
            | None => []
            end) with (successors (graph_add_node (graph_add_node g u) v) m).
    now rewrite !successors_add_node.
Qed.

Lemma successors_establish_trade (tn : TradeNetwork) (a b m : string) (s : Q) :
  successors (trade_graph (establish_trade tn a b s)) m =
  if String.eqb b m
  then dict_set (if String.eqb a b then dict_set (successors (trade_graph tn) a) b s
                 else successors (trade_graph tn) b) a s
  else if String.eqb a m then dict_set (successors (trade_graph tn) a) b s
       else successors (trade_graph tn) m.
Proof.
  unfold establish_trade. cbn [trade_graph].
  rewrite !successors_add_edge. reflexivity.
Qed.

Lemma establish_trade_wf (tn : TradeNetwork) (a b : string) (s : Q) :
  successors_wf (trade_graph tn) ->
  successors_wf (trade_graph (establish_trade tn a b s)).
Proof.
  intros H m. rewrite successors_establish_trade.
  destruct (String.eqb b m), (String.eqb a b), (String.eqb a m);
    repeat apply dict_set_NoDup; apply H.
Qed.

(** X18. A trade relationship is reciprocal: after
    [establish_trade(a, b, strength)] the partners of [a] list [b] with
    that strength and the partners of [b] list [a] with it (an earlier
    strength between the two is overwritten); the trade log is not
    touched and no node lists a partner twice. *)
Theorem establish_trade_reciprocal (tn : TradeNetwork) (a b : string) (s : Q) :
  successors_wf (trade_graph tn) ->
  dict_get (get_trading_partners (establish_trade tn a b s) a) b = Some s /\
  dict_get (get_trading_partners (establish_trade tn a b s) b) a = Some s /\
  successors_wf (trade_graph (establish_trade tn a b s)) /\
  trade_history (establish_trade tn a b s) = trade_history tn.
Proof.
  intro H. pose proof (establish_trade_wf tn a b s H) as H'.
  rewrite !get_trading_partners_successors by exact H'.
  rewrite !successors_establish_trade, !String.eqb_refl.
  split; [|split; [apply dict_get_set_same | split; [exact H' | reflexivity]]].
  destruct (String.eqb b a) eqn:E.
  - apply String.eqb_eq in E. subst b. apply dict_get_set_same.
  - apply dict_get_set_same.
Qed.

Lemma successors_wf_init : successors_wf (trade_graph TradeNetwork_init).
Proof. intro u. constructor. Qed.

Lemma establish_trade_reciprocal_witness :
  dict_get (get_trading_partners
              (establish_trade TradeNetwork_init "region_0" "region_1" 0.5)
              "region_0") "region_1" = Some 0.5 /\
  dict_get (get_trading_partners
              (establish_trade TradeNetwork_init "region_0" "region_1" 0.5)
              "region_1") "region_0" = Some 0.5 /\
  successors_wf (trade_graph (establish_trade TradeNetwork_init "region_0" "region_1" 0.5)) /\
  trade_history (establish_trade TradeNetwork_init "region_0" "region_1" 0.5)
  = trade_history TradeNetwork_init.
Proof.
  apply establish_trade_reciprocal. exact successors_wf_init.
Defined.

(** X19. [establish_trade(a, b, strength)] changes no other
    relationship: for every pair of regions other than [(a, b)] and
    [(b, a)] the strength listed among the partners is what it was; and
    [add_region] changes the partners of no region. *)
Theorem establish_trade_frame (tn : TradeNetwork) (a b : string) (s : Q)
    (u v : string) :
  successors_wf (trade_graph tn) ->
  ~ (u = a /\ v = b) -> ~ (u = b /\ v = a) ->
  dict_get (get_trading_partners (establish_trade tn a b s) u) v
  = dict_get (get_trading_partners tn u) v /\
  (forall rid, get_trading_partners (add_region tn rid) u = get_trading_partners tn u).
Proof.
  intros H N1 N2. split.
  - pose proof (establish_trade_wf tn a b s H) as H'.
    rewrite !get_trading_partners_successors by assumption.
    rewrite successors_establish_trade.
    destruct (String.eqb b u) eqn:Ebu.
    + apply String.eqb_eq in Ebu. subst u.
      assert (Hva : a <> v) by (intro; subst; apply N2; auto).
      rewrite dict_get_set_other by exact Hva.
      destruct (String.eqb a b) eqn:Eab; [|reflexivity].
      apply String.eqb_eq in Eab. subst b.
      apply dict_get_set_other. exact Hva.
    + destruct (String.eqb a u) eqn:Eau; [|reflexivity].
      apply String.eqb_eq in Eau. subst u.
      apply dict_get_set_other. intro; subst. apply N1; auto.
  - intro rid. unfold get_trading_partners, add_region. cbn [trade_graph].
    change (dict_get (graph_add_node (trade_graph tn) rid) u)
      with (dict_get (graph_add_node (trade_graph tn) rid) u).
    pose proof (successors_add_node (trade_graph tn) rid u) as S.
    unfold successors in S.
    destruct (dict_get (graph_add_node (trade_graph tn) rid) u) as [x|],
      (dict_get (trade_graph tn) u) as [y|]; subst; reflexivity.
Qed.

Lemma establish_trade_frame_witness :
  dict_get (get_trading_partners
              (establish_trade
                 (establish_trade TradeNetwork_init "region_0" "region_1" 0.5)
                 "region_1" "region_2" 0.7)
              "region_0") "region_1"
  = dict_get (get_trading_partners
                (establish_trade TradeNetwork_init "region_0" "region_1" 0.5)
                "region_0") "region_1".
Proof.
  apply (establish_trade_frame
           (establish_trade TradeNetwork_init "region_0" "region_1" 0.5)
           "region_1" "region_2" 0.7 "region_0" "region_1").
  - apply establish_trade_wf. exact successors_wf_init.
  - intros [H _]. discriminate H.
  - intros [H _]. discriminate H.
Defined.

(** *** Trade network: what an exchange touches *)

Lemma dict_keys_execute_trade_regions (regions : dict RegionState)
    (a b : string) (s : Q) :
  dict_keys (execute_trade_regions regions a b s) = dict_keys regions.
Proof.
  unfold execute_trade_regions. now rewrite !dict_keys_store_update.
Qed.

Lemma deref_region_id_execute_trade_regions (regions : dict RegionState)
    (a b : string) (s : Q) (k : string) (r : RegionState) :
  dict_get regions k = Some r ->
  deref_region_id (execute_trade_regions regions a b s) k = region_id r.
Proof.
  intro G. unfold deref_region_id, execute_trade_regions.
  rewrite !dict_get_store_update, G.
  destruct (String.eqb a k), (String.eqb b k); reflexivity.
Qed.

(** X20. [execute_trade] adds exactly one entry to the trade log, with
    the strength and the [region_id] of the two region objects, and
    leaves the trade graph and both random sources alone.  In the regions it removes and adds no
    key, leaves every region other than the two untouched, and in the
    two changes nothing but the food of the first and the energy of the
    second: water, land, caps, population and all other fields are what
    they were. *)
Theorem execute_trade_frame (rt : Runtime) (tn : TradeNetwork)
    (regions : dict RegionState) (a b : string) (s : Q) (g : Globals rt) :
  let '(tn', regions', g') := execute_trade rt tn regions a b s g in
  trade_graph tn' = trade_graph tn /\
  (exists e, trade_history tn' = trade_history tn ++ [e] /\
             te_strength e = s /\
             te_timestamp e = fst (now rt (clk g)) /\
             forall ra rb,
               dict_get regions a = Some ra -> dict_get regions b = Some rb ->
               te_region_a e = region_id ra /\ te_region_b e = region_id rb) /\
  np g' = np g /\ py g' = py g /\
  dict_keys regions' = dict_keys regions /\
  forall k,
    match dict_get regions k with
    | None => dict_get regions' k = None
    | Some r =>
        exists r',
          dict_get regions' k = Some r' /\
          same_but_stocks_and_population r r' /\
          population r' = population r /\
          water (resources r') = water (resources r) /\
          land (resources r') = land (resources r) /\
          (k <> a -> food (resources r') = food (resources r)) /\
          (k <> b -> energy (resources r') = energy (resources r)) /\
          (k <> a -> k <> b -> r' = r)
    end.
Proof.
  unfold execute_trade. destruct (now rt (clk g)) as [t clk'].
  split; [reflexivity|]. split.
  { eexists. split; [reflexivity|]. cbn [te_strength te_timestamp te_region_a
                                         te_region_b fst].
    split; [reflexivity|]. split; [reflexivity|].
    intros ra rb Ga Gb.
    split; apply deref_region_id_execute_trade_regions; assumption. }
  split; [reflexivity|]. split; [reflexivity|].
  split; [apply dict_keys_execute_trade_regions|].
  intro k. unfold execute_trade_regions. rewrite !dict_get_store_update.
  destruct (dict_get regions k) as [r|] eqn:G.
  - destruct (String.eqb_spec a k) as [Ea|Ea], (String.eqb_spec b k) as [Eb|Eb];
      cbn [option_map]; eexists; (split; [reflexivity|]);
      unfold same_but_stocks_and_population; cbn;
      repeat split; try reflexivity; intros; try congruence;
      destruct r as [? ? [] ? ? ? ? ? ? ? ?]; reflexivity.
  - destruct (String.eqb a k), (String.eqb b k); reflexivity.
Qed.

(** *** World simulation: what a sequence of [step] calls keeps *)

Lemma deplete_stocks_nonneg (p : ResourcePool) (w f e l : Q) :
  stocks_nonneg (deplete p w f e l).
Proof.
  unfold stocks_nonneg, deplete. cbn. repeat split; apply py_max_ge_l.
Qed.

Lemma update_basic_resources_stocks_nonneg (r : RegionState) :
  stocks_nonneg (resources (_update_basic_resources r)).
Proof.
  unfold _update_basic_resources. cbn.
  repeat match goal with
         | |- context [if ?c then _ else _] => destruct c
         end; cbn; apply deplete_stocks_nonneg.
Qed.

Lemma apply_action_effects_floor_lower (eff : ActionEffects) (r : RegionState) :
  stocks_nonneg (resources r) ->
  stocks_nonneg (resources (apply_action_effects eff r)).
Proof.
  intros (Hw & Hf & He & Hl). unfold apply_action_effects, stocks_nonneg.
  destruct (a_water eff), (a_food eff), (a_energy eff), (a_growth eff),
    (a_pop_growth eff), (a_dev_increase eff); cbn;
    repeat split; try assumption; apply py_max_ge_l.
Qed.

Section StepInvariant.

Variable rt : Runtime.
Variable ks : list string.
Variable ags : dict RegionalAgent.
Variable tn : TradeNetwork.
Variable n : Z.
Variable Pr : RegionState -> Prop.

Hypothesis Pr_kept : kept_by_a_cycle Pr.

Let F : WorldSimulation -> Prop := step_frame Pr ks ags tn n.

Lemma triple_get_world_eq (P : WorldSimulation -> Prop) (E : WorldSimulation -> Prop) :
  triple P (get_world rt) (fun w0 w => P w /\ w0 = w) E.
Proof. intros s Hs. cbn. auto. Qed.

Lemma triple_false {A : Type} (m : M rt A) (Q : A -> WorldSimulation -> Prop)
    (E : WorldSimulation -> Prop) :
  triple (fun _ => False) m Q E.
Proof. intros s []. Qed.

Lemma generate_climatic_event_keeps (P : WorldSimulation -> Prop) :
  triple P (_generate_climatic_event rt) (fun _ => P) P.
Proof.
  unfold _generate_climatic_event, datetime_now.
  eapply triple_bind; [apply triple_draw_np|]. intro u.
  cbv beta; apply triple_pure. intros ?.
  destruct (Qltb 0.15 u); [apply triple_ret; auto|].
  eapply triple_bind; [apply triple_get_world|]. intro w.
  eapply triple_bind; [apply triple_draw_np|]. intro ty.
  cbv beta; apply triple_pure. intros ?.
  eapply triple_bind; [apply triple_draw_np|]. intro k.
  cbv beta; apply triple_pure. intros ?.
  eapply triple_bind with (R := fun _ => P).
  { destruct (_ || _); [apply triple_raise; auto | apply triple_ret; auto]. }
  intros ?.
  eapply triple_bind; [apply triple_draw_np|]. intro aff.
  cbv beta; apply triple_pure. intros ?.
  eapply triple_bind; [apply triple_draw_np|]. intro sev.
  cbv beta; apply triple_pure. intros ?.
  eapply triple_bind; [apply triple_with_globals; auto|]. intro t.
  apply triple_ret. auto.
Qed.

Lemma modify_region_keeps_frame (rid : string) (f : RegionState -> RegionState) :
  (forall r, Pr r -> Pr (f r)) ->
  triple F (modify_region rt rid f) (fun _ => F) F.
Proof.
  intro Hf. apply triple_modify_world.
  intros w (Hk & Ha & Ht & Hn & Hs). unfold F, step_frame, all_regions.
  cbn [regions agents trade_network num_regions with_regions].
  rewrite dict_keys_store_update. repeat split; auto.
  apply (store_update_Forall Pr Pr); auto.
Qed.

Lemma agent_turn_keeps_frame (cycle_data : CycleReport) (rid : string) :
  triple F (agent_turn rt cycle_data rid) (fun _ _ => False) F.
Proof.
  unfold agent_turn.
  eapply triple_bind; [apply triple_get_world|]. intro w.
  eapply triple_bind; [apply triple_lookup; auto|]. intro region.
  cbv beta; apply triple_pure. intros ?.
  eapply triple_bind; [apply triple_lookup; auto|]. intro agent.
  cbv beta; apply triple_pure. intros ?.
  eapply triple_bind; [apply triple_with_globals; auto|].
  intros [action_idx action_name].
  eapply triple_bind with (R := fun _ => F).
  { destruct (ACTIONS action_idx) as [eff|];
      [apply triple_ret; auto | apply triple_raise; auto]. }
  intro action_effects.
  eapply triple_bind.
  { apply modify_region_keeps_frame. apply Pr_kept. }
  intros ?.
  eapply triple_bind; [apply triple_get_world|]. intro w'.
  eapply triple_bind; [apply triple_lookup; auto|]. intro region'.
  cbv beta; apply triple_pure. intros ?.
  eapply triple_bind with (R := fun _ _ => False).
  { intros s Hs. cbn. exact Hs. }
  intros done s [].
Qed.

(** The loop over the regions returns only when there is no region. *)
Lemma agent_turns_keep_frame (keys : list string) (cycle_data : CycleReport) :
  triple F (fold_M rt keys cycle_data (agent_turn rt))
    (fun _ w => F w /\ keys = []) F.
Proof.
  destruct keys as [|rid0 rest]; cbn [fold_M].
  - apply triple_ret. auto.
  - eapply triple_bind; [apply agent_turn_keeps_frame|].
    intros cd. apply triple_false.
Qed.

(** One call of [step], whether it returns or raises. *)
Lemma step_keeps_frame : triple F (step rt) (fun _ => F) F.
Proof.
  unfold step, datetime_now.
  eapply triple_bind; [apply triple_get_world_eq|]. intro w.
  apply triple_conseq_pre
    with (P' := fun w' => F w' /\ dict_keys (regions w) = ks).
  { intros w' [HF <-]. split; [exact HF | apply HF]. }
  apply triple_pure. intro Hks. rewrite Hks.
  eapply triple_bind; [apply triple_with_globals; auto|]. intro t.
  eapply triple_bind.
  { apply triple_for_each. intro rid.
    apply modify_region_keeps_frame. apply Pr_kept. }
  intros ?.
  eapply triple_bind; [apply generate_climatic_event_keeps|]. intro event.
  eapply triple_bind with (R := fun _ => F).
  { destruct event as [ev|]; [|apply triple_ret; auto].
    eapply triple_bind with (R := fun _ => F).
    { apply triple_modify_world. intros w' HF. exact HF. }
    intros ?.
    eapply triple_bind; [|intros ?; apply triple_ret; intros w' Hw'; exact Hw'].
    apply triple_for_each. intro rid.
    apply modify_region_keeps_frame. apply Pr_kept. }
  intro cycle_data.
  eapply triple_bind; [apply agent_turns_keep_frame|].
  intro cycle_data'. cbv beta. apply triple_pure. intro Hnil.
  eapply triple_bind with (R := fun _ => F).
  { unfold execute_trades.
    eapply triple_bind; [apply triple_get_world_eq|]. intro w1.
    apply triple_conseq_pre
      with (P' := fun w' => F w' /\ dict_keys (regions w1) = []).
    { intros w' [HF <-]. split; [exact HF|]. rewrite <- Hnil. apply HF. }
    apply triple_pure. intro Hk1. rewrite Hk1. cbn [map for_each].
    apply triple_ret. auto. }
  intros ?.
  eapply triple_bind with (R := fun _ => F).
  { apply triple_modify_world. intros w' HF. exact HF. }
  intros ?.
  eapply triple_bind with (R := fun _ => F).
  { apply triple_modify_world. intros w' HF. exact HF. }
  intros ?.
  apply triple_ret. auto.
Qed.

Lemma steps_keep_frame (k : nat) :
  forall s, F (world s) -> F (world (snd (steps rt k s))).
Proof.
  induction k as [|k IH]; intros s Hs; cbn [steps]; [exact Hs|].
  pose proof (step_keeps_frame s Hs) as H.
  destruct (step rt s) as [o s'].
  assert (Hs' : F (world s')) by (destruct o; exact H).
  specialize (IH s' Hs').
  destruct (steps rt k s') as [os s'']. exact IH.
Qed.

End StepInvariant.

Lemma stocks_nonneg_kept : kept_by_a_cycle (fun r => stocks_nonneg (resources r)).
Proof.
  split; [|split].
  - intros r _. apply update_basic_resources_stocks_nonneg.
  - intros ev r. apply apply_stocks_nonneg.
  - intros eff r. apply apply_action_effects_floor_lower.
Qed.

(** X21. The lower half of the ledger invariant holds along every run:
    from a world without negative stocks, no stock of any region is
    negative after any number of [step] calls, returning or raising,
    whatever the random sources deliver. *)
Theorem steps_keep_stocks_nonneg (rt : Runtime) (k : nat) (s : Sim rt) :
  all_regions (fun r => stocks_nonneg (resources r)) (world s) ->
  all_regions (fun r => stocks_nonneg (resources r)) (world (snd (steps rt k s))).
Proof.
  intro H.
  apply (steps_keep_frame rt (dict_keys (regions (world s))) (agents (world s))
           (trade_network (world s)) (num_regions (world s))
           (fun r => stocks_nonneg (resources r)) stocks_nonneg_kept k s).
  unfold step_frame. auto.
Qed.

Lemma steps_keep_stocks_nonneg_witness :
  all_regions (fun r => stocks_nonneg (resources r))
    (world (snd (steps Script.runtime 69 conserving_sim))).
Proof.
  apply steps_keep_stocks_nonneg.
  unfold all_regions, stocks_nonneg. vm_compute. repeat constructor; discriminate.
Defined.

(** X22. No call of [step] adds, removes or reorders a region, trains
    an agent or executes a trade: after any number of calls, returning
    or raising, the region keys, the region count, every agent (buffer,
    action values, ε, histories) and the trade network (graph and log)
    are exactly what they were. *)
Theorem steps_keep_regions_agents_trades (rt : Runtime) (k : nat) (s : Sim rt) :
  dict_keys (regions (world (snd (steps rt k s)))) = dict_keys (regions (world s)) /\
  num_regions (world (snd (steps rt k s))) = num_regions (world s) /\
  agents (world (snd (steps rt k s))) = agents (world s) /\
  trade_network (world (snd (steps rt k s))) = trade_network (world s).
Proof.
  assert (K : kept_by_a_cycle (fun _ => True)) by (repeat split).
  pose proof (steps_keep_frame rt (dict_keys (regions (world s))) (agents (world s))
                (trade_network (world s)) (num_regions (world s))
                (fun _ => True) K k s) as H.
  unfold step_frame in H.
  destruct H as (H1 & H2 & H3 & H4 & _).
  - repeat split; auto. unfold all_regions. apply Forall_forall. auto.
  - auto.
Qed.

Lemma update_basic_resources_static (r : RegionState) :
  static_fields (_update_basic_resources r) = static_fields r.
Proof.
  unfold _update_basic_resources. cbn.
  repeat match goal with
         | |- context [if ?c then _ else _] => destruct c
         end; reflexivity.
Qed.

Lemma apply_static (ev : ClimaticEvent) (r : RegionState) :
  static_fields (fst (apply ev r)) = static_fields r.
Proof.
  pose proof (apply_same_but_stocks_and_population ev r) as H.
  unfold same_but_stocks_and_population in H.
  unfold static_fields.
  repeat match goal with H : _ /\ _ |- _ => destruct H end.
  congruence.
Qed.

Lemma apply_action_effects_static (eff : ActionEffects) (r : RegionState) :
  static_fields (apply_action_effects eff r) = static_fields r.
Proof.
  unfold apply_action_effects.
  destruct (a_water eff), (a_food eff), (a_energy eff), (a_growth eff),
    (a_pop_growth eff), (a_dev_increase eff); reflexivity.
Qed.

(** X23. A cycle assigns only stocks, population, growth rate and
    development level.  If the regions' name, stability, trade
    partners, temperature, rainfall, disaster risk and caps are given by
    their region id before a sequence of [step] calls, they are given by
    it, unchanged, after the sequence. *)
Theorem steps_keep_static_fields (rt : Runtime) (k : nat) (s : Sim rt)
    (v : string -> string * string * Q * dict Q * Q * Q * Q * (Q * Q * Q * Q)) :
  all_regions (fun r => static_fields r = v (region_id r)) (world s) ->
  all_regions (fun r => static_fields r = v (region_id r))
    (world (snd (steps rt k s))).
Proof.
  intro H.
  assert (K : kept_by_a_cycle (fun r => static_fields r = v (region_id r))).
  { assert (Hid : forall r r', static_fields r' = static_fields r ->
                               region_id r' = region_id r)
      by (unfold static_fields; intros r r' E; congruence).
    split; [|split].
    - intros r Hr. pose proof (update_basic_resources_static r) as E.
      rewrite E, (Hid _ _ E). exact Hr.
    - intros ev r Hr. pose proof (apply_static ev r) as E.
      rewrite E, (Hid _ _ E). exact Hr.
    - intros eff r Hr. pose proof (apply_action_effects_static eff r) as E.
      rewrite E, (Hid _ _ E). exact Hr. }
  apply (steps_keep_frame rt (dict_keys (regions (world s))) (agents (world s))
           (trade_network (world s)) (num_regions (world s)) _ K k s).
  unfold step_frame. auto.
Qed.

Lemma steps_keep_static_fields_witness :
  all_regions
    (fun r => static_fields r =
              match region_0 conserving_sim with
              | Some r0 => static_fields r0
              | None => ("", "", 0, [], 0, 0, 0, (0, 0, 0, 0))
              end)
    (world (snd (steps Script.runtime 69 conserving_sim))).
Proof.
  apply (steps_keep_static_fields Script.runtime 69 conserving_sim
           (fun _ => match region_0 conserving_sim with
                     | Some r0 => static_fields r0
                     | None => ("", "", 0, [], 0, 0, 0, (0, 0, 0, 0))
                     end)).
  unfold all_regions. vm_compute. repeat constructor.
Defined.

Lemma development_at_most_one_kept :
  kept_by_a_cycle (fun r => development_level r <= 1).
Proof.
  split; [|split].
  - intros r Hr.
    pose proof (update_basic_resources_growth_rate r) as _.
    assert (E : development_level (_update_basic_resources r) = development_level r).
    { unfold _update_basic_resources. cbn.
      repeat match goal with
             | |- context [if ?c then _ else _] => destruct c
             end; reflexivity. }
    now rewrite E.
  - intros ev r Hr. pose proof (apply_same_but_stocks_and_population ev r) as H.
    unfold same_but_stocks_and_population in H.
    repeat match goal with H : _ /\ _ |- _ => destruct H end.
    congruence.
  - intros eff r Hr. unfold apply_action_effects.
    destruct (a_water eff), (a_food eff), (a_energy eff), (a_growth eff),
      (a_pop_growth eff), (a_dev_increase eff); cbn; try exact Hr;
      (eapply Qle_trans; [apply py_min_le_l | lra]).
Qed.

(** X24. The development level stays on its scale from above: if no
    region has a development level above 1, none has after any number of
    [step] calls. *)
Theorem steps_keep_development_at_most_one (rt : Runtime) (k : nat) (s : Sim rt) :
  all_regions (fun r => development_level r <= 1) (world s) ->
  all_regions (fun r => development_level r <= 1) (world (snd (steps rt k s))).
Proof.
  intro H.
  apply (steps_keep_frame rt (dict_keys (regions (world s))) (agents (world s))
           (trade_network (world s)) (num_regions (world s)) _
           development_at_most_one_kept k s).
  unfold step_frame. auto.
Qed.

Lemma steps_keep_development_witness :
  all_regions (fun r => development_level r <= 1)
    (world (snd (steps Script.runtime 69 conserving_sim))).
Proof.
  apply steps_keep_development_at_most_one.
  unfold all_regions. vm_compute. repeat constructor. discriminate.
Defined.

(** *** World simulation: a world without regions *)

(** X25. On a world without regions a call of [step] whose event test
    draws a number above 0.15 completes: it returns a report carrying
    the cycle index and no regions, events or actions, appends that
    report to the cycle history and increments the cycle counter by 1.
    When the test draws an event instead and [randint] returns at least
    one affected region, the call raises [ValueError] (there is no
    region to choose from) and counter and history stay as they were. *)
Theorem step_on_regionless_world (rt : Runtime) (s : Sim rt) :
  regions (world s) = [] ->
  let t := fst (now rt (clk (glob s))) in
  let np0 := np (glob s) in
  let u := fst (np_random rt np0) in
  (Qltb 0.15 u = true ->
   exists s',
     step rt s = (Ret {| cd_cycle := current_cycle (world s); cd_timestamp := t;
                         cd_regions := []; cd_events := []; cd_actions := [] |}, s') /\
     current_cycle (world s') = (current_cycle (world s) + 1)%Z /\
     cycle_history (world s') =
       cycle_history (world s) ++
       [{| cd_cycle := current_cycle (world s); cd_timestamp := t;
           cd_regions := []; cd_events := []; cd_actions := [] |}] /\
     event_history (world s') = event_history (world s)) /\
  (Qltb 0.15 u = false ->
   let np1 := snd (np_random rt np0) in
   let np2 := snd (np_choice rt (dict_keys EVENT_TYPES) np1) in
   (1 <= fst (np_randint rt 1 (py_max_int 2 (num_regions (world s) / 2)) np2))%Z ->
   exists s',
     step rt s = (Raise ValueError, s') /\
     current_cycle (world s') = current_cycle (world s) /\
     cycle_history (world s') = cycle_history (world s)).
Proof.
  intros Hr t np0 u. subst t np0 u.
  destruct s as [w g]. cbn [world glob] in *.
  unfold step, bind, get_world, datetime_now, with_globals, for_each,
    _generate_climatic_event, draw_np, with_globals, bind. cbn [world glob].
  rewrite Hr. cbn [dict_keys map for_each ret].
  destruct (now rt (clk g)) as [t clk1]. cbn [fst snd world glob np py clk].
  destruct (np_random rt (np g)) as [u np1]. cbn [fst snd world glob np py clk].
  split.
  - intro Hu. rewrite Hu. cbn.
    unfold execute_trades, bind, get_world. cbn. rewrite Hr. cbn.
    eexists. split; [reflexivity|]. cbn. auto.
  - intro Hu. rewrite Hu. cbn [get_world world glob np py clk].
    destruct (np_choice rt (dict_keys EVENT_TYPES) np1) as [ty np2].
    cbn [fst snd world glob np py clk].
    destruct (np_randint rt 1 (py_max_int 2 (num_regions w / 2)) np2) as [k np3].
    cbn [fst snd world glob np py clk]. intro Hk.
    rewrite Hr. cbn [dict_keys map List.length Z.of_nat].
    assert (Hc : ((k <? 0)%Z || (0 <? k)%Z) = true).
    { apply orb_true_iff. right. apply Z.ltb_lt. lia. }
    rewrite Hc. cbn. eexists. split; [reflexivity|]. auto.
Qed.

Lemma step_on_regionless_world_witness :
  exists s',
    step Script.runtime (construct 0 44 (Script.globals [] [] 0))
    = (Ret {| cd_cycle := 0; cd_timestamp := 0;
              cd_regions := []; cd_events := []; cd_actions := [] |}, s') /\
    current_cycle (world s') = 1%Z.
Proof.
  destruct (step_on_regionless_world Script.runtime
              (construct 0 44 (Script.globals [] [] 0)) eq_refl) as [H _].
  destruct (H eq_refl) as (s' & H1 & H2 & _).
  exists s'. split; [exact H1 | exact H2].
Defined.

(** *** Construction: which sources the constructor reads *)

Section NpOnly.

Variable rt : Runtime.

Lemma np_only_ret {A : Type} (a : A) : np_only (ret rt a).
Proof. intros w x p p' c c'. repeat eexists. Qed.

Lemma np_only_get_world : np_only (get_world rt).
Proof. intros w x p p' c c'. repeat eexists. Qed.

Lemma np_only_modify_world (f : WorldSimulation -> WorldSimulation) :
  np_only (modify_world rt f).
Proof. intros w x p p' c c'. repeat eexists. Qed.

Lemma np_only_draw_np {A : Type} (f : NpState rt -> A * NpState rt) :
  np_only (draw_np rt f).
Proof.
  intros w x p p' c c'. unfold draw_np, with_globals. cbn.
  destruct (f x) as [a x']. repeat eexists.
Qed.

Lemma np_only_DQNAgent_init (ss asz : Z) (lr : Q) :
  np_only (with_globals rt (fun g => let (d, g') := DQNAgent_init rt ss asz lr g in
                                     (Ret d, g'))).
Proof.
  intros w x p p' c c'. unfold with_globals, DQNAgent_init. cbn.
  destruct (np_randn rt asz x) as [noise x']. repeat eexists.
Qed.

Lemma np_only_bind {A B : Type} (m : M rt A) (k : A -> M rt B) :
  np_only m -> (forall a, np_only (k a)) -> np_only (bind rt m k).
Proof.
  intros Hm Hk w x p p' c c'. unfold bind.
  destruct (Hm w x p p' c c') as (o & w1 & x1 & E1 & E2).
  rewrite E1, E2. destruct o as [a|e].
  - apply Hk.
  - repeat eexists.
Qed.

Lemma np_only_for_each {A : Type} (xs : list A) (body : A -> M rt unit) :
  (forall x, np_only (body x)) -> np_only (for_each rt xs body).
Proof.
  intro Hb. induction xs as [|x xs IH]; cbn [for_each].
  - apply np_only_ret.
  - apply np_only_bind; auto.
Qed.

Lemma np_only_initialize_region (i : nat) : np_only (_initialize_region rt i).
Proof.
  unfold _initialize_region.
  repeat (apply np_only_bind; [apply np_only_draw_np|]; intros ?).
  apply np_only_bind; [apply np_only_modify_world|]; intros ?.
  apply np_only_bind; [apply np_only_DQNAgent_init|]; intros ?.
  apply np_only_bind; [apply np_only_modify_world|]; intros ?.
  apply np_only_modify_world.
Qed.

Lemma np_only_establish_initial_trades : np_only (_establish_initial_trades rt).
Proof.
  unfold _establish_initial_trades.
  apply np_only_bind; [apply np_only_get_world|]. intro w.
  apply np_only_for_each. intros [i region_a].
  apply np_only_for_each. intro j.
  apply np_only_bind; [apply np_only_draw_np|]. intro u.
  destruct (Qltb 0.3 u); [|apply np_only_ret].
  apply np_only_bind; [apply np_only_draw_np|]. intro strength.
  apply np_only_modify_world.
Qed.

Lemma np_only_initialize_world : np_only (_initialize_world rt).
Proof.
  unfold _initialize_world.
  apply np_only_bind; [apply np_only_get_world|]. intro w.
  apply np_only_bind;
    [apply np_only_for_each; intro i; apply np_only_initialize_region|].
  intros ?. apply np_only_establish_initial_trades.
Qed.

End NpOnly.

(** X26. The world the constructor builds is a function of the region
    count and the seed alone: whatever state numpy's generator, the
    [random] module's generator and the clock were in, the same world
    (or the same exception) results, with numpy's generator in the same
    state for a seed [np.random.seed] accepts; and the constructor
    leaves the [random] module's generator and the clock where they
    were. *)
Theorem WorldSimulation_init_seeded (rt : Runtime) (n seed : Z)
    (g1 g2 : Globals rt) :
  fst (WorldSimulation_init rt n seed g1) = fst (WorldSimulation_init rt n seed g2) /\
  py (snd (WorldSimulation_init rt n seed g1)) = py g1 /\
  clk (snd (WorldSimulation_init rt n seed g1)) = clk g1 /\
  ((0 <= seed < 2 ^ 32)%Z ->
   np (snd (WorldSimulation_init rt n seed g1))
   = np (snd (WorldSimulation_init rt n seed g2))).
Proof.
  unfold WorldSimulation_init.
  destruct ((seed <? 0)%Z || (2 ^ 32 <=? seed)%Z) eqn:S.
  - repeat split. intro H. apply orb_true_iff in S.
    destruct S as [S|S]; [apply Z.ltb_lt in S | apply Z.leb_le in S]; lia.
  - match goal with
    | |- context [_initialize_world rt {| world := ?w0; glob := _ |}] =>
        destruct (np_only_initialize_world rt w0 (np_seed rt seed)
                    (py g1) (py g2) (clk g1) (clk g2)) as (o & w' & x' & E1 & E2)
    end.
    cbn [np py clk] in *. rewrite E1, E2. destruct o; cbn; auto.
Qed.

(** *** Construction: the world the constructor builds *)

Lemma append_inj_r (p a b : string) :
  String.append p a = String.append p b -> a = b.
Proof.
  induction p as [|ch p IH]; cbn; intro H; [exact H|].
  injection H as H. auto.
Qed.

Lemma region_key_inj (i j : nat) : region_key i = region_key j -> i = j.
Proof.
  unfold region_key, str_of_nat. intro H. apply append_inj_r in H.
  apply (f_equal NilEmpty.uint_of_string) in H. rewrite !NilEmpty.usu in H.
  injection H as H. now apply Unsigned.to_uint_inj.
Qed.

Lemma region_key_fresh (i : nat) : ~ In (region_key i) (map region_key (seq 0 i)).
Proof.
  intro H. apply in_map_iff in H. destruct H as (j & Hj & Hin).
  apply region_key_inj in Hj. subst j. apply in_seq in Hin. lia.
Qed.

Lemma dict_set_fresh_key {V : Type} (d : dict V) (i : nat) (v : V) :
  dict_keys d = map region_key (seq 0 i) ->
  dict_set d (region_key i) v = d ++ [(region_key i, v)] /\
  dict_keys (dict_set d (region_key i) v) = map region_key (seq 0 (S i)).
Proof.
  intro H.
  assert (G : dict_get d (region_key i) = None).
  { apply dict_get_None_iff. rewrite H. apply region_key_fresh. }
  rewrite (dict_set_absent d _ v G). split; [reflexivity|].
  unfold dict_keys in *. rewrite map_app, H, seq_S, map_app. reflexivity.
Qed.

Lemma successors_wf_add_node (g : dict (dict Q)) (n : string) :
  successors_wf g -> successors_wf (graph_add_node g n).
Proof. intros H u. rewrite successors_add_node. apply H. Qed.

Section Construction.

Variable rt : Runtime.
Variable n : Z.

Let never : WorldSimulation -> Prop := fun _ => False.

Lemma triple_for_each_seq (I : nat -> WorldSimulation -> Prop)
    (body : nat -> M rt unit) :
  (forall i, triple (I i) (body i) (fun _ => I (S i)) never) ->
  forall len start,
    triple (I start) (for_each rt (seq start len) body)
      (fun _ => I (start + len)%nat) never.
Proof.
  intro Hb. induction len as [|len IH]; intro start; cbn [seq for_each].
  - apply triple_ret. intros w Hw. now rewrite Nat.add_0_r.
  - eapply triple_bind; [apply Hb|]. intros ?.
    replace (start + S len)%nat with (S start + len)%nat by lia. apply IH.
Qed.

Lemma triple_DQNAgent_init (P : WorldSimulation -> Prop) :
  triple P
    (with_globals rt (fun g => let (d, g') := DQNAgent_init rt 12 9 0.01 g in
                               (Ret d, g')))
    (fun d w => P w /\ fresh_agent "" (RegionalAgent_init "" d)) never.
Proof.
  intros s Hs. unfold with_globals, DQNAgent_init.
  destruct (np_randn rt 9 (np (glob s))) as [noise x']. cbn.
  split; [exact Hs|]. unfold fresh_agent. cbn. repeat split.
Qed.

Lemma initialize_region_built (i : nat) :
  triple (built n i i) (_initialize_region rt i) (fun _ => built n (S i) (S i)) never.
Proof.
  unfold _initialize_region. fold (region_key i).
  eapply triple_bind; [apply triple_draw_np|]. intro w0. cbv beta; apply triple_pure; intros _.
  eapply triple_bind; [apply triple_draw_np|]. intro f0. cbv beta; apply triple_pure; intros _.
  eapply triple_bind; [apply triple_draw_np|]. intro e0. cbv beta; apply triple_pure; intros _.
  eapply triple_bind; [apply triple_draw_np|]. intro pop. cbv beta; apply triple_pure; intros _.
  eapply triple_bind; [apply triple_draw_np|]. intro dev. cbv beta; apply triple_pure; intros _.
  eapply triple_bind; [apply triple_draw_np|]. intro temp. cbv beta; apply triple_pure; intros _.
  eapply triple_bind; [apply triple_draw_np|]. intro rain. cbv beta; apply triple_pure; intros _.
  eapply triple_bind with (R := fun _ => built n (S i) i).
  { apply triple_modify_world.
    intros w (H1 & H2 & H3 & H4 & H5 & H6 & H7 & H8 & H9 & H10).
    unfold built. cbn [num_regions current_cycle event_history cycle_history
                       trade_network regions agents with_regions].
    destruct (dict_set_fresh_key (regions w) i
                (RegionState_new (region_key i)
                   (if (i <? List.length region_names)%nat
                    then nth i region_names ""
                    else String.append "Region " (str_of_nat i))
                   (ResourcePool_new w0 f0 e0 1000) pop dev temp rain) H7)
      as [E K].
    repeat split; auto.
    rewrite E. apply Forall_app. split; [exact H9|].
    constructor; [|constructor]. unfold fresh_region. cbn.
    repeat split; try reflexivity; apply py_min_le_r. }
  intros ?.
  eapply triple_bind; [apply triple_DQNAgent_init|]. intro d.
  cbv beta; apply triple_pure. intro Hd.
  eapply triple_bind with (R := fun _ => built n (S i) (S i)).
  { apply triple_modify_world.
    intros w (H1 & H2 & H3 & H4 & H5 & H6 & H7 & H8 & H9 & H10).
    unfold built. cbn [num_regions current_cycle event_history cycle_history
                       trade_network regions agents with_agents].
    destruct (dict_set_fresh_key (agents w) i
                (RegionalAgent_init (region_key i) d) H8) as [E K].
    repeat split; auto.
    rewrite E. apply Forall_app. split; [exact H10|].
    constructor; [|constructor]. unfold fresh_agent in *. cbn in *. tauto. }
  intros ?.
  apply triple_modify_world.
  intros w (H1 & H2 & H3 & H4 & H5 & H6 & H7 & H8 & H9 & H10).
  unfold built. cbn [num_regions current_cycle event_history cycle_history
                     trade_network regions agents with_trade_network
                     add_region trade_history trade_graph].
  repeat split; auto. apply successors_wf_add_node. exact H6.
Qed.

Lemma establish_initial_trades_built (k : nat) :
  triple (built n k k) (_establish_initial_trades rt) (fun _ => built n k k) never.
Proof.
  unfold _establish_initial_trades.
  eapply triple_bind; [apply triple_get_world|]. intro w.
  apply triple_for_each. intros [i region_a].
  apply triple_for_each. intro j.
  eapply triple_bind; [apply triple_draw_np|]. intro u.
  cbv beta; apply triple_pure; intros _.
  destruct (Qltb 0.3 u); [|apply triple_ret; auto].
  eapply triple_bind; [apply triple_draw_np|]. intro strength.
  cbv beta; apply triple_pure; intros _.
  apply triple_modify_world.
  intros w' (H1 & H2 & H3 & H4 & H5 & H6 & H7 & H8 & H9 & H10).
  unfold built. cbn [num_regions current_cycle event_history cycle_history
                     trade_network regions agents with_trade_network].
  repeat split; auto. apply establish_trade_wf. exact H6.
Qed.

Lemma initialize_world_built :
  triple (fun w => built n 0 0 w) (_initialize_world rt)
    (fun _ => built n (Z.to_nat n) (Z.to_nat n)) never.
Proof.
  unfold _initialize_world.
  eapply triple_bind; [apply triple_get_world_eq|]. intro w.
  apply triple_conseq_pre
    with (P' := fun w' => built n 0 0 w' /\ num_regions w = n).
  { intros w' [H <-]. split; [exact H | apply H]. }
  apply triple_pure. intro Hn. rewrite Hn.
  eapply triple_bind.
  { apply (triple_for_each_seq (fun i => built n i i) (_initialize_region rt)
             initialize_region_built (Z.to_nat n) 0%nat). }
  intros ?. cbn [Nat.add]. apply establish_initial_trades_built.
Qed.

End Construction.

(** X27. For a seed in [[0, 2**32 - 1]] the constructor never raises and
    builds a world at cycle 0 with empty event, cycle and trade
    histories, the given region count, and one region and one agent per
    index under the keys [region_0 .. region_{n-1}], in that order.
    Every region carries its key as id, the default growth rate,
    stability, disaster risk and caps, land 1000 and no stock above its
    cap; every agent starts at ε = 1.0 with an empty buffer and empty
    histories; no node of the trade graph lists a partner twice.  A
    negative region count builds the empty world. *)
Theorem WorldSimulation_init_builds (rt : Runtime) (n seed : Z) (g : Globals rt) :
  (0 <= seed < 2 ^ 32)%Z ->
  exists w g',
    WorldSimulation_init rt n seed g = (Ret w, g') /\
    built n (Z.to_nat n) (Z.to_nat n) w.
Proof.
  intro Hseed. unfold WorldSimulation_init.
  assert (S : ((seed <? 0)%Z || (2 ^ 32 <=? seed)%Z) = false).
  { apply orb_false_iff. split; [apply Z.ltb_ge | apply Z.leb_gt]; lia. }
  rewrite S.
  match goal with
  | |- context [_initialize_world rt ?s0] =>
      pose proof (initialize_world_built rt n s0) as H
  end.
  cbn [world] in H.
  match type of H with
  | ?P -> _ => assert (H0 : P)
  end.
  { unfold built. cbn. repeat split; auto. apply successors_wf_init. }
  specialize (H H0).
  destruct (_initialize_world rt _) as [[u|e] s'].
  - eexists; eexists. split; [reflexivity | exact H].
  - destruct H.
Qed.

Lemma WorldSimulation_init_builds_witness :
  exists w g',
    WorldSimulation_init Script.runtime 6 42 (Script.globals [] [] 0) = (Ret w, g') /\
    built 6 (Z.to_nat 6) (Z.to_nat 6) w.
Proof.
  apply WorldSimulation_init_builds. split; [lia | reflexivity].
Defined.

(** *** Queries and endpoints *)

Lemma py_slice_from_last {A : Type} (xs : list A) (k : Z) :
  (0 < k)%Z -> py_slice_from xs (- k) = lastn (Z.to_nat k) xs.
Proof.
  intro Hk. unfold py_slice_from, lastn.
  destruct (Z.ltb_spec (- k) 0) as [_|H]; [|lia].
  destruct (Z.ltb_spec (- k + Z.of_nat (List.length xs)) 0) as [H1|H1].
  - cbn [Z.to_nat]. replace (List.length xs - Z.to_nat k)%nat with 0%nat by lia.
    reflexivity.
  - destruct (Z.ltb_spec (Z.of_nat (List.length xs)) (- k + Z.of_nat (List.length xs)));
      [lia|].
    f_equal. lia.
Qed.

Lemma py_slice_from_zero {A : Type} (xs : list A) : py_slice_from xs (- 0) = xs.
Proof.
  unfold py_slice_from. cbn [Z.opp Z.ltb Z.compare].
  destruct (Z.ltb_spec (Z.of_nat (List.length xs)) 0); [lia|]. reflexivity.
Qed.

Lemma py_slice_from_pos {A : Type} (xs : list A) (k : Z) :
  (0 <= k)%Z -> py_slice_from xs k = skipn (Z.to_nat k) xs.
Proof.
  intro Hk. unfold py_slice_from.
  destruct (Z.ltb_spec k 0) as [H|_]; [lia|].
  destruct (Z.ltb_spec k 0) as [H|_]; [lia|].
  destruct (Z.ltb_spec (Z.of_nat (List.length xs)) k) as [H|_]; [|reflexivity].
  rewrite Nat2Z.id, !skipn_all2 by lia. reflexivity.
Qed.

Lemma lastn_suffix {A : Type} (k : nat) (xs : list A) :
  exists pre, xs = pre ++ lastn k xs.
Proof.
  exists (firstn (List.length xs - k) xs). unfold lastn.
  symmetry. apply firstn_skipn.
Qed.

Lemma count_critical_raises (r : RegionState) (rest : list RegionState) :
  count_critical (r :: rest) = Raise (AttributeError "RegionState" "is_critical").
Proof. reflexivity. Qed.

(** X28. [get_statistics] answers only for a world without regions, and
    then with a total population of 0, no collapsed region and NaN for
    the mean stability and development; for every world with at least
    one region it raises [AttributeError] (the same missing
    [is_critical] that stops [step]). *)
Theorem get_statistics_only_without_regions (w : WorldSimulation) :
  (regions w <> [] ->
   get_statistics w = Raise (AttributeError "RegionState" "is_critical")) /\
  (regions w = [] ->
   exists st,
     get_statistics w = Ret st /\
     st_cycle st = current_cycle w /\ st_total_population st = 0%Z /\
     st_collapsed_regions st = 0%Z /\ st_active_regions st = num_regions w /\
     st_avg_stability st = None /\ st_avg_development st = None).
Proof.
  unfold get_statistics. split; intro H.
  - destruct (regions w) as [|[k r] rest]; [contradiction|]. reflexivity.
  - rewrite H. cbn. eexists. split; [reflexivity|].
    cbn. repeat split. lia.
Qed.

(** X29. [get_world_state] reports the current cycle, one snapshot per
    region under the region's key and in the regions' order, and the
    most recent events only: the last 10 of the event history (all of
    it when it is shorter), oldest first. *)
Theorem get_world_state_contents (w : WorldSimulation) :
  ws_cycle (get_world_state w) = current_cycle w /\
  dict_keys (ws_regions (get_world_state w)) = dict_keys (regions w) /\
  (forall k, dict_get (ws_regions (get_world_state w)) k
             = option_map get_state_dict (dict_get (regions w) k)) /\
  ws_events (get_world_state w) = map event_record (lastn 10 (event_history w)) /\
  (List.length (ws_events (get_world_state w)) <= 10)%nat /\
  exists older, event_history w = older ++ lastn 10 (event_history w).
Proof.
  unfold get_world_state. cbn [ws_cycle ws_regions ws_events].
  split; [reflexivity|]. split.
  { unfold dict_keys. rewrite map_map. reflexivity. }
  split.
  { intro k. induction (regions w) as [|[k' r] rest IH]; cbn; [reflexivity|].
    destruct (String.eqb k' k); [reflexivity | exact IH]. }
  change (py_slice_from (event_history w) (-10))
    with (py_slice_from (event_history w) (- (10))).
  rewrite (py_slice_from_last (event_history w) 10) by lia.
  change (Z.to_nat 10) with 10%nat.
  split; [reflexivity|]. split.
  - rewrite length_map, lastn_length. lia.
  - apply lastn_suffix.
Qed.

(** X30. The history endpoints and their [limit].  A request with a
    [limit] above the declared bound (500 for the cycle history, 1000
    for the events) is answered with status 422, with or without a
    simulation; a request without [limit] is served as [limit = 50].
    Within the bound, a positive [limit] returns the last [limit]
    reports (events), all of them when there are fewer, with the number
    of all reports (of the returned events); a [limit] of 0 does not
    return an empty list but the whole history, since [xs[-0:]] is
    [xs[0:]]; and a negative [limit], which the bound [le] admits,
    returns the history without its first [-limit] entries.  Without a
    simulation a request within the bound is answered with status
    500. *)
Theorem history_endpoints_limit (simulation : option WorldSimulation)
    (sim : WorldSimulation) (limit : Z) :
  ((500 < limit)%Z ->
   get_cycle_history simulation (Some limit) = RequestValidationError /\
   status_code_of (get_cycle_history simulation (Some limit)) = 422%Z) /\
  ((1000 < limit)%Z ->
   get_events simulation (Some limit) = RequestValidationError /\
   status_code_of (get_events simulation (Some limit)) = 422%Z) /\
  (get_cycle_history simulation None = get_cycle_history simulation (Some 50%Z) /\
   get_events simulation None = get_events simulation (Some 50%Z)) /\
  ((0 < limit <= 500)%Z ->
   get_cycle_history (Some sim) (Some limit)
   = Ok (lastn (Z.to_nat limit) (cycle_history sim),
         Z.of_nat (List.length (cycle_history sim)))) /\
  ((0 < limit <= 1000)%Z ->
   get_events (Some sim) (Some limit)
   = Ok (Z.of_nat (Nat.min (Z.to_nat limit) (List.length (event_history sim))),
         map event_record (lastn (Z.to_nat limit) (event_history sim)))) /\
  (get_cycle_history (Some sim) (Some 0%Z)
   = Ok (cycle_history sim, Z.of_nat (List.length (cycle_history sim))) /\
   get_events (Some sim) (Some 0%Z)
   = Ok (Z.of_nat (List.length (event_history sim)),
         map event_record (event_history sim))) /\
  ((limit < 0)%Z ->
   get_cycle_history (Some sim) (Some limit)
   = Ok (skipn (Z.to_nat (- limit)) (cycle_history sim),
         Z.of_nat (List.length (cycle_history sim))) /\
   get_events (Some sim) (Some limit)
   = Ok (Z.of_nat (List.length (event_history sim) - Z.to_nat (- limit)),
         map event_record (skipn (Z.to_nat (- limit)) (event_history sim)))) /\
  ((limit <= 500)%Z ->
   get_cycle_history None (Some limit)
   = HTTPException 500 "Simulation not initialized") /\
  ((limit <= 1000)%Z ->
   get_events None (Some limit) = HTTPException 500 "Simulation not initialized").
Proof.
  unfold get_cycle_history, get_events, Query.
  repeat match goal with |- _ /\ _ => split end.
  - intro H. destruct (Z.ltb_spec 500 limit); [split; reflexivity | lia].
  - intro H. destruct (Z.ltb_spec 1000 limit); [split; reflexivity | lia].
  - reflexivity.
  - reflexivity.
  - intro H. destruct (Z.ltb_spec 500 limit); [lia|].
    rewrite py_slice_from_last by lia. reflexivity.
  - intro H. destruct (Z.ltb_spec 1000 limit); [lia|].
    rewrite py_slice_from_last by lia. rewrite lastn_length. reflexivity.
  - cbn [Z.ltb Z.compare]. rewrite py_slice_from_zero. reflexivity.
  - cbn [Z.ltb Z.compare]. rewrite py_slice_from_zero. reflexivity.
  - intro H. destruct (Z.ltb_spec 500 limit); [lia|].
    destruct (Z.ltb_spec 1000 limit); [lia|].
    rewrite !py_slice_from_pos by lia. rewrite length_skipn. split; reflexivity.
  - intro H. destruct (Z.ltb_spec 500 limit); [lia | reflexivity].
  - intro H. destruct (Z.ltb_spec 1000 limit); [lia | reflexivity].
Qed.
